(** * DeepJ: the note model of [model.py]

    A shallow embedding of the tensor graph built by [build_model] and of the
    three per-note feature constructors, with the properties the design
    document states about them.

    Tensors are nested lists in row-major order: a tensor of shape
    (B, T, N, C) is a list of B lists of T lists of N lists of C scalars.
    Scalars are kept abstract behind the [Scalar] interface, so every
    structural result (indexing, shifting, tiling, reshaping) holds whatever
    arithmetic the tensor engine uses; two instances are given, the rationals
    (to evaluate the graph on concrete tensors) and the reals (for the
    analytic facts about [sigmoid] and [tanh]). *)

From Stdlib Require Import List Arith Lia Bool QArith Qreals Reals Lra.
Import ListNotations.

Local Open Scope nat_scope.

(** ** Scalars *)

Class Scalar (F : Type) := {
  zero : F;
  one : F;
  add : F -> F -> F;
  mul : F -> F -> F;
  div : F -> F -> F;
  of_nat : nat -> F;
  of_Q : Q -> F
}.

(** The nonlinearities the layers of [build_model] name. *)
Class Activations (F : Type) := {
  tanh : F -> F;
  sigmoid : F -> F;
  hard_sigmoid : F -> F
}.

#[export] Instance Q_scalar : Scalar Q := {
  zero := 0%Q;
  one := 1%Q;
  add := Qplus;
  mul := Qmult;
  div := Qdiv;
  of_nat := fun n => inject_Z (Z.of_nat n);
  of_Q := fun q => q
}.

#[export] Instance R_scalar : Scalar R := {
  zero := 0%R;
  one := 1%R;
  add := Rplus;
  mul := Rmult;
  div := Rdiv;
  of_nat := INR;
  of_Q := Q2R
}.

#[export] Instance R_activations : Activations R := {
  tanh := Rtrigo_def.tanh;
  sigmoid := fun z => (1 / (1 + exp (- z)))%R;
  hard_sigmoid := fun z => Rmax 0 (Rmin 1 (0.2 * z + 0.5))
}.

(** ** Failures of the tensor engine *)

Inductive error : Type :=
| ShapeMismatch
| ZeroDivision
| IndexError.

Inductive result (A : Type) : Type :=
| Ok (a : A)
| Err (e : error).
Arguments Ok {A} a.
Arguments Err {A} e.

Definition bind {A B} (r : result A) (k : A -> result B) : result B :=
  match r with
  | Ok a => k a
  | Err e => Err e
  end.

Notation "x <- r ;; k" := (bind r (fun x => k))
  (at level 61, r at next level, right associativity).

Fixpoint mapM {A B} (f : A -> result B) (l : list A) : result (list B) :=
  match l with
  | [] => Ok []
  | a :: l' => b <- f a ;; bs <- mapM f l' ;; Ok (b :: bs)
  end.

(** ** Tensors as nested lists *)

Abbreviation tensor1 F := (list F) (only parsing).
Abbreviation tensor2 F := (list (list F)) (only parsing).
Abbreviation tensor3 F := (list (list (list F))) (only parsing).
Abbreviation tensor4 F := (list (list (list (list F)))) (only parsing).

Definition get3 {F} (x : tensor3 F) (b t k : nat) : option F :=
  match nth_error x b with
  | Some xb =>
      match nth_error xb t with
      | Some xbt => nth_error xbt k
      | None => None
      end
  | None => None
  end.

Definition get4 {F} (x : tensor4 F) (b t n c : nat) : option F :=
  match nth_error x b with
  | Some xb => get3 xb t n c
  | None => None
  end.

(** The row of channels at (b, t, n). *)
Definition row4 {F} (x : tensor4 F) (b t n : nat) : option (list F) :=
  get3 x b t n.

(** Static shapes, as boolean checks. *)
Definition shape1 {A} (n : nat) (v : list A) : bool := length v =? n.
Definition shape2 {A} (n m : nat) (x : list (list A)) : bool :=
  (length x =? n) && forallb (shape1 m) x.
Definition shape3 {A} (n m k : nat) (x : list (list (list A))) : bool :=
  (length x =? n) && forallb (shape2 m k) x.
Definition shape4 {A} (n m k c : nat) (x : list (list (list (list A)))) : bool :=
  (length x =? n) && forallb (shape3 m k c) x.

(** [chunks n k l]: the first [n] consecutive pieces of length [k] of [l]. *)
Fixpoint chunks {A} (n k : nat) (l : list A) : list (list A) :=
  match n with
  | 0 => []
  | S n' => firstn k l :: chunks n' k (skipn k l)
  end.

(** [tf.reshape] to a rank-4 shape: the row-major data is kept, the element
    count must agree. *)
Definition reshape4 {F} (d0 d1 d2 d3 : nat) (flat : list F) : result (tensor4 F) :=
  if length flat =? d0 * d1 * d2 * d3
  then Ok (map (fun s => map (chunks d2 d3) (chunks d1 (d2 * d3) s))
               (chunks d0 (d1 * d2 * d3) flat))
  else Err ShapeMismatch.

Definition flatten2 {F} (x : tensor2 F) : list F := concat x.
Definition flatten3 {F} (x : tensor3 F) : list F := concat (concat x).
Definition flatten4 {F} (x : tensor4 F) : list F := concat (concat (concat x)).

(** [tf.tile] along one axis. *)
Definition tile1 {A} (m : nat) (l : list A) : list A := concat (repeat l m).

Definition tile3 {F} (m0 m1 m2 : nat) (x : tensor3 F) : tensor3 F :=
  tile1 m0 (map (fun r => tile1 m1 (map (tile1 m2) r)) x).

Definition tile4 {F} (m0 m1 m2 m3 : nat) (x : tensor4 F) : tensor4 F :=
  tile1 m0 (map (tile3 m1 m2 m3) x).

(** Python's [l[i::step]]: [take_every step i l]. *)
Fixpoint take_every {A} (step cnt : nat) (l : list A) : list A :=
  match l with
  | [] => []
  | a :: l' =>
      match cnt with
      | 0 => a :: take_every step (step - 1) l'
      | S c => take_every step c l'
      end
  end.

(** Indexing the last axis at a fixed position. *)
Definition chan {F} (c : nat) (v : list F) : result F :=
  match nth_error v c with
  | Some a => Ok a
  | None => Err ShapeMismatch
  end.

Fixpoint same_shape {A B} (f : A -> B -> bool) (l1 : list A) (l2 : list B) : bool :=
  match l1, l2 with
  | [], [] => true
  | a :: l1', b :: l2' => f a b && same_shape f l1' l2'
  | _, _ => false
  end.

Definition same_shape1 {F} (a b : tensor1 F) : bool := length a =? length b.
Definition same_shape2 {F} (a b : tensor2 F) : bool := same_shape same_shape1 a b.
Definition same_shape3 {F} (a b : tensor3 F) : bool := same_shape same_shape2 a b.

(** Packing a Python list of rank-3 tensors into one rank-4 tensor
    (what [tf.reduce_sum] does to a list argument): all must have one shape,
    and an empty list has no axis 3 to reduce. *)
Definition stack {F} (l : list (tensor3 F)) : result (tensor4 F) :=
  match l with
  | [] => Err ShapeMismatch
  | t0 :: rest =>
      if forallb (same_shape3 t0) rest then Ok l else Err ShapeMismatch
  end.

(** The constants of [constants.py] that [model.py] reads. *)
Record constants : Type := {
  NUM_NOTES : nat;
  OCTAVE : nat;
  NUM_OCTAVES : nat;
  NUM_STYLES : nat;
  SEQ_LEN : nat;
  STYLE_UNITS : nat;
  BEAT_UNITS : nat;
  OCTAVE_UNITS : nat;
  TIME_AXIS_UNITS : nat;
  TIME_AXIS_LAYERS : nat;
  NOTE_AXIS_UNITS : nat;
  NOTE_AXIS_LAYERS : nat
}.

(** Python's [n % m] on naturals. *)
Definition py_mod (n m : nat) : result nat :=
  if m =? 0 then Err ZeroDivision else Ok (n mod m).

Fixpoint map2 {A B C} (f : A -> B -> C) (l1 : list A) (l2 : list B) : list C :=
  match l1, l2 with
  | a :: l1', b :: l2' => f a b :: map2 f l1' l2'
  | _, _ => []
  end.

Fixpoint mapi_from {A B} (i : nat) (f : nat -> A -> B) (l : list A) : list B :=
  match l with
  | [] => []
  | a :: l' => f i a :: mapi_from (S i) f l'
  end.

Definition mapi {A B} (f : nat -> A -> B) (l : list A) : list B := mapi_from 0 f l.

Definition map3 {A B} (f : A -> B) (x : list (list (list A))) : list (list (list B)) :=
  map (map (map f)) x.

Definition map4 {A B} (f : A -> B) (x : list (list (list (list A))))
  : list (list (list (list B))) :=
  map (map (map (map f))) x.

(** [Permute((2, 1, 3))] on one sample: rows and columns are exchanged;
    [cols] is the static size of the second axis. *)
Fixpoint transpose {A} (cols : nat) (m : list (list A)) : list (list A) :=
  match m with
  | [] => repeat [] cols
  | r :: m' => map2 cons r (transpose cols m')
  end.

Definition permute213 {A} (cols : nat) (x : list (list (list A))) : list (list (list A)) :=
  map (transpose cols) x.

Section Features.
Context {F : Type} {SF : Scalar F}.

Definition sum (l : list F) : F := fold_right add zero l.

(** [tf.reduce_sum(_, axis=3)] on a rank-4 tensor. *)
Definition reduce_sum3 (x : tensor4 F) : tensor3 F :=
  map (map (map sum)) x.

(** Modelled from the spec: [one_hot] of [util.py], which is not among the
    sources; "a one-hot vector of length OCTAVE over i mod OCTAVE". An
    index outside the vector cannot be set. *)
Definition one_hot (i nb_classes : nat) : result (list F) :=
  if i <? nb_classes
  then Ok (map (fun k => if k =? i then one else zero) (seq 0 nb_classes))
  else Err IndexError.

Variable K : constants.

(** [pitch_pos_in_f(time_steps)(x)] *)
Definition pitch_pos_in_f (time_steps : nat) (x : tensor4 F) : result (tensor4 F) :=
  let note_ranges :=
    map (fun v => div v (of_nat (NUM_NOTES K))) (map of_nat (seq 0 (NUM_NOTES K))) in
  let repeated_ranges := tile1 (length x * time_steps) note_ranges in
  reshape4 (length x) time_steps (NUM_NOTES K) 1 repeated_ranges.

(** [pitch_class_in_f(time_steps)(x)] *)
Definition pitch_class_in_f (time_steps : nat) (x : tensor4 F) : result (tensor4 F) :=
  pitch_class_matrix <-
    mapM (fun n => k <- py_mod n (OCTAVE K) ;; one_hot k (OCTAVE K))
         (seq 0 (NUM_NOTES K)) ;;
  pitch_class_matrix <-
    reshape4 1 1 (NUM_NOTES K) (OCTAVE K) (flatten2 pitch_class_matrix) ;;
  Ok (tile4 (length x) time_steps 1 1 pitch_class_matrix).

(** The row the design document asks for at note index [n]: a 1 at
    position [n mod OCTAVE] among OCTAVE entries. *)
Definition pitch_class_row (n : nat) : list F :=
  map (fun k => if k =? n mod OCTAVE K then one else zero) (seq 0 (OCTAVE K)).

(** The played channel of the notes [i], [i + OCTAVE], [i + 2 * OCTAVE], ...
    at every batch element and time step. *)
Definition played_slice (i : nat) (x : tensor4 F) : tensor3 F :=
  map (map (fun notes => map (fun v => nth 0 v zero) (take_every (OCTAVE K) i notes))) x.

(** [x[:, :, i::OCTAVE, 0]] *)
Definition octave_slice (i : nat) (x : tensor4 F) : result (tensor3 F) :=
  mapM (mapM (fun notes => mapM (chan 0) (take_every (OCTAVE K) i notes))) x.

(** The static size of the note axis of [x[:, :, i::OCTAVE, 0]], for the
    NUM_NOTES notes the Input layer declares: it is known when the graph is
    built, whatever the batch. *)
Definition slice_notes (i : nat) : nat :=
  length (take_every (OCTAVE K) i (seq 0 (NUM_NOTES K))).

(** [tf.reduce_sum] packs its list argument into one tensor. The static
    shapes of the slices are compared when the graph is built, so slices of
    different declared lengths are refused even for an empty batch; their
    values are compared when it runs. *)
Definition pack_slices (slices : list (tensor3 F)) : result (tensor4 F) :=
  if forallb (fun i => slice_notes i =? slice_notes 0) (seq 0 (OCTAVE K))
  then stack slices
  else Err ShapeMismatch.

(** [pitch_bins_f(time_steps)(x)] *)
Definition pitch_bins_f (time_steps : nat) (x : tensor4 F) : result (tensor4 F) :=
  slices <- mapM (fun i => octave_slice i x) (seq 0 (OCTAVE K)) ;;
  stacked <- pack_slices slices ;;
  let bins := reduce_sum3 stacked in
  let bins := tile3 (NUM_OCTAVES K) 1 1 bins in
  reshape4 (length x) time_steps (NUM_NOTES K) 1 (flatten3 bins).

(** What the design document asks of the pitch-bins feature at (b, t, i):
    the sum of the played channel over the notes of pitch class
    [i mod OCTAVE], in increasing note order. *)
Definition pitch_class_sum (x : tensor4 F) (b t i : nat) : option F :=
  match nth_error x b with
  | Some xb =>
      match nth_error xb t with
      | Some notes =>
          Some (sum (map (fun v => nth 0 v zero)
                         (take_every (OCTAVE K) (i mod OCTAVE K) notes)))
      | None => None
      end
  | None => None
  end.

(** [tf.pad(x, [[0, 0], [0, 0], [before, after], [0, 0]])]; [c] is the
    static size of the last axis. *)
Definition pad_axis2 (before after c : nat) (x : tensor4 F) : tensor4 F :=
  map (map (fun notes =>
              repeat (repeat zero c) before ++ notes ++ repeat (repeat zero c) after)) x.

(** What [pad_axis2 1 0 2] after [x[:, :, :-1, :]] does to the notes of one
    time step. *)
Definition shift_rows (notes : tensor2 F) : tensor2 F :=
  repeat (repeat zero 2) 1 ++ removelast notes ++ repeat (repeat zero 2) 0.

(** [Reshape((d1, d2, -1))]: each sample is reshaped, the last size is
    inferred from the element count. *)
Definition keras_reshape (d1 d2 : nat) (x : tensor4 F) : result (tensor4 F) :=
  if d1 * d2 =? 0 then Err ShapeMismatch
  else
    mapM (fun sample =>
            let flat := flatten3 sample in
            if length flat mod (d1 * d2) =? 0
            then
              let d3 := length flat / (d1 * d2) in
              Ok (map (chunks d2 d3) (chunks d1 (d2 * d3) flat))
            else Err ShapeMismatch) x.

(** The Lambda that shifts the target one note up, and the Reshape after it:
    [tf.pad(x[:, :, :-1, :], [[0, 0], [0, 0], [1, 0], [0, 0]])]. *)
Definition shift_chosen (time_steps : nat) (chosen : tensor4 F) : result (tensor4 F) :=
  let shifted := pad_axis2 1 0 2 (map (map (@removelast (list F))) chosen) in
  keras_reshape time_steps (NUM_NOTES K) shifted.

End Features.

(** ** Layers *)

(** Learned parameters are index functions: the layer that owns them reads
    exactly the entries its construction fixes. *)
Record dense_w (F : Type) : Type := {
  kernel : nat -> nat -> F;          (* input index, unit *)
  bias : nat -> F
}.

Record conv_w (F : Type) : Type := {
  conv_kernel : nat -> nat -> nat -> F;   (* tap, input channel, filter *)
  conv_bias : nat -> F
}.

Record lstm_w (F : Type) : Type := {
  lstm_kernel : nat -> nat -> F;     (* input index, gate column *)
  lstm_recurrent : nat -> nat -> F;  (* state index, gate column *)
  lstm_bias : nat -> F
}.
Arguments kernel {F} d _ _.
Arguments bias {F} d _.
Arguments conv_kernel {F} c _ _ _.
Arguments conv_bias {F} c _.
Arguments lstm_kernel {F} l _ _.
Arguments lstm_recurrent {F} l _ _.
Arguments lstm_bias {F} l _.

Record weights (F : Type) : Type := {
  w_style : dense_w F;
  w_beat : dense_w F;
  w_conv : conv_w F;
  w_time_style : nat -> dense_w F;
  w_time_lstm : nat -> lstm_w F;
  w_note_style : nat -> dense_w F;
  w_note_lstm : nat -> lstm_w F;
  w_out : dense_w F
}.
Arguments w_style {F} w.
Arguments w_beat {F} w.
Arguments w_conv {F} w.
Arguments w_time_style {F} w _.
Arguments w_time_lstm {F} w _.
Arguments w_note_style {F} w _.
Arguments w_note_lstm {F} w _.
Arguments w_out {F} w.

(** Every [Dropout(...)] call of [build_model]. *)
Inductive site : Type :=
| DNotes | DBeat | DChosen | DStyle
| DStyleEmbed | DBeatEmbed | DNoteOctave
| DTimeStyle (l : nat) | DTimeLstm (l : nat)
| DNoteStyle (l : nat) | DNoteLstm (l : nat).

(** One evaluation of the graph: the learning phase and the random keep
    masks drawn for each dropout site at each element index. *)
Record phase : Type := {
  training : bool;
  keep : site -> list nat -> bool
}.

Definition Qltb (a b : Q) : bool := negb (Qle_bool b a).

Section Layers.
Context {F : Type} {SF : Scalar F} {AF : Activations F}.

(** [Dropout(rate)]: the inputs pass unchanged unless 0 < rate < 1 and the
    graph runs in the learning phase; then kept entries are scaled by
    1 / (1 - rate) and the others zeroed. *)
Definition dropout_active (rate : Q) (ph : phase) : bool :=
  Qltb 0 rate && Qltb rate 1 && training ph.

Definition drop (rate : Q) (kept : bool) (v : F) : F :=
  mul (div v (of_Q (1 - rate))) (if kept then one else zero).

Definition dropout3 (rate : Q) (ph : phase) (s : site) (x : tensor3 F) : tensor3 F :=
  if dropout_active rate ph
  then mapi (fun b => mapi (fun t => mapi (fun k =>
         drop rate (keep ph s [b; t; k])))) x
  else x.

Definition dropout4 (rate : Q) (ph : phase) (s : site) (x : tensor4 F) : tensor4 F :=
  if dropout_active rate ph
  then mapi (fun b => mapi (fun t => mapi (fun n => mapi (fun c =>
         drop rate (keep ph s [b; t; n; c]))))) x
  else x.

(** [K.dot] of a vector with one column of a kernel. *)
Definition dot (x : list F) (col : nat -> F) : F :=
  sum (mapi (fun k xk => mul xk (col k)) x).

(** [Dense(units)] on the last axis, no activation. *)
Definition dense (units : nat) (w : dense_w F) (x : list F) : list F :=
  map (fun j => add (dot x (fun k => kernel w k j)) (bias w j)) (seq 0 units).

Definition dense3 (units : nat) (w : dense_w F) (x : tensor3 F) : tensor3 F :=
  map (map (dense units w)) x.

Definition dense4 (units : nat) (w : dense_w F) (x : tensor4 F) : tensor4 F :=
  map (map (map (dense units w))) x.

(** [Conv1D(filters, kernel_size, padding='same')] on one (steps, channels)
    sequence, stride 1; [channels] is the static input width. *)
Definition conv1d_same (filters kernel_size channels : nat) (w : conv_w F)
           (x : tensor2 F) : tensor2 F :=
  let pad_total := kernel_size - 1 in
  let pad_left := pad_total / 2 in
  let pad_right := pad_total - pad_left in
  let padded :=
    repeat (repeat zero channels) pad_left ++ x ++ repeat (repeat zero channels) pad_right in
  map (fun n =>
         let window := firstn kernel_size (skipn n padded) in
         map (fun f =>
                add (sum (concat (mapi (fun k row =>
                            mapi (fun c v => mul v (conv_kernel w k c f)) row) window)))
                    (conv_bias w f))
             (seq 0 filters))
      (seq 0 (length x)).

(** One step of [LSTM(units)]: gates in the order input, forget, cell,
    output; [hard_sigmoid] on the gates, [tanh] on the cell. *)
Definition lstm_step (units : nat) (w : lstm_w F) (hc : list F * list F) (x : list F)
  : list F * list F :=
  let h := fst hc in
  let c := snd hc in
  let z := fun j =>
    add (add (dot x (fun k => lstm_kernel w k j)) (lstm_bias w j))
        (dot h (fun k => lstm_recurrent w k j)) in
  let c' := mapi (fun j cj =>
              add (mul (hard_sigmoid (z (units + j))) cj)
                  (mul (hard_sigmoid (z j)) (tanh (z (2 * units + j))))) c in
  let h' := mapi (fun j cj' => mul (hard_sigmoid (z (3 * units + j))) (tanh cj')) c' in
  (h', c').

Fixpoint lstm_run (units : nat) (w : lstm_w F) (hc : list F * list F) (xs : tensor2 F)
  : tensor2 F :=
  match xs with
  | [] => []
  | x :: xs' =>
      let hc' := lstm_step units w hc x in
      fst hc' :: lstm_run units w hc' xs'
  end.

(** [LSTM(units, return_sequences=True)] on one sequence, from the zero state. *)
Definition lstm (units : nat) (w : lstm_w F) (xs : tensor2 F) : tensor2 F :=
  lstm_run units w (repeat zero units, repeat zero units) xs.

(** [TimeDistributed(layer)]: the layer on every slice along axis 1. *)
Definition time_distributed {A B} (layer : A -> B) (x : list (list A)) : list (list B) :=
  map (map layer) x.

(** [TimeDistributed(RepeatVector(n))] *)
Definition repeat_vector (n : nat) (x : tensor3 F) : tensor4 F :=
  time_distributed (fun v => repeat v n) x.

(** [Add()] and [Concatenate()] (last axis) of two rank-4 tensors. *)
Definition add4 (x y : tensor4 F) : tensor4 F :=
  map2 (map2 (map2 (map2 add))) x y.

Definition concat4 (x y : tensor4 F) : tensor4 F :=
  map2 (map2 (map2 (@app F))) x y.

End Layers.

(** ** Losses *)

(** The two backend cross-entropies the losses of Keras are built from:
    [K.binary_crossentropy] on one (target, output) pair of entries and
    [K.categorical_crossentropy] on one (target, output) pair of rows. *)
Class Crossentropy (F : Type) := {
  K_binary_crossentropy : F -> F -> F;
  K_categorical_crossentropy : list F -> list F -> F
}.

Section Losses.
Context {F : Type} {SF : Scalar F} {CE : Crossentropy F}.

(** [K.mean] of a vector. *)
Definition mean (l : list F) : F := div (sum l) (of_nat (length l)).

(** [losses.binary_crossentropy]: the entry-wise cross-entropy, averaged
    over the last axis. *)
Definition binary_crossentropy (y_true y_pred : tensor4 F) : tensor3 F :=
  map2 (map2 (map2 (fun t p => mean (map2 K_binary_crossentropy t p)))) y_true y_pred.

(** [losses.categorical_crossentropy]: one score per row of the last axis. *)
Definition categorical_crossentropy (y_true y_pred : tensor3 F) : tensor2 F :=
  map2 (map2 K_categorical_crossentropy) y_true y_pred.

Definition primary_loss (y_true y_pred : tensor4 F) : tensor3 F :=
  binary_crossentropy y_true y_pred.

Definition style_loss (y_true y_pred : tensor3 F) : tensor2 F :=
  map (map (mul (of_Q (1 # 2)))) (categorical_crossentropy y_true y_pred).

(** The entry-wise cross-entropy of a prediction, before any averaging. *)
Definition elementwise_bce (y_true y_pred : tensor4 F) : tensor4 F :=
  map2 (map2 (map2 (map2 K_binary_crossentropy))) y_true y_pred.

(** What Keras optimises for one output under the default unit sample
    weights: the loss tensor averaged over every axis but the first, then
    over the batch. *)
Definition weighted_objective (scores : tensor3 F) : F :=
  mean (map (fun s => mean (flatten2 s)) scores).

(** A loss function as [compile] receives it, by the output it applies to. *)
Inductive loss_fn : Type :=
| NotesLoss (f : tensor4 F -> tensor4 F -> tensor3 F)
| StylesLoss (f : tensor3 F -> tensor3 F -> tensor2 F).

End Losses.

(** ** The model *)

Inductive input_layer : Type := NotesIn | ChosenIn | BeatIn | StyleIn.
Inductive output_layer : Type := NoteOut | StyleOut.
Inductive loss_id : Type := PrimaryLoss | StyleLoss.

(** The Python function each loss name stands for. *)
Definition loss_function {F} {SF : Scalar F} {CE : Crossentropy F} (l : loss_id)
  : loss_fn (F := F) :=
  match l with
  | PrimaryLoss => NotesLoss primary_loss
  | StyleLoss => StylesLoss style_loss
  end.

(** An array handed to the model: the beat and the style have rank 3, the
    notes and the target rank 4. *)
Inductive array (F : Type) : Type :=
| Rank3 (t : tensor3 F)
| Rank4 (t : tensor4 F).
Arguments Rank3 {F} t.
Arguments Rank4 {F} t.

Definition input_layer_eqb (a b : input_layer) : bool :=
  match a, b with
  | NotesIn, NotesIn | ChosenIn, ChosenIn | BeatIn, BeatIn | StyleIn, StyleIn => true
  | _, _ => false
  end.

Fixpoint feed {A} (names : list input_layer) (args : list A) (i : input_layer) : option A :=
  match names, args with
  | n :: names', a :: args' => if input_layer_eqb n i then Some a else feed names' args' i
  | _, _ => None
  end.

Record model (F : Type) : Type := {
  inputs : list input_layer;
  outputs : list output_layer;
  loss : list loss_id;
  input_shape : input_layer -> list nat;
  graph : phase -> (input_layer -> option (array F)) -> result (tensor4 F)
}.
Arguments inputs {F} m.
Arguments outputs {F} m.
Arguments loss {F} m.
Arguments input_shape {F} m _.
Arguments graph {F} m _ _.

(** The shape check Keras runs on each array before it feeds the graph;
    the batch size of an accepted array. *)
Definition check_array {F} (shape : list nat) (a : array F) : option nat :=
  match shape, a with
  | [d1; d2], Rank3 t => if shape3 (length t) d1 d2 t then Some (length t) else None
  | [d1; d2; d3], Rank4 t => if shape4 (length t) d1 d2 d3 t then Some (length t) else None
  | _, _ => None
  end.

Fixpoint check_arrays {F} (shapes : list (list nat)) (args : list (array F))
  : option (list nat) :=
  match shapes, args with
  | [], [] => Some []
  | s :: shapes', a :: args' =>
      match check_array s a, check_arrays shapes' args' with
      | Some b, Some bs => Some (b :: bs)
      | _, _ => None
      end
  | _, _ => None
  end.

Definition all_equal (l : list nat) : bool :=
  match l with
  | [] => true
  | b :: l' => forallb (Nat.eqb b) l'
  end.

(** A forward evaluation of a model on positional arrays: the i-th array is
    fed to the i-th input of [inputs]. *)
Definition call {F} (m : model F) (ph : phase) (args : list (array F))
  : result (tensor4 F) :=
  match check_arrays (map (input_shape m) (inputs m)) args with
  | Some batches =>
      if all_equal batches then graph m ph (feed (inputs m) args)
      else Err ShapeMismatch
  | None => Err ShapeMismatch
  end.

Section Model.
Context {F : Type} {SF : Scalar F} {AF : Activations F}.
Variable K : constants.
Variable time_steps : nat.
Variables input_dropout dropout : Q.
Variable W : weights F.

Section Forward.
Variable ph : phase.

(** [style = Dropout(dropout)(Dense(STYLE_UNITS)(Dropout(input_dropout)(style_in)))] *)
Definition style_embedding (style_in : tensor3 F) : tensor3 F :=
  let style := dropout3 input_dropout ph DStyle style_in in
  let style := dense3 (STYLE_UNITS K) (w_style W) style in
  dropout3 dropout ph DStyleEmbed style.

(** The same for the beat, with [Activation('tanh')] after the Dense. *)
Definition beat_embedding (beat_in : tensor3 F) : tensor3 F :=
  let beat := dropout3 input_dropout ph DBeat beat_in in
  let beat := dense3 (BEAT_UNITS K) (w_beat W) beat in
  let beat := map3 tanh beat in
  dropout3 dropout ph DBeatEmbed beat.

Definition note_octave (notes : tensor4 F) : tensor4 F :=
  let o := time_distributed
             (conv1d_same (OCTAVE_UNITS K) (2 * OCTAVE K) 2 (w_conv W)) notes in
  let o := map4 tanh o in
  dropout4 dropout ph DNoteOctave o.

(** The Concatenate of the five per-note features. *)
Definition note_features (notes : tensor4 F) (beat : tensor3 F)
  : result (tensor4 F) :=
  let octave := note_octave notes in
  pos <- pitch_pos_in_f K time_steps notes ;;
  cls <- pitch_class_in_f K time_steps notes ;;
  bins <- pitch_bins_f K time_steps notes ;;
  Ok (concat4 (concat4 (concat4 (concat4 pos cls) bins) octave)
              (repeat_vector (NUM_NOTES K) beat)).

(** "Integrate style": Dense to the current width, tanh, Dropout,
    repeated over the notes. *)
Definition style_proj (width : nat) (w : dense_w F) (s : site) (style : tensor3 F)
  : tensor4 F :=
  let p := dense3 width w style in
  let p := map3 tanh p in
  let p := dropout3 dropout ph s p in
  repeat_vector (NUM_NOTES K) p.

(** One round of the time-axis loop; the state is the tensor and its
    static width [x.get_shape()[3]]. *)
Definition time_layer (style : tensor3 F) (st : tensor4 F * nat) (l : nat)
  : tensor4 F * nat :=
  let x := fst st in
  let p := style_proj (snd st) (w_time_style W l) (DTimeStyle l) style in
  let p := permute213 (NUM_NOTES K) p in
  let x := add4 x p in
  let x := time_distributed (lstm (TIME_AXIS_UNITS K) (w_time_lstm W l)) x in
  let x := dropout4 dropout ph (DTimeLstm l) x in
  (x, TIME_AXIS_UNITS K).

Definition note_layer (style : tensor3 F) (st : tensor4 F * nat) (l : nat)
  : tensor4 F * nat :=
  let x := fst st in
  let p := style_proj (snd st) (w_note_style W l) (DNoteStyle l) style in
  let x := add4 x p in
  let x := time_distributed (lstm (NOTE_AXIS_UNITS K) (w_note_lstm W l)) x in
  let x := dropout4 dropout ph (DNoteLstm l) x in
  (x, NOTE_AXIS_UNITS K).

Definition feature_width : nat :=
  1 + OCTAVE K + 1 + OCTAVE_UNITS K + BEAT_UNITS K.

(** The graph from the four inputs to [notes_out]. *)
Definition forward (notes_in chosen_in : tensor4 F) (beat_in style_in : tensor3 F)
  : result (tensor4 F) :=
  let notes := dropout4 input_dropout ph DNotes notes_in in
  let chosen := dropout4 input_dropout ph DChosen chosen_in in
  let style := style_embedding style_in in
  let beat := beat_embedding beat_in in
  features <- note_features notes beat ;;
  let x := permute213 (NUM_NOTES K) features in
  let st := fold_left (time_layer style) (seq 0 (TIME_AXIS_LAYERS K))
                      (x, feature_width) in
  let x := permute213 time_steps (fst st) in
  shifted <- shift_chosen K time_steps chosen ;;
  let x := concat4 x shifted in
  let st := fold_left (note_layer style) (seq 0 (NOTE_AXIS_LAYERS K))
                      (x, snd st + 2) in
  Ok (map4 sigmoid (dense4 2 (w_out W) (fst st))).

End Forward.

(** A configuration the graph can be built for: a positive window, and
    NUM_NOTES a positive whole number of octaves. *)
Definition valid_constants : Prop :=
  0 < time_steps /\ 0 < OCTAVE K /\ 0 < NUM_NOTES K /\
  NUM_NOTES K = NUM_OCTAVES K * OCTAVE K.

Definition model_input_shape (i : input_layer) : list nat :=
  match i with
  | NotesIn | ChosenIn => [time_steps; NUM_NOTES K; 2]
  | BeatIn => [time_steps; 2]
  | StyleIn => [time_steps; NUM_STYLES K]
  end.

(** [build_model(time_steps, input_dropout, dropout)], with the values [W]
    of its weights: [Model([notes_in, chosen_in, beat_in, style_in],
    [notes_out])] compiled with [loss=[primary_loss]]. *)
Definition build_model : model F := {|
  inputs := [NotesIn; ChosenIn; BeatIn; StyleIn];
  outputs := [NoteOut];
  loss := [PrimaryLoss];
  input_shape := model_input_shape;
  graph := fun ph env =>
    match env NotesIn, env ChosenIn, env BeatIn, env StyleIn with
    | Some (Rank4 n), Some (Rank4 c), Some (Rank3 b), Some (Rank3 s) =>
        forward ph n c b s
    | _, _, _, _ => Err ShapeMismatch
    end
|}.

End Model.

(** [build_model()] with its default arguments: [time_steps=SEQ_LEN],
    [input_dropout=0.2], [dropout=0.5]. *)
Definition build_model_default {F} {SF : Scalar F} {AF : Activations F}
           (K : constants) (W : weights F) : model F :=
  build_model K (SEQ_LEN K) (1 # 5) (1 # 2) W.

(** A small configuration for worked examples: 4 notes in 2 octaves of 2. *)
Definition tiny_constants : constants := {|
  NUM_NOTES := 4;
  OCTAVE := 2;
  NUM_OCTAVES := 2;
  NUM_STYLES := 2;
  SEQ_LEN := 2;
  STYLE_UNITS := 1;
  BEAT_UNITS := 1;
  OCTAVE_UNITS := 1;
  TIME_AXIS_UNITS := 1;
  TIME_AXIS_LAYERS := 1;
  NOTE_AXIS_UNITS := 1;
  NOTE_AXIS_LAYERS := 1
|}.

(** One sample, two time steps, played values 1..4 and 10..40. *)
Definition tiny_notes : tensor4 Q :=
  [[ [[1%Q; 0%Q]; [2%Q; 0%Q]; [3%Q; 0%Q]; [4%Q; 0%Q]];
     [[10%Q; 0%Q]; [20%Q; 0%Q]; [30%Q; 0%Q]; [40%Q; 0%Q]] ]].

(** ** A concrete configuration

    [constants.py] is not among the sources; the values below are in the range
    the design document names (48 notes in 4 octaves of 12, 4 styles, windows
    of 16 steps). *)
Definition example_constants : constants := {|
  NUM_NOTES := 48;
  OCTAVE := 12;
  NUM_OCTAVES := 4;
  NUM_STYLES := 4;
  SEQ_LEN := 16;
  STYLE_UNITS := 64;
  BEAT_UNITS := 64;
  OCTAVE_UNITS := 64;
  TIME_AXIS_UNITS := 256;
  TIME_AXIS_LAYERS := 2;
  NOTE_AXIS_UNITS := 128;
  NOTE_AXIS_LAYERS := 2
|}.

(** The cross-entropies over the reals: predictions are clipped to
    [1e-7, 1 - 1e-7] as the backend does, a row of class scores is first
    scaled to sum 1. *)
Definition clip_probability (p : R) : R := Rmax 1e-7 (Rmin (1 - 1e-7) p).

#[export] Instance R_crossentropy : Crossentropy R := {
  K_binary_crossentropy := fun t p =>
    (- (t * ln (clip_probability p) + (1 - t) * ln (1 - clip_probability p)))%R;
  K_categorical_crossentropy := fun t p =>
    (- sum (map2 (fun ti pi => ti * ln (clip_probability (pi / sum p))) t p))%R
}.

(** Weights that are all 1, with biases 0. *)
Definition unit_dense : dense_w R := {| kernel := fun _ _ => 1%R; bias := fun _ => 0%R |}.

Definition unit_lstm : lstm_w R := {|
  lstm_kernel := fun _ _ => 1%R;
  lstm_recurrent := fun _ _ => 1%R;
  lstm_bias := fun _ => 0%R
|}.

Definition unit_weights : weights R := {|
  w_style := unit_dense;
  w_beat := unit_dense;
  w_conv := {| conv_kernel := fun _ _ _ => 1%R; conv_bias := fun _ => 0%R |};
  w_time_style := fun _ => unit_dense;
  w_time_lstm := fun _ => unit_lstm;
  w_note_style := fun _ => unit_dense;
  w_note_lstm := fun _ => unit_lstm;
  w_out := unit_dense
|}.

(** An evaluation outside the learning phase. *)
Definition test_phase : phase := {| training := false; keep := fun _ _ => true |}.

(** One time step of one sample with the first style selected. *)
Definition first_style : tensor3 R := [[[1%R; 0%R; 0%R; 0%R]]].

(** A batch of one sample with two time steps in which only the lowest note
    is played, at the first step. *)
Definition one_note_frames : tensor4 Q :=
  [[ [1%Q; 0%Q] :: repeat [0%Q; 0%Q] 47 ; repeat [0%Q; 0%Q] 48 ]].

(** The same configuration with two more notes than four octaves hold. *)
Definition ragged_constants : constants := {|
  NUM_NOTES := 50;
  OCTAVE := 12;
  NUM_OCTAVES := 4;
  NUM_STYLES := 4;
  SEQ_LEN := 16;
  STYLE_UNITS := 64;
  BEAT_UNITS := 64;
  OCTAVE_UNITS := 64;
  TIME_AXIS_UNITS := 256;
  TIME_AXIS_LAYERS := 2;
  NOTE_AXIS_UNITS := 128;
  NOTE_AXIS_LAYERS := 2
|}.

(** Silent tensors: [silence B T N] has shape (B, T, N, 2), [quiet B T C]
    shape (B, T, C). *)
Definition silence {F} {SF : Scalar F} (B T N : nat) : tensor4 F :=
  repeat (repeat (repeat [zero; zero] N) T) B.

Definition quiet {F} {SF : Scalar F} (B T C : nat) : tensor3 F :=
  repeat (repeat (repeat zero C) T) B.

(** The notes below pitch index [i], at every batch element and time step. *)
Definition below {A} (i : nat) (x : list (list (list A))) : list (list (list A)) :=
  map (map (firstn i)) x.

(** The silent target with the highest of [N] notes played and articulated. *)
Definition top_note_on {F} {SF : Scalar F} (B T N : nat) : tensor4 F :=
  repeat (repeat (repeat [zero; zero] (N - 1) ++ [[one; one]]) T) B.

(** Every entry of a rank-4 (rank-3) tensor satisfies [P]. *)
Definition all_entries4 {F} (P : F -> Prop) (x : tensor4 F) : Prop :=
  Forall (Forall (Forall (Forall P))) x.

Definition all_entries3 {F} (P : F -> Prop) (x : tensor3 F) : Prop :=
  Forall (Forall (Forall P)) x.

(** Four octaves of 12 declared for 36 notes. *)
Definition miscounted_constants : constants := {|
  NUM_NOTES := 36;
  OCTAVE := 12;
  NUM_OCTAVES := 4;
  NUM_STYLES := 4;
  SEQ_LEN := 16;
  STYLE_UNITS := 64;
  BEAT_UNITS := 64;
  OCTAVE_UNITS := 64;
  TIME_AXIS_UNITS := 256;
  TIME_AXIS_LAYERS := 2;
  NOTE_AXIS_UNITS := 128;
  NOTE_AXIS_LAYERS := 2
|}.

(** Octaves of no note at all. *)
Definition empty_octave_constants : constants := {|
  NUM_NOTES := 48;
  OCTAVE := 0;
  NUM_OCTAVES := 4;
  NUM_STYLES := 4;
  SEQ_LEN := 16;
  STYLE_UNITS := 64;
  BEAT_UNITS := 64;
  OCTAVE_UNITS := 64;
  TIME_AXIS_UNITS := 256;
  TIME_AXIS_LAYERS := 2;
  NOTE_AXIS_UNITS := 128;
  NOTE_AXIS_LAYERS := 2
|}.

(** ** The objective in the words of the design document

    The definitions below do not come from the code: they say, by index,
    what "element-wise binary cross-entropy averaged over all positions" and
    "categorical cross-entropy, half-weighted" are, for the losses of the
    code to be compared with. *)

(** f 0 + ... + f (n - 1) *)
Definition sum_upto (n : nat) (f : nat -> R) : R :=
  fold_right Rplus 0%R (map f (seq 0 n)).

(** The entry of a tensor at (b, t, n, c), and the row of a rank-3 tensor
    at (b, t). *)
Definition entry4 (x : tensor4 R) (b t n c : nat) : R :=
  nth c (nth n (nth t (nth b x []) []) []) 0%R.

Definition row3 (x : tensor3 R) (b t : nat) : list R :=
  nth t (nth b x []) [].

Definition get2 {F} (x : tensor2 F) (b t : nat) : option F :=
  match nth_error x b with
  | Some xb => nth_error xb t
  | None => None
  end.

(** The binary cross-entropy of a label [y] and a probability [p]. *)
Definition spec_binary_crossentropy (y p : R) : R :=
  (- (y * ln p + (1 - y) * ln (1 - p)))%R.

(** The binary cross-entropy of every entry of a (B, T, N, 2) prediction,
    the probability kept within [1e-7, 1 - 1e-7], averaged over the
    B * T * N * 2 entries. *)
Definition spec_average_binary_crossentropy (B T N : nat) (y_true y_pred : tensor4 R)
  : R :=
  (sum_upto B (fun b => sum_upto T (fun t => sum_upto N (fun n => sum_upto 2 (fun c =>
     spec_binary_crossentropy (entry4 y_true b t n c)
                              (clip_probability (entry4 y_pred b t n c))))))
   / INR (B * T * N * 2))%R.

(** The categorical cross-entropy of a row of [S] labels and a row of [S]
    class scores, the scores scaled to sum 1 and kept within
    [1e-7, 1 - 1e-7]. *)
Definition spec_categorical_crossentropy (S : nat) (y p : list R) : R :=
  (- sum_upto S (fun i =>
       nth i y 0 * ln (clip_probability (nth i p 0 / sum_upto S (fun j => nth j p 0)))))%R.

(** A target and a prediction for one sample of two time steps and four
    notes. *)
Definition tiny_target : tensor4 R :=
  [[ [[1; 0]; [0; 0]; [1; 1]; [0; 0]];
     [[0; 0]; [1; 0]; [0; 0]; [1; 1]] ]]%R.

Definition tiny_prediction : tensor4 R :=
  [[ [[0.9; 0.1]; [0.2; 0.1]; [0.7; 0.6]; [0.1; 0.1]];
     [[0.3; 0.2]; [0.8; 0.4]; [0.1; 0]; [1; 0.5]] ]]%R.

(** * Properties *)

(** ** Lists: chunks, tiles, strided slices *)


Lemma bind_ok {A B} (r : result A) (k : A -> result B) (a : A) :
  r = Ok a -> bind r k = k a.
Proof. intros ->. reflexivity. Qed.

Lemma mapM_ok_map {A B} (f : A -> result B) (g : A -> B) (l : list A) :
  (forall a, In a l -> f a = Ok (g a)) -> mapM f l = Ok (map g l).
Proof.
  induction l as [|a l IH]; simpl; intros H; [reflexivity|].
  rewrite (H a (or_introl eq_refl)). simpl.
  rewrite IH by (intros; apply H; right; assumption).
  reflexivity.
Qed.

Lemma mapM_err {A B} (f : A -> result B) (l : list A) (e : error) :
  (forall a, In a l -> f a = Err e) -> l <> [] -> mapM f l = Err e.
Proof.
  destruct l as [|a l]; [congruence|]. intros H _. simpl.
  rewrite (H a (or_introl eq_refl)). reflexivity.
Qed.

Lemma length_chunks {A} (n k : nat) (l : list A) : length (chunks n k l) = n.
Proof. revert l. induction n; simpl; intros; [reflexivity|]. now rewrite IHn. Qed.

Lemma firstn_exact {A} (r l : list A) : firstn (length r) (r ++ l) = r.
Proof.
  rewrite firstn_app, Nat.sub_diag, firstn_all. simpl. apply app_nil_r.
Qed.

Lemma skipn_exact {A} (r l : list A) : skipn (length r) (r ++ l) = l.
Proof.
  rewrite skipn_app, Nat.sub_diag, skipn_all. reflexivity.
Qed.

(** Cutting a concatenation of equally long rows gives the rows back. *)
Lemma chunks_concat {A} (k : nat) (rows : list (list A)) :
  Forall (fun r => length r = k) rows ->
  chunks (length rows) k (concat rows) = rows.
Proof.
  induction 1 as [|r rows Hr _ IH]; simpl; [reflexivity|].
  subst k. rewrite firstn_exact, skipn_exact, IH. reflexivity.
Qed.

Lemma chunks_concat_n {A} (n k : nat) (rows : list (list A)) :
  length rows = n -> Forall (fun r => length r = k) rows ->
  chunks n k (concat rows) = rows.
Proof. intros <-. apply chunks_concat. Qed.

Lemma chunks_lengths {A} (n k : nat) (l : list A) :
  length l = n * k -> Forall (fun c => length c = k) (chunks n k l).
Proof.
  revert l. induction n as [|n IH]; simpl; intros l Hl; constructor.
  - rewrite length_firstn. lia.
  - apply IH. rewrite length_skipn. lia.
Qed.

Lemma Forall_firstn {A} (P : A -> Prop) (n : nat) (l : list A) :
  Forall P l -> Forall P (firstn n l).
Proof.
  intros H. revert n. induction H; intros [|n]; simpl; constructor; auto.
Qed.

Lemma chunks_singletons {A} (l : list A) :
  chunks (length l) 1 l = map (fun v => [v]) l.
Proof. induction l as [|a l IH]; simpl; [reflexivity|]. now rewrite IH. Qed.

Lemma length_concat_uniform {A} (k : nat) (rows : list (list A)) :
  Forall (fun r => length r = k) rows -> length (concat rows) = length rows * k.
Proof.
  induction 1 as [|r rows Hr _ IH]; simpl; [reflexivity|].
  rewrite length_app, IH, Hr. reflexivity.
Qed.

Lemma concat_concat_map {A} (x : list (list (list A))) :
  concat (concat x) = concat (map (@concat A) x).
Proof.
  induction x as [|a x IH]; simpl; [reflexivity|].
  rewrite concat_app, IH. reflexivity.
Qed.

Lemma length_tile1 {A} (m : nat) (l : list A) : length (tile1 m l) = m * length l.
Proof.
  unfold tile1. induction m; simpl; [reflexivity|].
  rewrite length_app, IHm. reflexivity.
Qed.

Lemma tile1_mul {A} (m n : nat) (l : list A) :
  tile1 (m * n) l = tile1 m (tile1 n l).
Proof.
  unfold tile1. induction m as [|m IH]; simpl; [reflexivity|].
  rewrite repeat_app, concat_app, IH. reflexivity.
Qed.

Lemma tile1_one {A} (l : list A) : tile1 1 l = l.
Proof. unfold tile1. simpl. apply app_nil_r. Qed.

Lemma tile1_singleton {A} (m : nat) (a : A) : tile1 m [a] = repeat a m.
Proof. unfold tile1. induction m; simpl; [reflexivity|]. now rewrite IHm. Qed.

Lemma Forall_repeat {A} (P : A -> Prop) (a : A) (n : nat) : P a -> Forall P (repeat a n).
Proof. intros H. induction n; simpl; constructor; assumption. Qed.

Lemma chunks_tile1 {A} (m : nat) (l : list A) :
  chunks m (length l) (tile1 m l) = repeat l m.
Proof.
  unfold tile1.
  rewrite <- (repeat_length l m) at 1.
  apply chunks_concat, Forall_repeat. reflexivity.
Qed.

(** ** Shapes *)

Lemma shape1_iff {A} (n : nat) (v : list A) : shape1 n v = true <-> length v = n.
Proof. unfold shape1. apply Nat.eqb_eq. Qed.

Lemma shape2_iff {A} (n m : nat) (x : list (list A)) :
  shape2 n m x = true <-> length x = n /\ Forall (fun v => length v = m) x.
Proof.
  unfold shape2. rewrite andb_true_iff, Nat.eqb_eq, forallb_forall, Forall_forall.
  split; intros [H1 H2]; split; auto; intros v Hv; apply shape1_iff; auto.
Qed.

Lemma shape3_iff {A} (n m k : nat) (x : list (list (list A))) :
  shape3 n m k x = true <-> length x = n /\ Forall (fun y => shape2 m k y = true) x.
Proof.
  unfold shape3. rewrite andb_true_iff, Nat.eqb_eq, forallb_forall, Forall_forall.
  reflexivity.
Qed.

Lemma shape4_iff {A} (n m k c : nat) (x : list (list (list (list A)))) :
  shape4 n m k c x = true <-> length x = n /\ Forall (fun y => shape3 m k c y = true) x.
Proof.
  unfold shape4. rewrite andb_true_iff, Nat.eqb_eq, forallb_forall, Forall_forall.
  reflexivity.
Qed.

Lemma shape2_repeat {A} (n m : nat) (v : list A) :
  length v = m -> shape2 n m (repeat v n) = true.
Proof.
  intros H. apply shape2_iff. split; [apply repeat_length|].
  apply Forall_repeat. assumption.
Qed.

Lemma shape3_repeat {A} (n m k : nat) (y : list (list A)) :
  shape2 m k y = true -> shape3 n m k (repeat y n) = true.
Proof.
  intros H. apply shape3_iff. split; [apply repeat_length|].
  apply Forall_repeat. assumption.
Qed.

Lemma shape4_repeat {A} (n m k c : nat) (y : list (list (list A))) :
  shape3 m k c y = true -> shape4 n m k c (repeat y n) = true.
Proof.
  intros H. apply shape4_iff. split; [apply repeat_length|].
  apply Forall_repeat. assumption.
Qed.

(** ** Pitch position *)

Section FeatureFacts.
Context {F : Type} {SF : Scalar F}.
Variable K : constants.

(** Reshaping [B * T] tiled copies of a row of [N] entries to (B, T, N, 1). *)
Lemma reshape4_tile1 (B T : nat) (l : list F) :
  reshape4 B T (length l) 1 (tile1 (B * T) l) =
  Ok (repeat (repeat (map (fun v => [v]) l) T) B).
Proof.
  unfold reshape4. rewrite length_tile1.
  replace (B * T * length l =? B * T * length l * 1) with true
    by (symmetry; apply Nat.eqb_eq; lia).
  f_equal. rewrite tile1_mul.
  replace (T * length l * 1) with (length (tile1 T l))
    by (rewrite length_tile1; lia).
  rewrite chunks_tile1, map_repeat. f_equal.
  replace (length l * 1) with (length l) by lia.
  rewrite chunks_tile1, map_repeat. f_equal.
  apply chunks_singletons.
Qed.

Lemma pitch_pos_closed (time_steps : nat) (x : tensor4 F) :
  pitch_pos_in_f K time_steps x =
  Ok (repeat (repeat (map (fun i => [div (of_nat i) (of_nat (NUM_NOTES K))])
                          (seq 0 (NUM_NOTES K))) time_steps) (length x)).
Proof.
  unfold pitch_pos_in_f.
  set (l := map _ (map _ _)).
  assert (Hl : length l = NUM_NOTES K)
    by (unfold l; rewrite !length_map, length_seq; reflexivity).
  rewrite <- Hl at 1. rewrite reshape4_tile1.
  unfold l. rewrite !map_map. reflexivity.
Qed.

(** A feature that is one (N, k) matrix repeated over batch and time. *)
Lemma row4_repeat (M : tensor2 F) (B T b t i : nat) :
  b < B -> t < T ->
  row4 (repeat (repeat M T) B) b t i = nth_error M i.
Proof.
  intros Hb Ht. unfold row4, get3.
  rewrite nth_error_repeat by assumption. rewrite nth_error_repeat by assumption. reflexivity.
Qed.

Lemma pitch_pos_shape (B T : nat) :
  shape4 B T (NUM_NOTES K) 1
    (repeat (repeat (map (fun i => [div (of_nat i) (of_nat (NUM_NOTES K))])
                         (seq 0 (NUM_NOTES K))) T) B) = true.
Proof.
  apply shape4_repeat, shape3_repeat, shape2_iff. split.
  - rewrite length_map, length_seq. reflexivity.
  - apply Forall_map, Forall_forall. reflexivity.
Qed.

(** C6: the pitch-position feature has shape (B, T, NUM_NOTES, 1) and its
    entry at note index i is i / NUM_NOTES, the same for every batch
    element and every time step. *)
Theorem pitch_pos_value (time_steps : nat) (x : tensor4 F) :
  exists out,
    pitch_pos_in_f K time_steps x = Ok out /\
    shape4 (length x) time_steps (NUM_NOTES K) 1 out = true /\
    forall b t i, b < length x -> t < time_steps -> i < NUM_NOTES K ->
      row4 out b t i = Some [div (of_nat i) (of_nat (NUM_NOTES K))].
Proof.
  eexists. split; [apply pitch_pos_closed|]. split.
  - apply pitch_pos_shape.
  - intros b t i Hb Ht Hi. rewrite row4_repeat by assumption.
    rewrite nth_error_map, nth_error_seq.
    apply Nat.ltb_lt in Hi. rewrite Hi. reflexivity.
Qed.

(** ** Pitch class *)

Lemma one_hot_ok (i n : nat) :
  i < n ->
  one_hot i n = Ok (map (fun k => if k =? i then one else zero) (seq 0 n)).
Proof. intros H. unfold one_hot. apply Nat.ltb_lt in H. rewrite H. reflexivity. Qed.

Lemma reshape4_matrix (M : tensor2 F) (n k : nat) :
  shape2 n k M = true ->
  reshape4 1 1 n k (flatten2 M) = Ok [[M]].
Proof.
  intros H. apply shape2_iff in H. destruct H as [Hn Hk].
  unfold reshape4, flatten2.
  rewrite (length_concat_uniform _ _ Hk), Hn.
  replace (n * k =? 1 * 1 * n * k) with true by (symmetry; apply Nat.eqb_eq; lia).
  assert (Hlen : length (concat M) = n * k)
    by (rewrite (length_concat_uniform _ _ Hk), Hn; reflexivity).
  cbn [chunks map].
  rewrite (firstn_all2 (n := 1 * n * k)) by lia.
  rewrite firstn_all2 by lia.
  rewrite (chunks_concat_n _ _ _ Hn Hk). reflexivity.
Qed.

Lemma tile4_single (B T : nat) (M : tensor2 F) :
  tile4 B T 1 1 [[M]] = repeat (repeat M T) B.
Proof.
  unfold tile4, tile3. simpl.
  rewrite tile1_one.
  rewrite (map_ext (tile1 1) (fun v => v)) by (intros; apply tile1_one).
  rewrite map_id, !tile1_singleton. reflexivity.
Qed.

Lemma pitch_class_closed (time_steps : nat) (x : tensor4 F) :
  0 < OCTAVE K ->
  pitch_class_in_f K time_steps x =
  Ok (repeat (repeat (map (pitch_class_row K) (seq 0 (NUM_NOTES K))) time_steps) (length x)).
Proof.
  intros HO. unfold pitch_class_in_f.
  rewrite (mapM_ok_map _ (pitch_class_row K)).
  - simpl. rewrite (reshape4_matrix _ (NUM_NOTES K) (OCTAVE K)).
    + simpl. rewrite tile4_single. reflexivity.
    + apply shape2_iff. split; [now rewrite length_map, length_seq|].
      apply Forall_map, Forall_forall. intros n _.
      unfold pitch_class_row. now rewrite length_map, length_seq.
  - intros n _. unfold py_mod.
    destruct (OCTAVE K =? 0) eqn:E; [apply Nat.eqb_eq in E; lia|].
    simpl. apply one_hot_ok, Nat.mod_upper_bound. lia.
Qed.

Lemma pitch_class_shape (B T : nat) :
  shape4 B T (NUM_NOTES K) (OCTAVE K)
    (repeat (repeat (map (pitch_class_row K) (seq 0 (NUM_NOTES K))) T) B) = true.
Proof.
  apply shape4_repeat, shape3_repeat, shape2_iff. split.
  - rewrite length_map, length_seq. reflexivity.
  - apply Forall_map, Forall_forall. intros n _.
    unfold pitch_class_row. rewrite length_map, length_seq. reflexivity.
Qed.

Lemma pitch_class_row_at (B T b t i : nat) :
  b < B -> t < T -> i < NUM_NOTES K ->
  row4 (repeat (repeat (map (pitch_class_row K) (seq 0 (NUM_NOTES K))) T) B) b t i
  = Some (pitch_class_row K i).
Proof.
  intros Hb Ht Hi. rewrite row4_repeat by assumption.
  rewrite nth_error_map, nth_error_seq.
  apply Nat.ltb_lt in Hi. rewrite Hi. reflexivity.
Qed.

(** C5: the pitch-class feature has shape (B, T, NUM_NOTES, OCTAVE); its
    row at note index i is the one-hot vector of length OCTAVE with its 1 at
    position i mod OCTAVE, whatever the batch element and the time step;
    hence the rows at i and at i + OCTAVE are equal. *)
Theorem pitch_class_value (time_steps : nat) (x : tensor4 F) :
  0 < OCTAVE K ->
  exists out,
    pitch_class_in_f K time_steps x = Ok out /\
    shape4 (length x) time_steps (NUM_NOTES K) (OCTAVE K) out = true /\
    (forall b t i, b < length x -> t < time_steps -> i < NUM_NOTES K ->
       row4 out b t i = Some (pitch_class_row K i) /\
       one_hot (i mod OCTAVE K) (OCTAVE K) = Ok (pitch_class_row K i)) /\
    (forall b t i, b < length x -> t < time_steps -> i + OCTAVE K < NUM_NOTES K ->
       row4 out b t i = row4 out b t (i + OCTAVE K)).
Proof.
  intros HO. eexists. split; [apply pitch_class_closed; assumption|].
  assert (Hrow : forall b t i, b < length x -> t < time_steps -> i < NUM_NOTES K ->
            row4 (repeat (repeat (map (pitch_class_row K) (seq 0 (NUM_NOTES K)))
                                 time_steps) (length x)) b t i
            = Some (pitch_class_row K i))
    by (intros; apply pitch_class_row_at; assumption).
  split; [|split].
  - apply pitch_class_shape.
  - intros b t i Hb Ht Hi. split; [apply Hrow; assumption|].
    apply one_hot_ok, Nat.mod_upper_bound. lia.
  - intros b t i Hb Ht Hi. rewrite !Hrow by lia.
    unfold pitch_class_row.
    replace ((i + OCTAVE K) mod OCTAVE K) with (i mod OCTAVE K); [reflexivity|].
    rewrite <- (Nat.Div0.mod_add i 1 (OCTAVE K)). f_equal. lia.
Qed.

(** ** The shifted target *)

Lemma nth_error_shape {A} (P : A -> Prop) (n : nat) (x : list A) (b : nat) :
  length x = n -> Forall P x -> b < n ->
  exists xb, nth_error x b = Some xb /\ P xb.
Proof.
  intros Hn HP Hb. destruct (nth_error x b) as [xb|] eqn:E.
  - exists xb. split; [reflexivity|].
    rewrite Forall_forall in HP. apply HP. eapply nth_error_In; eassumption.
  - apply nth_error_None in E. lia.
Qed.

(** On a tensor that already has shape (B, d1, d2, c), [Reshape((d1, d2, -1))]
    changes nothing. *)
Lemma keras_reshape_id (B d1 d2 c : nat) (x : tensor4 F) :
  0 < d1 -> 0 < d2 ->
  shape4 B d1 d2 c x = true ->
  keras_reshape d1 d2 x = Ok x.
Proof.
  intros H1 H2 Hx. unfold keras_reshape.
  destruct (d1 * d2 =? 0) eqn:E; [apply Nat.eqb_eq in E; nia|].
  rewrite <- (map_id x) at 2. apply mapM_ok_map.
  intros sample Hin.
  apply shape4_iff in Hx. destruct Hx as [_ Hx].
  rewrite Forall_forall in Hx. specialize (Hx _ Hin).
  apply shape3_iff in Hx. destruct Hx as [Hlen Hrows].
  assert (Hrows' : Forall (fun r => length r = d2 * c) (map (@concat F) sample)).
  { apply Forall_map. eapply Forall_impl; [|exact Hrows].
    intros r Hr. apply shape2_iff in Hr. destruct Hr as [Hr1 Hr2].
    rewrite (length_concat_uniform _ _ Hr2), Hr1. reflexivity. }
  unfold flatten3. rewrite concat_concat_map.
  rewrite (length_concat_uniform _ _ Hrows'), length_map, Hlen.
  replace (d1 * (d2 * c)) with (c * (d1 * d2)) by lia.
  rewrite Nat.Div0.mod_mul, Nat.div_mul by lia. simpl.
  rewrite chunks_concat_n; [|rewrite length_map; assumption|assumption].
  rewrite map_map. f_equal.
  rewrite <- (map_id sample) at 2. apply map_ext_in.
  intros r Hr. rewrite Forall_forall in Hrows. specialize (Hrows _ Hr).
  apply shape2_iff in Hrows. destruct Hrows as [Hr1 Hr2].
  apply chunks_concat_n; assumption.
Qed.

Lemma length_removelast {A} (l : list A) : length (removelast l) = length l - 1.
Proof. rewrite removelast_firstn_len, length_firstn. lia. Qed.

Lemma nth_error_removelast {A} (l : list A) (j : nat) :
  j < length l - 1 -> nth_error (removelast l) j = nth_error l j.
Proof.
  intros H. rewrite removelast_firstn_len, nth_error_firstn.
  replace (j <? Init.Nat.pred (length l)) with true; [reflexivity|].
  symmetry. apply Nat.ltb_lt. lia.
Qed.

Lemma shift_chosen_closed (B time_steps : nat) (chosen : tensor4 F) :
  0 < time_steps -> 0 < NUM_NOTES K ->
  shape4 B time_steps (NUM_NOTES K) 2 chosen = true ->
  shift_chosen K time_steps chosen = Ok (map (map shift_rows) chosen) /\
  shape4 B time_steps (NUM_NOTES K) 2 (map (map shift_rows) chosen) = true.
Proof.
  intros HT HN Hx.
  assert (Hs : shape4 B time_steps (NUM_NOTES K) 2 (map (map shift_rows) chosen) = true).
  { apply shape4_iff in Hx. destruct Hx as [HB Hx].
    apply shape4_iff. split; [now rewrite length_map|].
    apply Forall_map. eapply Forall_impl; [|exact Hx].
    intros y Hy. apply shape3_iff in Hy. destruct Hy as [Hy1 Hy2].
    apply shape3_iff. split; [now rewrite length_map|].
    apply Forall_map. eapply Forall_impl; [|exact Hy2].
    intros notes Hn. apply shape2_iff in Hn. destruct Hn as [Hn1 Hn2].
    apply shape2_iff. unfold shift_rows. split.
    - cbn [repeat app length]. rewrite length_app, length_removelast.
      cbn [length]. lia.
    - simpl. constructor; [reflexivity|]. rewrite app_nil_r.
      rewrite removelast_firstn_len. apply Forall_firstn. assumption. }
  split; [|exact Hs].
  unfold shift_chosen.
  replace (pad_axis2 1 0 2 (map (map (@removelast (list F))) chosen))
    with (map (map shift_rows) chosen).
  - eapply keras_reshape_id; eassumption.
  - unfold pad_axis2. rewrite map_map. apply map_ext.
    intros y. rewrite map_map. reflexivity.
Qed.

End FeatureFacts.

Section ShiftFacts.
Context {F : Type} {SF : Scalar F}.
Variable K : constants.

Lemma dropout_inactive_zero (ph : phase) : dropout_active 0 ph = false.
Proof. reflexivity. Qed.

Lemma dropout4_zero (ph : phase) (s : site) (x : tensor4 F) :
  dropout4 0 ph s x = x.
Proof. unfold dropout4. rewrite dropout_inactive_zero. reflexivity. Qed.

Lemma dropout3_zero (ph : phase) (s : site) (x : tensor3 F) :
  dropout3 0 ph s x = x.
Proof. unfold dropout3. rewrite dropout_inactive_zero. reflexivity. Qed.

Lemma get4_rows (x : tensor4 F) (b t n c : nat) :
  get4 x b t n c =
  match row4 x b t n with
  | Some r => nth_error r c
  | None => None
  end.
Proof.
  unfold get4, row4, get3.
  destruct (nth_error x b) as [xb|]; [|reflexivity].
  destruct (nth_error xb t) as [xbt|]; [|reflexivity].
  destruct (nth_error xbt n); reflexivity.
Qed.

Lemma row4_map (f : tensor2 F -> tensor2 F) (x : tensor4 F) (b t n : nat) :
  row4 (map (map f) x) b t n =
  match nth_error x b with
  | Some xb =>
      match nth_error xb t with
      | Some notes => nth_error (f notes) n
      | None => None
      end
  | None => None
  end.
Proof.
  unfold row4, get3. rewrite nth_error_map.
  destruct (nth_error x b) as [xb|]; [|reflexivity]. simpl.
  rewrite nth_error_map.
  destruct (nth_error xb t); reflexivity.
Qed.

Lemma row4_in_shape (B T N C : nat) (x : tensor4 F) (b t n : nat) :
  shape4 B T N C x = true -> b < B -> t < T -> n < N ->
  exists xb notes r,
    nth_error x b = Some xb /\ nth_error xb t = Some notes /\
    nth_error notes n = Some r /\
    length notes = N /\ length r = C /\ row4 x b t n = Some r.
Proof.
  intros Hx Hb Ht Hn.
  apply shape4_iff in Hx. destruct Hx as [HB Hx].
  destruct (nth_error_shape _ _ _ _ HB Hx Hb) as (xb & Exb & Hxb).
  apply shape3_iff in Hxb. destruct Hxb as [HT Hxb].
  destruct (nth_error_shape _ _ _ _ HT Hxb Ht) as (notes & Ent & Hnotes).
  apply shape2_iff in Hnotes. destruct Hnotes as [HN Hnotes].
  destruct (nth_error_shape _ _ _ _ HN Hnotes Hn) as (r & Er & Hr).
  exists xb, notes, r. unfold row4, get3. rewrite Exb, Ent. repeat split; assumption.
Qed.

(** C2: with the input dropout rate 0 the shifted target, as the graph
    builds it from a (B, T, NUM_NOTES, 2) tensor, keeps that shape, is zero
    at pitch index 0 in every batch element, time step and channel, and at
    pitch index i > 0 holds the entry of the target at pitch index i - 1. *)
Theorem shift_chosen_correct (B time_steps : nat) (ph : phase) (chosen_in : tensor4 F) :
  0 < time_steps -> 0 < NUM_NOTES K ->
  shape4 B time_steps (NUM_NOTES K) 2 chosen_in = true ->
  exists shifted,
    shift_chosen K time_steps (dropout4 0 ph DChosen chosen_in) = Ok shifted /\
    shape4 B time_steps (NUM_NOTES K) 2 shifted = true /\
    (forall b t c, b < B -> t < time_steps -> c < 2 ->
       get4 shifted b t 0 c = Some zero) /\
    (forall b t i c, b < B -> t < time_steps -> 0 < i -> i < NUM_NOTES K -> c < 2 ->
       get4 shifted b t i c = get4 chosen_in b t (i - 1) c).
Proof.
  intros HT HN Hx. rewrite dropout4_zero.
  destruct (shift_chosen_closed K B time_steps chosen_in HT HN Hx) as [Hs Hshape].
  exists (map (map shift_rows) chosen_in).
  split; [exact Hs|]. split; [exact Hshape|]. split.
  - intros b t c Hb Ht Hc.
    destruct (row4_in_shape _ _ _ _ _ _ _ _ Hx Hb Ht HN) as (xb & notes & r & Exb & Ent & _).
    rewrite get4_rows, row4_map, Exb, Ent. simpl.
    destruct c as [|[|c]]; [reflexivity|reflexivity|lia].
  - intros b t i c Hb Ht Hi HiN Hc.
    destruct i as [|j]; [lia|].
    assert (Hj : j < NUM_NOTES K) by lia.
    destruct (row4_in_shape _ _ _ _ _ _ _ _ Hx Hb Ht Hj)
      as (xb & notes & r & Exb & Ent & Er & Hlen & _ & Erow).
    rewrite !get4_rows, row4_map, Exb, Ent.
    replace (S j - 1) with j by lia. rewrite Erow.
    unfold shift_rows. cbn [repeat app nth_error].
    rewrite app_nil_r, nth_error_removelast by lia.
    rewrite Er. reflexivity.
Qed.

End ShiftFacts.

(** ** Pitch bins *)

Lemma length_take_every {A} (step : nat) (l : list A) :
  0 < step ->
  forall c,
    length (take_every step c l) =
    if length l <=? c then 0 else S ((length l - c - 1) / step).
Proof.
  intros Hs. induction l as [|a l IH]; intros c; [reflexivity|].
  destruct c as [|c]; cbn [take_every length].
  - rewrite IH. replace (S (length l) - 0 - 1) with (length l) by lia.
    cbn [Nat.leb]. f_equal.
    destruct (length l <=? step - 1) eqn:E.
    + apply Nat.leb_le in E. symmetry. apply Nat.div_small. lia.
    + apply Nat.leb_gt in E.
      replace (length l) with ((length l - step) + 1 * step) at 2 by lia.
      rewrite Nat.div_add by lia.
      replace (length l - (step - 1) - 1) with (length l - step) by lia. lia.
  - rewrite IH. cbn [Nat.leb]. reflexivity.
Qed.

(** On a whole number of octaves every strided slice has one length. *)
Lemma length_take_every_whole {A} (step q i : nat) (l : list A) :
  i < step -> length l = q * step -> length (take_every step i l) = q.
Proof.
  intros Hi Hl. rewrite length_take_every by lia.
  destruct (length l <=? i) eqn:E.
  - apply Nat.leb_le in E. destruct q; [reflexivity|]. nia.
  - apply Nat.leb_gt in E. destruct q as [|q]; [nia|]. f_equal.
    symmetry. apply (Nat.div_unique _ _ q (step - 1 - i)); nia.
Qed.

Lemma In_take_every {A} (step : nat) (l : list A) (a : A) :
  forall c, In a (take_every step c l) -> In a l.
Proof.
  induction l as [|b l IH]; intros c H; [exact H|].
  destruct c as [|c]; cbn [take_every] in H.
  - destruct H as [H|H]; [left; exact H|right; eapply IH; exact H].
  - right. eapply IH; exact H.
Qed.

Lemma same_shape_true {A B} (f : A -> B -> bool) (l1 : list A) (l2 : list B) :
  length l1 = length l2 ->
  (forall a b, In a l1 -> In b l2 -> f a b = true) ->
  same_shape f l1 l2 = true.
Proof.
  revert l2. induction l1 as [|a l1 IH]; intros [|b l2] Hlen Hf;
    simpl in *; try discriminate; [reflexivity|].
  rewrite Hf by (left; reflexivity). simpl. apply IH; [lia|].
  intros; apply Hf; right; assumption.
Qed.

Lemma same_shape3_of_shape {F} (n m k : nat) (a b : tensor3 F) :
  shape3 n m k a = true -> shape3 n m k b = true -> same_shape3 a b = true.
Proof.
  intros Ha Hb.
  apply shape3_iff in Ha. destruct Ha as [Ha1 Ha2].
  apply shape3_iff in Hb. destruct Hb as [Hb1 Hb2].
  rewrite Forall_forall in Ha2, Hb2.
  apply same_shape_true; [lia|]. intros ya yb Hya Hyb.
  specialize (Ha2 _ Hya). specialize (Hb2 _ Hyb).
  apply shape2_iff in Ha2. destruct Ha2 as [Ha3 Ha4].
  apply shape2_iff in Hb2. destruct Hb2 as [Hb3 Hb4].
  rewrite Forall_forall in Ha4, Hb4.
  apply same_shape_true; [lia|]. intros va vb Hva Hvb.
  unfold same_shape1. apply Nat.eqb_eq.
  rewrite (Ha4 _ Hva), (Hb4 _ Hvb). reflexivity.
Qed.

Lemma forallb_false {A} (f : A -> bool) (l : list A) (a : A) :
  In a l -> f a = false -> forallb f l = false.
Proof.
  intros Hin Hf. destruct (forallb f l) eqn:E; [|reflexivity].
  rewrite forallb_forall in E. rewrite (E a Hin) in Hf. discriminate.
Qed.

Lemma Forall_tile1 {A} (P : A -> Prop) (m : nat) (l : list A) :
  Forall P l -> Forall P (tile1 m l).
Proof.
  intros H. unfold tile1. induction m; simpl; [constructor|].
  apply Forall_app. split; assumption.
Qed.

Lemma tile3_axis0 {F} (m : nat) (x : tensor3 F) : tile3 m 1 1 x = tile1 m x.
Proof.
  unfold tile3. f_equal.
  rewrite <- (map_id x) at 2. apply map_ext. intros r.
  rewrite tile1_one.
  rewrite <- (map_id r) at 2. apply map_ext. intros v. apply tile1_one.
Qed.

Lemma length_flatten3 {F} (n m k : nat) (x : tensor3 F) :
  shape3 n m k x = true -> length (flatten3 x) = n * m * k.
Proof.
  intros H. apply shape3_iff in H. destruct H as [Hn Hx].
  unfold flatten3. rewrite concat_concat_map.
  rewrite (length_concat_uniform (m * k)).
  - rewrite length_map, Hn. lia.
  - apply Forall_map. eapply Forall_impl; [|exact Hx].
    intros y Hy. apply shape2_iff in Hy. destruct Hy as [Hy1 Hy2].
    rewrite (length_concat_uniform _ _ Hy2), Hy1. reflexivity.
Qed.

Lemma reshape4_shape {F} (d0 d1 d2 d3 : nat) (flat : list F) (out : tensor4 F) :
  reshape4 d0 d1 d2 d3 flat = Ok out -> shape4 d0 d1 d2 d3 out = true.
Proof.
  unfold reshape4. destruct (length flat =? d0 * d1 * d2 * d3) eqn:E; [|discriminate].
  apply Nat.eqb_eq in E. intros H. injection H as <-.
  apply shape4_iff. split; [rewrite length_map; apply length_chunks|].
  apply Forall_map.
  eapply Forall_impl; [|apply (chunks_lengths d0 (d1 * d2 * d3)); lia].
  intros s Hs. cbv beta in Hs.
  apply shape3_iff. split; [rewrite length_map; apply length_chunks|].
  apply Forall_map.
  eapply Forall_impl; [|apply (chunks_lengths d1 (d2 * d3)); lia].
  intros r Hr. cbv beta in Hr.
  apply shape2_iff. split; [apply length_chunks|].
  apply chunks_lengths. lia.
Qed.

Lemma reshape4_ok {F} (d0 d1 d2 d3 : nat) (flat : list F) :
  length flat = d0 * d1 * d2 * d3 ->
  exists out, reshape4 d0 d1 d2 d3 flat = Ok out /\ shape4 d0 d1 d2 d3 out = true.
Proof.
  intros H. destruct (reshape4 d0 d1 d2 d3 flat) as [out|e] eqn:E.
  - exists out. split; [reflexivity|]. eapply reshape4_shape; eassumption.
  - unfold reshape4 in E. apply Nat.eqb_eq in H. rewrite H in E. discriminate.
Qed.

Section BinsFacts.
Context {F : Type} {SF : Scalar F}.
Variable K : constants.

Lemma octave_slice_closed (B T N C : nat) (x : tensor4 F) (i : nat) :
  0 < C -> shape4 B T N C x = true ->
  octave_slice K i x = Ok (played_slice K i x).
Proof.
  intros HC Hx. apply shape4_iff in Hx. destruct Hx as [_ Hx].
  rewrite Forall_forall in Hx.
  unfold octave_slice, played_slice.
  apply mapM_ok_map. intros xb Hxb. specialize (Hx _ Hxb).
  apply shape3_iff in Hx. destruct Hx as [_ Hx]. rewrite Forall_forall in Hx.
  apply mapM_ok_map. intros notes Hnotes. specialize (Hx _ Hnotes).
  apply shape2_iff in Hx. destruct Hx as [_ Hx]. rewrite Forall_forall in Hx.
  apply mapM_ok_map. intros v Hv. apply In_take_every in Hv.
  specialize (Hx _ Hv). destruct v; [simpl in Hx; lia|reflexivity].
Qed.

Lemma played_slice_shape (B T N C q : nat) (x : tensor4 F) (i : nat) :
  shape4 B T N C x = true -> i < OCTAVE K -> N = q * OCTAVE K ->
  shape3 B T q (played_slice K i x) = true.
Proof.
  intros Hx Hi HN. apply shape4_iff in Hx. destruct Hx as [HB Hx].
  unfold played_slice. apply shape3_iff. split; [now rewrite length_map|].
  apply Forall_map. eapply Forall_impl; [|exact Hx].
  intros xb Hxb. apply shape3_iff in Hxb. destruct Hxb as [HT Hxb].
  apply shape2_iff. split; [now rewrite length_map|].
  apply Forall_map. eapply Forall_impl; [|exact Hxb].
  intros notes Hn. apply shape2_iff in Hn. destruct Hn as [Hlen _].
  rewrite length_map. apply length_take_every_whole; [assumption|lia].
Qed.

Lemma reduce_sum3_shape (n m k : nat) (x : tensor4 F) :
  shape3 n m k x = true -> shape3 n m k (reduce_sum3 x) = true.
Proof.
  intros Hx. apply shape3_iff in Hx. destruct Hx as [Hn Hx].
  unfold reduce_sum3. apply shape3_iff. split; [now rewrite length_map|].
  apply Forall_map. eapply Forall_impl; [|exact Hx].
  intros y Hy. apply shape2_iff in Hy. destruct Hy as [Hm Hy].
  apply shape2_iff. split; [now rewrite length_map|].
  apply Forall_map. eapply Forall_impl; [|exact Hy].
  intros v Hv. rewrite length_map. exact Hv.
Qed.

Lemma slices_ok (B T N C : nat) (x : tensor4 F) :
  0 < C -> shape4 B T N C x = true ->
  mapM (fun i => octave_slice K i x) (seq 0 (OCTAVE K)) =
  Ok (map (fun i => played_slice K i x) (seq 0 (OCTAVE K))).
Proof.
  intros HC Hx. apply mapM_ok_map. intros i _.
  eapply octave_slice_closed; eassumption.
Qed.

(** On a whole number of octaves the declared slices have one length, and
    packing compares the values only. *)
Lemma pack_slices_whole (q : nat) (slices : list (tensor3 F)) :
  NUM_NOTES K = q * OCTAVE K -> pack_slices K slices = stack slices.
Proof.
  intros HN. unfold pack_slices.
  replace (forallb _ _) with true; [reflexivity|].
  symmetry. apply forallb_forall. intros i Hi. apply in_seq in Hi.
  apply Nat.eqb_eq. unfold slice_notes.
  rewrite !(length_take_every_whole (OCTAVE K) q); try reflexivity;
    try (rewrite length_seq; exact HN); lia.
Qed.

(** When the notes do not fill a whole number of octaves the declared slices
    have two different lengths and are never packed. *)
Lemma pack_slices_ragged (slices : list (tensor3 F)) :
  0 < OCTAVE K -> NUM_NOTES K mod OCTAVE K <> 0 ->
  pack_slices K slices = Err ShapeMismatch.
Proof.
  intros HO Hmod. unfold pack_slices.
  pose proof (Nat.div_mod_eq (NUM_NOTES K) (OCTAVE K)) as Hdm.
  pose proof (Nat.mod_upper_bound (NUM_NOTES K) (OCTAVE K) ltac:(lia)) as Hr.
  set (q := NUM_NOTES K / OCTAVE K) in *.
  set (r := NUM_NOTES K mod OCTAVE K) in *.
  rewrite (forallb_false _ _ (OCTAVE K - 1)); [reflexivity| |].
  - apply in_seq. lia.
  - apply Nat.eqb_neq. unfold slice_notes.
    rewrite !length_take_every by lia. rewrite length_seq.
    replace (NUM_NOTES K <=? 0) with false by (symmetry; apply Nat.leb_gt; lia).
    replace ((NUM_NOTES K - 0 - 1) / OCTAVE K) with q
      by (apply (Nat.div_unique _ _ q (r - 1)); lia).
    destruct (NUM_NOTES K <=? OCTAVE K - 1) eqn:E; [lia|].
    apply Nat.leb_gt in E.
    destruct q as [|q']; [lia|].
    replace ((NUM_NOTES K - (OCTAVE K - 1) - 1) / OCTAVE K) with q'
      by (apply (Nat.div_unique _ _ q' r); lia).
    lia.
Qed.

(** On a whole number of octaves the pitch-bins feature is built and has
    shape (B, T, NUM_NOTES, 1). *)
Lemma pitch_bins_ok (B T C : nat) (x : tensor4 F) :
  0 < OCTAVE K -> NUM_NOTES K = NUM_OCTAVES K * OCTAVE K -> 0 < C ->
  shape4 B T (NUM_NOTES K) C x = true ->
  exists out,
    pitch_bins_f K T x = Ok out /\ shape4 B T (NUM_NOTES K) 1 out = true.
Proof.
  intros HO HN HC Hx. unfold pitch_bins_f.
  rewrite (slices_ok B T _ C x HC Hx). cbn [bind].
  rewrite (pack_slices_whole (NUM_OCTAVES K)) by exact HN.
  assert (Hsl : forall i, i < OCTAVE K ->
            shape3 B T (NUM_OCTAVES K) (played_slice K i x) = true).
  { intros i Hi. eapply played_slice_shape; eassumption. }
  assert (Hst : stack (map (fun i => played_slice K i x) (seq 0 (OCTAVE K))) =
                Ok (map (fun i => played_slice K i x) (seq 0 (OCTAVE K)))).
  { destruct (OCTAVE K) as [|o] eqn:EO; [lia|].
    cbn [seq map stack].
    replace (forallb _ _) with true; [reflexivity|].
    symmetry. apply forallb_forall. intros s Hs.
    apply in_map_iff in Hs. destruct Hs as (i & <- & Hi).
    apply in_seq in Hi.
    apply (same_shape3_of_shape B T (NUM_OCTAVES K)); apply Hsl; lia. }
  rewrite Hst. cbn [bind]. rewrite tile3_axis0.
  assert (Hb : shape3 (OCTAVE K) B T
                 (reduce_sum3 (map (fun i => played_slice K i x) (seq 0 (OCTAVE K))))
               = true).
  { apply reduce_sum3_shape, shape3_iff.
    split; [now rewrite length_map, length_seq|].
    apply Forall_map, Forall_forall. intros i Hi. apply in_seq in Hi.
    specialize (Hsl i ltac:(lia)).
    apply shape3_iff in Hsl. destruct Hsl as [Hl Hrows].
    apply shape2_iff. split; [exact Hl|].
    eapply Forall_impl; [|exact Hrows].
    intros y Hy. apply shape2_iff in Hy. tauto. }
  assert (HB : length x = B) by (apply shape4_iff in Hx; tauto).
  rewrite HB. apply reshape4_ok.
  rewrite (length_flatten3 (NUM_OCTAVES K * OCTAVE K) B T).
  - rewrite HN. lia.
  - apply shape3_iff in Hb. destruct Hb as [Hb1 Hb2].
    apply shape3_iff. split.
    + rewrite length_tile1, Hb1. reflexivity.
    + apply Forall_tile1. exact Hb2.
Qed.

(** When the notes do not fill a whole number of octaves, the strided
    slices have two different lengths and cannot be packed, whatever the
    batch and the window. *)
Lemma pitch_bins_ragged (B T C : nat) (x : tensor4 F) :
  0 < OCTAVE K -> NUM_NOTES K mod OCTAVE K <> 0 ->
  0 < C ->
  shape4 B T (NUM_NOTES K) C x = true ->
  pitch_bins_f K T x = Err ShapeMismatch.
Proof.
  intros HO Hmod HC Hx. unfold pitch_bins_f.
  rewrite (slices_ok B T _ C x HC Hx). cbn [bind].
  rewrite pack_slices_ragged by assumption. reflexivity.
Qed.

End BinsFacts.

(** ** Shapes through the layers *)

Lemma length_map2 {A B C} (f : A -> B -> C) (l1 : list A) (l2 : list B) :
  length (map2 f l1 l2) = Nat.min (length l1) (length l2).
Proof.
  revert l2. induction l1 as [|a l1 IH]; intros [|b l2]; simpl; try reflexivity.
  now rewrite IH.
Qed.

Lemma Forall_map2 {A B C} (P : C -> Prop) (f : A -> B -> C) (l1 : list A) (l2 : list B) :
  (forall a b, In a l1 -> In b l2 -> P (f a b)) -> Forall P (map2 f l1 l2).
Proof.
  revert l2. induction l1 as [|a l1 IH]; intros [|b l2] H; simpl; try constructor.
  - apply H; left; reflexivity.
  - apply IH. intros; apply H; right; assumption.
Qed.

Lemma length_mapi_from {A B} (f : nat -> A -> B) (l : list A) (s : nat) :
  length (mapi_from s f l) = length l.
Proof. revert s. induction l; intros; simpl; [reflexivity|]. now rewrite IHl. Qed.

Lemma length_mapi {A B} (f : nat -> A -> B) (l : list A) : length (mapi f l) = length l.
Proof. apply length_mapi_from. Qed.

Lemma Forall_mapi_from {A B} (P : B -> Prop) (f : nat -> A -> B) (l : list A) (s : nat) :
  (forall i a, In a l -> P (f i a)) -> Forall P (mapi_from s f l).
Proof.
  revert s. induction l as [|a l IH]; intros s H; simpl; constructor.
  - apply H. left. reflexivity.
  - apply IH. intros; apply H; right; assumption.
Qed.

Lemma Forall_mapi {A B} (P : B -> Prop) (f : nat -> A -> B) (l : list A) :
  (forall i a, In a l -> P (f i a)) -> Forall P (mapi f l).
Proof. apply Forall_mapi_from. Qed.

Lemma shape2_In {A} (n m : nat) (x : list (list A)) (v : list A) :
  shape2 n m x = true -> In v x -> length v = m.
Proof.
  intros H Hin. apply shape2_iff in H. destruct H as [_ H].
  rewrite Forall_forall in H. auto.
Qed.

Lemma shape3_In {A} (n m k : nat) (x : list (list (list A))) (y : list (list A)) :
  shape3 n m k x = true -> In y x -> shape2 m k y = true.
Proof.
  intros H Hin. apply shape3_iff in H. destruct H as [_ H].
  rewrite Forall_forall in H. auto.
Qed.

Lemma shape2_length {A} (n m : nat) (x : list (list A)) :
  shape2 n m x = true -> length x = n.
Proof. intros H. apply shape2_iff in H. tauto. Qed.

Lemma shape3_length {A} (n m k : nat) (x : list (list (list A))) :
  shape3 n m k x = true -> length x = n.
Proof. intros H. apply shape3_iff in H. tauto. Qed.

Lemma shape2_intro {A} (n m : nat) (x : list (list A)) :
  length x = n -> (forall v, In v x -> length v = m) -> shape2 n m x = true.
Proof. intros H1 H2. apply shape2_iff. rewrite Forall_forall. auto. Qed.

Lemma shape3_intro {A} (n m k : nat) (x : list (list (list A))) :
  length x = n -> (forall y, In y x -> shape2 m k y = true) -> shape3 n m k x = true.
Proof. intros H1 H2. apply shape3_iff. rewrite Forall_forall. auto. Qed.

(** The first three sizes of a rank-4 shape. *)
Lemma shape4_prefix {A} (n m k c : nat) (x : list (list (list (list A)))) :
  shape4 n m k c x = true -> shape3 n m k x = true.
Proof.
  intros H. apply shape4_iff in H. destruct H as [Hn H].
  rewrite Forall_forall in H.
  apply shape3_intro; [assumption|]. intros y Hy. specialize (H _ Hy).
  apply shape2_intro; [eapply shape3_length; eassumption|].
  intros v Hv. eapply shape2_length, shape3_In; eassumption.
Qed.

Lemma shape3_prefix {A} (n m k : nat) (x : list (list (list A))) :
  shape3 n m k x = true -> shape2 n m x = true.
Proof.
  intros H. apply shape2_intro; [eapply shape3_length; eassumption|].
  intros y Hy. eapply shape2_length, shape3_In; eassumption.
Qed.

Lemma shape2_map {A B} (f : A -> B) (n m : nat) (x : list (list A)) :
  shape2 n m x = true -> shape2 n m (map (map f) x) = true.
Proof.
  intros H. apply shape2_intro.
  - rewrite length_map. eapply shape2_length; eassumption.
  - intros v Hv. apply in_map_iff in Hv. destruct Hv as (u & <- & Hu).
    rewrite length_map. eapply shape2_In; eassumption.
Qed.

Lemma shape3_map {A B} (f : A -> B) (n m k : nat) (x : list (list (list A))) :
  shape3 n m k x = true -> shape3 n m k (map (map (map f)) x) = true.
Proof.
  intros H. apply shape3_intro.
  - rewrite length_map. eapply shape3_length; eassumption.
  - intros y Hy. apply in_map_iff in Hy. destruct Hy as (u & <- & Hu).
    apply shape2_map. eapply shape3_In; eassumption.
Qed.

Lemma shape2_map2 {A B C} (f : A -> B -> C) (n m : nat)
      (x : list (list A)) (y : list (list B)) :
  shape2 n m x = true -> shape2 n m y = true ->
  shape2 n m (map2 (map2 f) x y) = true.
Proof.
  intros Hx Hy. apply shape2_iff. split.
  - rewrite length_map2, (shape2_length _ _ _ Hx), (shape2_length _ _ _ Hy). lia.
  - apply Forall_map2. intros a b Ha Hb.
    rewrite length_map2, (shape2_In _ _ _ _ Hx Ha), (shape2_In _ _ _ _ Hy Hb). lia.
Qed.

Lemma shape3_map2 {A B C} (f : A -> B -> C) (n m k : nat)
      (x : list (list (list A))) (y : list (list (list B))) :
  shape3 n m k x = true -> shape3 n m k y = true ->
  shape3 n m k (map2 (map2 (map2 f)) x y) = true.
Proof.
  intros Hx Hy. apply shape3_iff. split.
  - rewrite length_map2, (shape3_length _ _ _ _ Hx), (shape3_length _ _ _ _ Hy). lia.
  - apply Forall_map2. intros a b Ha Hb.
    apply shape2_map2; eapply shape3_In; eassumption.
Qed.

Lemma shape2_mapi {A B} (g : nat -> nat -> A -> B) (n m : nat) (x : list (list A)) :
  shape2 n m x = true ->
  shape2 n m (mapi (fun b => mapi (fun t => g b t)) x) = true.
Proof.
  intros H. apply shape2_iff. split.
  - rewrite length_mapi. eapply shape2_length; eassumption.
  - apply Forall_mapi. intros i a Ha. rewrite length_mapi.
    eapply shape2_In; eassumption.
Qed.

Lemma shape3_mapi {A B} (g : nat -> nat -> nat -> A -> B) (n m k : nat)
      (x : list (list (list A))) :
  shape3 n m k x = true ->
  shape3 n m k (mapi (fun b => mapi (fun t => mapi (fun i => g b t i))) x) = true.
Proof.
  intros H. apply shape3_iff. split.
  - rewrite length_mapi. eapply shape3_length; eassumption.
  - apply Forall_mapi. intros i a Ha.
    apply (shape2_mapi (fun t j => g i t j)). eapply shape3_In; eassumption.
Qed.

Lemma transpose_shape {A} (r c : nat) (m : list (list A)) :
  shape2 r c m = true -> shape2 c r (transpose c m) = true.
Proof.
  revert r. induction m as [|row m IH]; intros r H.
  - apply shape2_length in H. simpl in H. subst r. simpl.
    apply shape2_repeat. reflexivity.
  - pose proof (shape2_length _ _ _ H) as Hlen. simpl in Hlen.
    destruct r as [|r]; [discriminate|].
    assert (Hrow : length row = c) by (eapply shape2_In; [exact H|left; reflexivity]).
    assert (Hm : shape2 r c m = true).
    { apply shape2_intro; [lia|]. intros v Hv.
      eapply shape2_In; [exact H|right; exact Hv]. }
    specialize (IH r Hm). simpl. apply shape2_iff. split.
    + rewrite length_map2, Hrow, (shape2_length _ _ _ IH). lia.
    + apply Forall_map2. intros a b _ Hb. simpl.
      rewrite (shape2_In _ _ _ _ IH Hb). reflexivity.
Qed.

Lemma permute213_shape {A} (n r c : nat) (x : list (list (list A))) :
  shape3 n r c x = true -> shape3 n c r (permute213 c x) = true.
Proof.
  intros H. unfold permute213. apply shape3_intro.
  - rewrite length_map. eapply shape3_length; eassumption.
  - intros y Hy. apply in_map_iff in Hy. destruct Hy as (u & <- & Hu).
    apply transpose_shape. eapply shape3_In; eassumption.
Qed.

Lemma shape3_map_rows {A B} (f : list A -> list B) (n m k : nat)
      (x : list (list (list A))) :
  (forall l, length (f l) = length l) ->
  shape3 n m k x = true -> shape3 n m k (map (map f) x) = true.
Proof.
  intros Hf H. apply shape3_intro.
  - rewrite length_map. eapply shape3_length; eassumption.
  - intros y Hy. apply in_map_iff in Hy. destruct Hy as (u & <- & Hu).
    pose proof (shape3_In _ _ _ _ _ H Hu) as Hs.
    apply shape2_intro.
    + rewrite length_map. eapply shape2_length; eassumption.
    + intros v Hv. apply in_map_iff in Hv. destruct Hv as (l & <- & Hl).
      rewrite Hf. eapply shape2_In; eassumption.
Qed.

Lemma fold_left_invariant {A B} (P : A -> Prop) (f : A -> B -> A) (l : list B) (a : A) :
  P a -> (forall a b, P a -> P (f a b)) -> P (fold_left f l a).
Proof.
  intros Ha Hf. revert a Ha. induction l as [|b l IH]; intros a Ha; simpl; auto.
Qed.

Section LayerFacts.
Context {F : Type} {SF : Scalar F} {AF : Activations F}.

Lemma dropout3_shape (rate : Q) (ph : phase) (s : site) (n m : nat) (x : tensor3 F) :
  shape2 n m x = true -> shape2 n m (dropout3 rate ph s x) = true.
Proof.
  intros H. unfold dropout3. destruct (dropout_active rate ph); [|exact H].
  apply (shape2_mapi (fun b t => mapi (fun k => drop rate (keep ph s [b; t; k])))).
  exact H.
Qed.

Lemma dropout4_shape (rate : Q) (ph : phase) (s : site) (n m k : nat) (x : tensor4 F) :
  shape3 n m k x = true -> shape3 n m k (dropout4 rate ph s x) = true.
Proof.
  intros H. unfold dropout4. destruct (dropout_active rate ph); [|exact H].
  apply (shape3_mapi
           (fun b t i => mapi (fun c => drop rate (keep ph s [b; t; i; c])))).
  exact H.
Qed.

Lemma dense3_shape (units : nat) (w : dense_w F) (n m : nat) (x : tensor3 F) :
  shape2 n m x = true -> shape2 n m (dense3 units w x) = true.
Proof. apply shape2_map. Qed.

Lemma length_dense (units : nat) (w : dense_w F) (x : list F) :
  length (dense units w x) = units.
Proof. unfold dense. rewrite length_map, length_seq. reflexivity. Qed.

Lemma length_lstm_run (units : nat) (w : lstm_w F) (xs : tensor2 F) :
  forall hc, length (lstm_run units w hc xs) = length xs.
Proof.
  induction xs as [|x xs IH]; intros hc; simpl; [reflexivity|].
  now rewrite IH.
Qed.

Lemma length_lstm (units : nat) (w : lstm_w F) (xs : tensor2 F) :
  length (lstm units w xs) = length xs.
Proof. apply length_lstm_run. Qed.

Lemma length_conv1d_same (filters ksize channels : nat) (w : conv_w F) (x : tensor2 F) :
  length (conv1d_same filters ksize channels w x) = length x.
Proof. unfold conv1d_same. rewrite length_map, length_seq. reflexivity. Qed.

Lemma repeat_vector_shape (n m k : nat) (x : tensor3 F) :
  shape2 n m x = true -> shape3 n m k (repeat_vector k x) = true.
Proof.
  intros H. unfold repeat_vector, time_distributed. apply shape3_intro.
  - rewrite length_map. eapply shape2_length; eassumption.
  - intros y Hy. apply in_map_iff in Hy. destruct Hy as (u & <- & Hu).
    apply shape2_intro.
    + rewrite length_map. eapply shape2_In; eassumption.
    + intros v Hv. apply in_map_iff in Hv. destruct Hv as (r & <- & _).
      apply repeat_length.
Qed.

Lemma add4_shape (n m k : nat) (x y : tensor4 F) :
  shape3 n m k x = true -> shape3 n m k y = true ->
  shape3 n m k (add4 x y) = true.
Proof. apply shape3_map2. Qed.

Lemma concat4_shape (n m k : nat) (x y : tensor4 F) :
  shape3 n m k x = true -> shape3 n m k y = true ->
  shape3 n m k (concat4 x y) = true.
Proof. apply shape3_map2. Qed.

Variable K : constants.
Variable time_steps : nat.
Variables input_dropout dropout : Q.
Variable W : weights F.
Variable ph : phase.

Lemma style_embedding_shape (B S : nat) (style_in : tensor3 F) :
  shape3 B time_steps S style_in = true ->
  shape2 B time_steps (style_embedding K input_dropout dropout W ph style_in) = true.
Proof.
  intros H. unfold style_embedding.
  apply dropout3_shape, dense3_shape, dropout3_shape.
  eapply shape3_prefix; eassumption.
Qed.

Lemma beat_embedding_shape (B C : nat) (beat_in : tensor3 F) :
  shape3 B time_steps C beat_in = true ->
  shape2 B time_steps (beat_embedding K input_dropout dropout W ph beat_in) = true.
Proof.
  intros H. unfold beat_embedding.
  apply dropout3_shape. unfold map3. apply shape2_map.
  apply dense3_shape, dropout3_shape.
  eapply shape3_prefix; eassumption.
Qed.

Lemma note_octave_shape (B N : nat) (notes : tensor4 F) :
  shape3 B time_steps N notes = true ->
  shape3 B time_steps N (note_octave K dropout W ph notes) = true.
Proof.
  intros H. unfold note_octave.
  apply dropout4_shape. unfold map4.
  apply (shape3_map (map tanh)).
  unfold time_distributed. apply shape3_map_rows; [|exact H].
  intros l. apply length_conv1d_same.
Qed.

Lemma style_proj_shape (B width : nat) (w : dense_w F) (s : site) (style : tensor3 F) :
  shape2 B time_steps style = true ->
  shape3 B time_steps (NUM_NOTES K) (style_proj K dropout ph width w s style) = true.
Proof.
  intros H. unfold style_proj.
  apply repeat_vector_shape, dropout3_shape. unfold map3.
  apply shape2_map, dense3_shape. exact H.
Qed.

Lemma time_layer_shape (B : nat) (style : tensor3 F) (st : tensor4 F * nat) (l : nat) :
  shape2 B time_steps style = true ->
  shape3 B (NUM_NOTES K) time_steps (fst st) = true ->
  shape3 B (NUM_NOTES K) time_steps (fst (time_layer K dropout W ph style st l)) = true.
Proof.
  intros Hs Hx. unfold time_layer. cbn [fst].
  apply dropout4_shape. unfold time_distributed.
  apply shape3_map_rows; [intros; apply length_lstm|].
  apply add4_shape; [exact Hx|].
  apply permute213_shape, style_proj_shape. exact Hs.
Qed.

Lemma note_layer_shape (B : nat) (style : tensor3 F) (st : tensor4 F * nat) (l : nat) :
  shape2 B time_steps style = true ->
  shape3 B time_steps (NUM_NOTES K) (fst st) = true ->
  shape3 B time_steps (NUM_NOTES K) (fst (note_layer K dropout W ph style st l)) = true.
Proof.
  intros Hs Hx. unfold note_layer. cbn [fst].
  apply dropout4_shape. unfold time_distributed.
  apply shape3_map_rows; [intros; apply length_lstm|].
  apply add4_shape; [exact Hx|].
  apply style_proj_shape. exact Hs.
Qed.

End LayerFacts.

Section ForwardFacts.
Context {F : Type} {SF : Scalar F} {AF : Activations F}.

Lemma dropout4_shape4 (rate : Q) (ph : phase) (s : site) (n m k c : nat) (x : tensor4 F) :
  shape4 n m k c x = true -> shape4 n m k c (dropout4 rate ph s x) = true.
Proof.
  intros H. unfold dropout4. destruct (dropout_active rate ph); [|exact H].
  apply shape4_iff in H. destruct H as [Hn H]. rewrite Forall_forall in H.
  apply shape4_iff. split; [rewrite length_mapi; exact Hn|].
  apply Forall_mapi. intros b y Hy. specialize (H _ Hy).
  apply shape3_iff in H. destruct H as [Hm H]. rewrite Forall_forall in H.
  apply shape3_iff. split; [rewrite length_mapi; exact Hm|].
  apply Forall_mapi. intros t z Hz. specialize (H _ Hz).
  apply shape2_iff in H. destruct H as [Hk H]. rewrite Forall_forall in H.
  apply shape2_iff. split; [rewrite length_mapi; exact Hk|].
  apply Forall_mapi. intros i r Hr. rewrite length_mapi. auto.
Qed.

Variable K : constants.
Variable time_steps : nat.
Variables input_dropout dropout : Q.
Variable W : weights F.
Variable ph : phase.

Lemma note_features_ok (B : nat) (notes : tensor4 F) (beat : tensor3 F) :
  valid_constants K time_steps ->
  shape4 B time_steps (NUM_NOTES K) 2 notes = true ->
  shape2 B time_steps beat = true ->
  exists features,
    note_features K time_steps dropout W ph notes beat = Ok features /\
    shape3 B time_steps (NUM_NOTES K) features = true.
Proof.
  intros (HT & HO & HN & Hdiv) Hnotes Hbeat. unfold note_features.
  destruct (pitch_bins_ok K B time_steps 2 notes HO Hdiv ltac:(lia) Hnotes)
    as (bins & Ebins & Hbins).
  rewrite pitch_pos_closed, (pitch_class_closed K _ _ HO), Ebins.
  cbn [bind]. eexists. split; [reflexivity|].
  assert (HB : length notes = B) by (apply shape4_iff in Hnotes; tauto).
  rewrite HB.
  repeat apply concat4_shape.
  - eapply shape4_prefix. apply pitch_pos_shape.
  - eapply shape4_prefix. apply pitch_class_shape.
  - eapply shape4_prefix; eassumption.
  - apply note_octave_shape. eapply shape4_prefix; eassumption.
  - apply repeat_vector_shape. exact Hbeat.
Qed.

(** On valid inputs the graph is built without failure, and [notes_out] is
    the sigmoid of the 2-unit Dense layer on a (B, T, N, _) tensor. *)
Lemma forward_ok (B : nat) (notes_in chosen_in : tensor4 F) (beat_in style_in : tensor3 F) :
  valid_constants K time_steps ->
  shape4 B time_steps (NUM_NOTES K) 2 notes_in = true ->
  shape4 B time_steps (NUM_NOTES K) 2 chosen_in = true ->
  shape3 B time_steps 2 beat_in = true ->
  shape3 B time_steps (NUM_STYLES K) style_in = true ->
  exists x,
    shape3 B time_steps (NUM_NOTES K) x = true /\
    forward K time_steps input_dropout dropout W ph notes_in chosen_in beat_in style_in
    = Ok (map4 sigmoid (dense4 2 (w_out W) x)).
Proof.
  intros Hv Hnotes Hchosen Hbeat Hstyle. unfold forward.
  pose proof (style_embedding_shape K time_steps input_dropout dropout W ph
                B _ style_in Hstyle) as Hs.
  pose proof (beat_embedding_shape K time_steps input_dropout dropout W ph
                B _ beat_in Hbeat) as Hb.
  destruct (note_features_ok B _ _ Hv
              (dropout4_shape4 input_dropout ph DNotes _ _ _ _ _ Hnotes) Hb)
    as (features & Ef & Hf).
  rewrite Ef. cbn [bind].
  destruct Hv as (HT & HO & HN & Hdiv).
  destruct (shift_chosen_closed K B time_steps _ HT HN
              (dropout4_shape4 input_dropout ph DChosen _ _ _ _ _ Hchosen))
    as [Eshift Hshift].
  rewrite Eshift. cbn [bind].
  eexists. split; [|reflexivity].
  apply (fold_left_invariant
           (fun st => shape3 B time_steps (NUM_NOTES K) (fst st) = true)).
  - cbn [fst]. apply concat4_shape; [|eapply shape4_prefix; exact Hshift].
    apply permute213_shape.
    apply (fold_left_invariant
             (fun st => shape3 B (NUM_NOTES K) time_steps (fst st) = true)).
    + cbn [fst]. apply permute213_shape. exact Hf.
    + intros st l Hst. apply time_layer_shape; assumption.
  - intros st l Hst. apply note_layer_shape; assumption.
Qed.

End ForwardFacts.

(** ** The built model *)

Section ModelFacts.
Context {F : Type} {SF : Scalar F} {AF : Activations F}.
Variable K : constants.
Variable time_steps : nat.
Variables input_dropout dropout : Q.
Variable W : weights F.

Lemma shape4_self_length {A} (B T N C : nat) (x : list (list (list (list A)))) :
  shape4 B T N C x = true -> shape4 (length x) T N C x = true /\ length x = B.
Proof.
  intros H. pose proof H as H'. apply shape4_iff in H'. destruct H' as [HB _].
  rewrite HB. auto.
Qed.

Lemma shape3_self_length {A} (B T N : nat) (x : list (list (list A))) :
  shape3 B T N x = true -> shape3 (length x) T N x = true /\ length x = B.
Proof.
  intros H. pose proof (shape3_length _ _ _ _ H) as HB.
  rewrite HB. auto.
Qed.

(** Arrays of the right shapes, passed in the order (notes, chosen, beat,
    style), reach the graph as its notes, target, beat and style. *)
Lemma call_build_model (ph : phase) (B : nat)
      (notes chosen : tensor4 F) (beat style : tensor3 F) :
  shape4 B time_steps (NUM_NOTES K) 2 notes = true ->
  shape4 B time_steps (NUM_NOTES K) 2 chosen = true ->
  shape3 B time_steps 2 beat = true ->
  shape3 B time_steps (NUM_STYLES K) style = true ->
  call (build_model K time_steps input_dropout dropout W) ph
       [Rank4 notes; Rank4 chosen; Rank3 beat; Rank3 style]
  = forward K time_steps input_dropout dropout W ph notes chosen beat style.
Proof.
  intros Hn Hc Hb Hs.
  destruct (shape4_self_length _ _ _ _ _ Hn) as [Hn' En].
  destruct (shape4_self_length _ _ _ _ _ Hc) as [Hc' Ec].
  destruct (shape3_self_length _ _ _ _ Hb) as [Hb' Eb].
  destruct (shape3_self_length _ _ _ _ Hs) as [Hs' Es].
  unfold call, build_model.
  cbn [inputs input_shape graph map model_input_shape check_arrays check_array].
  rewrite Hn', Hc', Hb', Hs', En, Ec, Eb, Es.
  cbn [all_equal forallb]. rewrite Nat.eqb_refl. reflexivity.
Qed.

Ltac refuse_arrays :=
  left; cbn [check_arrays check_array];
  repeat match goal with
         | |- context [if shape4 ?a ?b ?c ?d ?x then _ else _] =>
             destruct (shape4 a b c d x)
         | |- context [if shape3 ?a ?b ?c ?x then _ else _] =>
             destruct (shape3 a b c x)
         end;
  reflexivity.

(** Whatever is passed, the model either refuses it with a shape mismatch or
    it was handed four arrays of the declared shapes and one batch size, and
    runs its graph on them. *)
Lemma call_build_model_cases (ph : phase) (args : list (array F)) :
  call (build_model K time_steps input_dropout dropout W) ph args = Err ShapeMismatch \/
  exists B notes chosen beat style,
    args = [Rank4 notes; Rank4 chosen; Rank3 beat; Rank3 style] /\
    shape4 B time_steps (NUM_NOTES K) 2 notes = true /\
    shape4 B time_steps (NUM_NOTES K) 2 chosen = true /\
    shape3 B time_steps 2 beat = true /\
    shape3 B time_steps (NUM_STYLES K) style = true /\
    call (build_model K time_steps input_dropout dropout W) ph args =
    forward K time_steps input_dropout dropout W ph notes chosen beat style.
Proof.
  unfold call, build_model.
  cbn [inputs input_shape graph map model_input_shape].
  destruct args as [|a1 [|a2 [|a3 [|a4 [|a5 rest]]]]];
    try (left; cbn [check_arrays];
         repeat match goal with
                | |- context [match check_array ?s ?a with _ => _ end] =>
                    destruct (check_array s a)
                end; reflexivity).
  destruct a1 as [n|n]; [left; reflexivity|].
  destruct a2 as [c|c]; [refuse_arrays|].
  destruct a3 as [b|b]; [|refuse_arrays].
  destruct a4 as [s|s]; [|refuse_arrays].
  cbn [check_arrays check_array].
  destruct (shape4 (length n) _ _ _ n) eqn:Hn; [|left; reflexivity].
  destruct (shape4 (length c) _ _ _ c) eqn:Hc; [|left; reflexivity].
  destruct (shape3 (length b) _ _ b) eqn:Hb; [|left; reflexivity].
  destruct (shape3 (length s) _ _ s) eqn:Hs; [|left; reflexivity].
  destruct (all_equal _) eqn:Hall; [|left; reflexivity].
  right. exists (length n), n, c, b, s.
  cbn [all_equal forallb] in Hall.
  apply andb_prop in Hall. destruct Hall as [E1 Hall].
  apply andb_prop in Hall. destruct Hall as [E2 Hall].
  apply andb_prop in Hall. destruct Hall as [E3 _].
  apply Nat.eqb_eq in E1, E2, E3.
  rewrite E1 at 2. rewrite E2 at 2. rewrite E3 at 2.
  repeat split; try assumption.
Qed.

Lemma dense_out_shape (B T N : nat) (w : dense_w F) (f : F -> F) (x : tensor4 F) :
  shape3 B T N x = true ->
  shape4 B T N 2 (map4 f (dense4 2 w x)) = true.
Proof.
  intros H. unfold map4, dense4.
  apply shape4_iff. split; [rewrite !length_map; eapply shape3_length; eassumption|].
  apply Forall_map, Forall_map, Forall_forall. intros y Hy.
  pose proof (shape3_In _ _ _ _ _ H Hy) as Hy2.
  apply shape3_iff. split; [rewrite !length_map; eapply shape2_length; eassumption|].
  apply Forall_map, Forall_map, Forall_forall. intros z Hz.
  apply shape2_iff. split.
  - rewrite !length_map. eapply shape2_In; eassumption.
  - apply Forall_map, Forall_map, Forall_forall. intros r _.
    rewrite length_map. apply length_dense.
Qed.

Lemma get4_map4 (f : F -> F) (x : tensor4 F) (b t n c : nat) :
  get4 (map4 f x) b t n c = option_map f (get4 x b t n c).
Proof.
  unfold get4, get3, map4. rewrite nth_error_map.
  destruct (nth_error x b) as [xb|]; [|reflexivity]. cbn [option_map].
  rewrite nth_error_map.
  destruct (nth_error xb t) as [xbt|]; [|reflexivity]. cbn [option_map].
  rewrite nth_error_map.
  destruct (nth_error xbt n) as [r|]; [|reflexivity]. cbn [option_map].
  apply nth_error_map.
Qed.

End ModelFacts.

Lemma sigmoid_range (z : R) : (0 <= sigmoid z <= 1)%R.
Proof.
  cbn [sigmoid R_activations].
  pose proof (exp_pos (- z)) as He.
  assert (Hd : (0 < 1 + exp (- z))%R) by lra.
  split.
  - apply Rlt_le. apply Rdiv_lt_0_compat; lra.
  - apply (Rmult_le_reg_r (1 + exp (- z))); [exact Hd|].
    unfold Rdiv. rewrite Rmult_assoc, Rinv_l by lra. lra.
Qed.

(** C3: on valid inputs (notes and target of shape (B, T, N, 2), beat
    (B, T, 2), style (B, T, S)) the model returns [notes_out] of shape
    (B, T, N, 2), and every entry, being the sigmoid of an output of the final
    2-unit Dense layer, lies in the closed interval [0, 1]. Scalars are real
    numbers here. *)
Theorem notes_out_shape_and_range
        (K : constants) (time_steps : nat) (input_dropout dropout : Q)
        (W : weights R) (ph : phase) (B : nat)
        (notes chosen : tensor4 R) (beat style : tensor3 R) :
  valid_constants K time_steps ->
  shape4 B time_steps (NUM_NOTES K) 2 notes = true ->
  shape4 B time_steps (NUM_NOTES K) 2 chosen = true ->
  shape3 B time_steps 2 beat = true ->
  shape3 B time_steps (NUM_STYLES K) style = true ->
  exists notes_out,
    call (build_model K time_steps input_dropout dropout W) ph
         [Rank4 notes; Rank4 chosen; Rank3 beat; Rank3 style] = Ok notes_out /\
    shape4 B time_steps (NUM_NOTES K) 2 notes_out = true /\
    forall b t n c v, get4 notes_out b t n c = Some v -> (0 <= v <= 1)%R.
Proof.
  intros Hv Hn Hc Hb Hs.
  rewrite (call_build_model K time_steps input_dropout dropout W ph B) by assumption.
  destruct (forward_ok K time_steps input_dropout dropout W ph B
              notes chosen beat style Hv Hn Hc Hb Hs) as (x & Hx & E).
  rewrite E. eexists. split; [reflexivity|]. split.
  - apply dense_out_shape. exact Hx.
  - intros b t n c v Hget. rewrite get4_map4 in Hget.
    destruct (get4 (dense4 2 (w_out W) x) b t n c) as [u|]; [|discriminate].
    injection Hget as <-. apply sigmoid_range.
Qed.

(** ** Determinism without dropout *)

Lemma fold_left_ext {A B} (f g : A -> B -> A) (l : list B) (a : A) :
  (forall a b, f a b = g a b) -> fold_left f l a = fold_left g l a.
Proof.
  intros H. revert a. induction l as [|b l IH]; intros a; simpl; [reflexivity|].
  rewrite H. apply IH.
Qed.

Section Determinism.
Context {F : Type} {SF : Scalar F} {AF : Activations F}.
Variable K : constants.
Variable time_steps : nat.
Variable W : weights F.

Lemma style_embedding_zero (ph : phase) (style_in : tensor3 F) :
  style_embedding K 0 0 W ph style_in = dense3 (STYLE_UNITS K) (w_style W) style_in.
Proof. unfold style_embedding. rewrite !dropout3_zero. reflexivity. Qed.

Lemma beat_embedding_zero (ph : phase) (beat_in : tensor3 F) :
  beat_embedding K 0 0 W ph beat_in =
  map3 tanh (dense3 (BEAT_UNITS K) (w_beat W) beat_in).
Proof. unfold beat_embedding. rewrite !dropout3_zero. reflexivity. Qed.

Lemma style_proj_zero (ph : phase) (width : nat) (w : dense_w F) (s : site)
      (style : tensor3 F) :
  style_proj K 0 ph width w s style =
  repeat_vector (NUM_NOTES K) (map3 tanh (dense3 width w style)).
Proof. unfold style_proj. rewrite dropout3_zero. reflexivity. Qed.

Lemma time_layer_zero (ph1 ph2 : phase) (style : tensor3 F) (st : tensor4 F * nat) (l : nat) :
  time_layer K 0 W ph1 style st l = time_layer K 0 W ph2 style st l.
Proof. unfold time_layer. rewrite !dropout4_zero, !style_proj_zero. reflexivity. Qed.

Lemma note_layer_zero (ph1 ph2 : phase) (style : tensor3 F) (st : tensor4 F * nat) (l : nat) :
  note_layer K 0 W ph1 style st l = note_layer K 0 W ph2 style st l.
Proof. unfold note_layer. rewrite !dropout4_zero, !style_proj_zero. reflexivity. Qed.

Lemma forward_zero_dropout (ph1 ph2 : phase)
      (notes_in chosen_in : tensor4 F) (beat_in style_in : tensor3 F) :
  forward K time_steps 0 0 W ph1 notes_in chosen_in beat_in style_in =
  forward K time_steps 0 0 W ph2 notes_in chosen_in beat_in style_in.
Proof.
  unfold forward, note_features, note_octave.
  rewrite !dropout4_zero, !style_embedding_zero, !beat_embedding_zero.
  destruct (pitch_pos_in_f K time_steps notes_in) as [pos|e]; [|reflexivity].
  destruct (pitch_class_in_f K time_steps notes_in) as [cls|e]; [|reflexivity].
  destruct (pitch_bins_f K time_steps notes_in) as [bins|e]; [|reflexivity].
  cbn [bind].
  rewrite (fold_left_ext _ _ _ _ (time_layer_zero ph1 ph2 _)).
  destruct (shift_chosen K time_steps chosen_in) as [shifted|e]; [|reflexivity].
  cbn [bind].
  rewrite (fold_left_ext _ _ _ _ (note_layer_zero ph1 ph2 _)).
  reflexivity.
Qed.

(** C8: with both dropout rates 0 and the weights fixed, the output of the
    model depends on its input arrays only: two evaluations on the same
    arrays, whatever their learning phases and whatever random masks they
    draw, return the same result. *)
Theorem forward_deterministic (ph1 ph2 : phase) (args : list (array F)) :
  call (build_model K time_steps 0 0 W) ph1 args =
  call (build_model K time_steps 0 0 W) ph2 args.
Proof.
  unfold call.
  destruct (check_arrays _ args) as [batches|]; [|reflexivity].
  destruct (all_equal batches); [|reflexivity].
  unfold build_model. cbn [graph inputs].
  destruct (feed _ args NotesIn) as [[a|n]|]; [reflexivity| |reflexivity].
  destruct (feed _ args ChosenIn) as [[a|c]|]; [reflexivity| |reflexivity].
  destruct (feed _ args BeatIn) as [[b|a]|]; [|reflexivity|reflexivity].
  destruct (feed _ args StyleIn) as [[s|a]|]; [|reflexivity|reflexivity].
  apply forward_zero_dropout.
Qed.

(** C10: the built model lists its inputs as (notes, chosen, beat, style);
    arrays of the right shapes passed in that order reach the graph as its
    notes, target, beat and style, and the same arrays passed in the order
    (notes, beat, style, chosen) are rejected. *)
Theorem inputs_positional_order (input_dropout dropout : Q) (ph : phase) (B : nat)
        (notes chosen : tensor4 F) (beat style : tensor3 F) :
  shape4 B time_steps (NUM_NOTES K) 2 notes = true ->
  shape4 B time_steps (NUM_NOTES K) 2 chosen = true ->
  shape3 B time_steps 2 beat = true ->
  shape3 B time_steps (NUM_STYLES K) style = true ->
  inputs (build_model K time_steps input_dropout dropout W) =
    [NotesIn; ChosenIn; BeatIn; StyleIn] /\
  call (build_model K time_steps input_dropout dropout W) ph
       [Rank4 notes; Rank4 chosen; Rank3 beat; Rank3 style]
    = forward K time_steps input_dropout dropout W ph notes chosen beat style /\
  call (build_model K time_steps input_dropout dropout W) ph
       [Rank4 notes; Rank3 beat; Rank3 style; Rank4 chosen]
    = Err ShapeMismatch.
Proof.
  intros Hn Hc Hb Hs. split; [reflexivity|]. split.
  - eapply call_build_model; eassumption.
  - unfold call, build_model.
    cbn [inputs input_shape map model_input_shape check_arrays check_array].
    destruct (shape4 (length notes) _ _ _ notes); reflexivity.
Qed.

End Determinism.

(** ** The embedding stage *)

Lemma tanh_lt_1 (x : R) : (Rtrigo_def.tanh x < 1)%R.
Proof.
  unfold Rtrigo_def.tanh, sinh, cosh.
  pose proof (exp_pos x) as H1. pose proof (exp_pos (- x)) as H2.
  apply (Rmult_lt_reg_r ((exp x + exp (- x)) / 2)); [lra|].
  unfold Rdiv at 1. rewrite Rmult_assoc, Rinv_l by lra. lra.
Qed.

Lemma nth_error_dense {F} {SF : Scalar F} (units : nat) (w : dense_w F) (x : list F) (j : nat) :
  j < units ->
  nth_error (dense units w x) j =
  Some (add (dot x (fun k => kernel w k j)) (bias w j)).
Proof.
  intros H. unfold dense. rewrite nth_error_map, nth_error_seq.
  apply Nat.ltb_lt in H. rewrite H. reflexivity.
Qed.

Lemma dot_scale_from (c : R) (col : nat -> R) (x : list R) (s : nat) :
  sum (mapi_from s (fun k xk => mul xk (col k)) (map (Rmult c) x)) =
  (c * sum (mapi_from s (fun k xk => mul xk (col k)) x))%R.
Proof.
  revert s. induction x as [|a x IH]; intros s; cbn [map mapi_from sum fold_right].
  - cbn. lra.
  - fold (sum (mapi_from (S s) (fun k xk => mul xk (col k)) (map (Rmult c) x))).
    fold (sum (mapi_from (S s) (fun k xk => mul xk (col k)) x)).
    rewrite IH. cbn. lra.
Qed.

Lemma dot_scale (c : R) (col : nat -> R) (x : list R) :
  dot (map (Rmult c) x) col = (c * dot x col)%R.
Proof. apply dot_scale_from. Qed.

(** C4 does not hold for the style: with the dropout rates 0 the style
    embedding is the output of its Dense layer, not the tanh of that output
    (here on the first style, with unit weights). *)
Lemma style_embedding_not_tanh :
  style_embedding example_constants 0 0 unit_weights test_phase first_style <>
  map3 tanh (dense3 (STYLE_UNITS example_constants) (w_style unit_weights) first_style).
Proof.
  rewrite style_embedding_zero. intros H.
  unfold first_style, dense3, map3, dense in H.
  cbn [map seq STYLE_UNITS example_constants] in H.
  injection H as H _.
  pose proof (tanh_lt_1 (dot [1; 0; 0; 0] (fun _ : nat => 1) + 0)%R) as Hlt.
  cbn [tanh R_activations add R_scalar kernel bias w_style unit_weights unit_dense] in H.
  rewrite <- H in Hlt.
  cbn in Hlt. lra.
Qed.

(** C4 amended: with the dropout rates 0, the beat embedding is the tanh of a
    learned affine layer, while the style embedding is a learned affine layer
    alone (scaling a style row scales the part before the bias); the style
    meets a tanh only later, in the projection each recurrent layer adds. *)
Theorem embedding_stage (K : constants) (W : weights R) (ph : phase)
        (beat_in style_in : tensor3 R) :
  beat_embedding K 0 0 W ph beat_in =
    map3 tanh (dense3 (BEAT_UNITS K) (w_beat W) beat_in) /\
  style_embedding K 0 0 W ph style_in =
    dense3 (STYLE_UNITS K) (w_style W) style_in /\
  (forall (c : R) (row : list R),
     dense (STYLE_UNITS K) (w_style W) (map (Rmult c) row) =
     map (fun j => (c * dot row (fun k => kernel (w_style W) k j)
                    + bias (w_style W) j)%R)
         (seq 0 (STYLE_UNITS K))) /\
  (forall width w s style,
     style_proj K 0 ph width w s style =
     repeat_vector (NUM_NOTES K) (map3 tanh (dense3 width w style))).
Proof.
  split; [apply beat_embedding_zero|].
  split; [apply style_embedding_zero|].
  split.
  - intros c row. unfold dense. apply map_ext. intros j.
    rewrite dot_scale. reflexivity.
  - intros. apply style_proj_zero.
Qed.

(** ** When the notes do not fill whole octaves *)

(** C9 does not hold where it expects a misaligned pitch-class feature: with
    50 notes and octaves of 12 the feature is built and its row at every note
    is still the one-hot vector of that note's pitch class. *)
Lemma pitch_class_not_misaligned :
  NUM_NOTES ragged_constants mod OCTAVE ragged_constants <> 0 /\
  exists out : tensor4 Q,
    pitch_class_in_f ragged_constants 1 (silence 1 1 50) = Ok out /\
    forall i, i < 50 -> row4 out 0 0 i = Some (pitch_class_row ragged_constants i).
Proof.
  split; [cbn; lia|].
  eexists. split.
  - apply pitch_class_closed. cbn. lia.
  - intros i Hi. apply pitch_class_row_at; cbn; lia.
Qed.

Section Indivisible.
Context {F : Type} {SF : Scalar F} {AF : Activations F}.
Variable K : constants.
Variable time_steps : nat.
Variables input_dropout dropout : Q.
Variable W : weights F.
Variable ph : phase.

(** C9 amended: when NUM_NOTES is not a multiple of OCTAVE (and OCTAVE is
    positive) nothing in the model checks it. The pitch-class feature does
    not misalign: it is still built, well formed and with the one-hot vector
    of i mod OCTAVE at every note i. The pitch-bins feature fails with a
    shape mismatch of the tensor engine, for every batch and window, because
    its strided slices differ in length; and whatever arrays the model is
    called on, the failure it hands to its caller is that shape mismatch,
    as it is. *)
Theorem indivisible_notes (x : tensor4 F) :
  0 < OCTAVE K -> NUM_NOTES K mod OCTAVE K <> 0 ->
  (exists cls,
     pitch_class_in_f K time_steps x = Ok cls /\
     shape4 (length x) time_steps (NUM_NOTES K) (OCTAVE K) cls = true /\
     forall b t i, b < length x -> t < time_steps -> i < NUM_NOTES K ->
       row4 cls b t i = Some (pitch_class_row K i)) /\
  (forall B notes,
     shape4 B time_steps (NUM_NOTES K) 2 notes = true ->
     pitch_bins_f K time_steps notes = Err ShapeMismatch) /\
  (forall args,
     call (build_model K time_steps input_dropout dropout W) ph args =
     Err ShapeMismatch).
Proof.
  intros HO Hmod.
  split; [|split].
  - eexists. split; [apply pitch_class_closed; exact HO|].
    split; [apply pitch_class_shape|].
    intros b t i Hlb Hlt Hli. apply pitch_class_row_at; assumption.
  - intros B notes Hn.
    apply (pitch_bins_ragged K B time_steps 2); [assumption|assumption|lia|exact Hn].
  - intros args.
    destruct (call_build_model_cases K time_steps input_dropout dropout W ph args)
      as [E|(B & notes & chosen & beat & style & _ & Hn & _ & _ & _ & E)];
      [exact E|].
    rewrite E. unfold forward, note_features.
    rewrite pitch_pos_closed, (pitch_class_closed K _ _ HO). cbn [bind].
    rewrite (pitch_bins_ragged K B time_steps 2);
      [reflexivity|assumption|assumption|lia|].
    apply dropout4_shape4. exact Hn.
Qed.

End Indivisible.

(** ** The pitch bins on a single frame *)

Lemma nth_error_tile1 {A} (m : nat) (l : list A) (i : nat) :
  i < m * length l -> nth_error (tile1 m l) i = nth_error l (i mod length l).
Proof.
  unfold tile1. revert i. induction m as [|m IH]; intros i Hi; [simpl in Hi; lia|].
  cbn [repeat concat]. destruct (Nat.lt_ge_cases i (length l)) as [Hlt|Hge].
  - rewrite nth_error_app1 by assumption. rewrite Nat.mod_small by assumption.
    reflexivity.
  - rewrite nth_error_app2 by assumption. rewrite IH by (simpl in Hi; lia).
    f_equal. rewrite <- (Nat.Div0.mod_add (i - length l) 1 (length l)).
    f_equal. lia.
Qed.

Lemma flatten3_singletons {F} (v : nat -> F) (l : list nat) :
  flatten3 (map (fun i => [[v i]]) l) = map v l.
Proof.
  unfold flatten3. induction l as [|i l IH]; simpl; [reflexivity|].
  now rewrite IH.
Qed.

Lemma flatten3_app {F} (x y : tensor3 F) : flatten3 (x ++ y) = flatten3 x ++ flatten3 y.
Proof. unfold flatten3. now rewrite !concat_app. Qed.

Lemma flatten3_tile1 {F} (m : nat) (x : tensor3 F) :
  flatten3 (tile1 m x) = tile1 m (flatten3 x).
Proof.
  unfold tile1. induction m as [|m IH]; [reflexivity|].
  cbn [repeat concat]. now rewrite flatten3_app, IH.
Qed.

Section SingleFrame.
Context {F : Type} {SF : Scalar F}.
Variable K : constants.

(** The bin of pitch class [i] on one frame. *)
Lemma pitch_class_sum_frame (notes : tensor2 F) (i : nat) :
  pitch_class_sum K [[notes]] 0 0 i =
  Some (sum (map (fun v => nth 0 v zero)
                 (take_every (OCTAVE K) (i mod OCTAVE K) notes))).
Proof. reflexivity. Qed.

(** With one batch element and one time step there is nothing for the
    reshape to mix: the feature at note [i] is the sum of the played channel
    over the notes of the pitch class of [i]. *)
Lemma pitch_bins_single_frame (C : nat) (notes : tensor2 F) :
  0 < OCTAVE K -> NUM_NOTES K = NUM_OCTAVES K * OCTAVE K -> 0 < C ->
  shape2 (NUM_NOTES K) C notes = true ->
  exists out,
    pitch_bins_f K 1 [[notes]] = Ok out /\
    forall i, i < NUM_NOTES K ->
      get4 out 0 0 i 0 = pitch_class_sum K [[notes]] 0 0 i.
Proof.
  intros HO HN HC Hnotes.
  assert (Hx : shape4 1 1 (NUM_NOTES K) C [[notes]] = true).
  { unfold shape4, shape3. cbn [length forallb Nat.eqb andb]. rewrite Hnotes.
    reflexivity. }
  set (v := fun i => sum (map (fun r : list F => nth 0 r zero)
                              (take_every (OCTAVE K) i notes))).
  unfold pitch_bins_f.
  rewrite (slices_ok K 1 1 _ C _ HC Hx). cbn [bind].
  rewrite (pack_slices_whole K (NUM_OCTAVES K)) by exact HN.
  assert (Hst : stack (map (fun i => played_slice K i [[notes]]) (seq 0 (OCTAVE K))) =
                Ok (map (fun i => played_slice K i [[notes]]) (seq 0 (OCTAVE K)))).
  { destruct (OCTAVE K) as [|o] eqn:EO; [lia|].
    cbn [seq map stack].
    replace (forallb _ _) with true; [reflexivity|].
    symmetry. apply forallb_forall. intros s Hs.
    apply in_map_iff in Hs. destruct Hs as (i & <- & Hi). apply in_seq in Hi.
    apply (same_shape3_of_shape 1 1 (NUM_OCTAVES K));
      eapply played_slice_shape; try eassumption; lia. }
  rewrite Hst. cbn [bind]. rewrite tile3_axis0.
  unfold reduce_sum3. rewrite map_map. unfold played_slice. cbn [map].
  fold v.
  rewrite flatten3_tile1, (flatten3_singletons v).
  set (flat := tile1 (NUM_OCTAVES K) (map v (seq 0 (OCTAVE K)))).
  assert (Hflat : length flat = NUM_NOTES K).
  { unfold flat. rewrite length_tile1, length_map, length_seq. lia. }
  pose proof (reshape4_tile1 1 1 flat) as Hr.
  cbn [Nat.mul Nat.add] in Hr. rewrite tile1_one, Hflat in Hr.
  cbn [length]. rewrite Hr.
  eexists. split; [reflexivity|].
  intros i Hi. rewrite pitch_class_sum_frame. fold (v (i mod OCTAVE K)).
  unfold get4, get3. cbn [repeat nth_error].
  rewrite nth_error_map. unfold flat.
  rewrite nth_error_tile1 by (rewrite length_map, length_seq; lia).
  rewrite length_map, length_seq, nth_error_map, nth_error_seq.
  pose proof (Nat.mod_upper_bound i (OCTAVE K) ltac:(lia)) as Hm.
  apply Nat.ltb_lt in Hm. rewrite Hm. reflexivity.
Qed.

End SingleFrame.

(** ** The pitch bins away from a single frame *)

(** C1 at two time steps: the reshape reads the (note, batch, time) tensor of
    bins as if it were (batch, time, note). Only note 0 is played, at step 0:
    at step 0 the feature at note 12 (pitch class 0, bin value 1) is 0, and at
    step 1, where nothing is played, the feature at note 0 is 1. *)
Theorem pitch_bins_mixes_axes :
  exists out,
    pitch_bins_f example_constants 2 one_note_frames = Ok out /\
    shape4 1 2 48 1 out = true /\
    get4 out 0 0 12 0 = Some 0%Q /\
    pitch_class_sum example_constants one_note_frames 0 0 12 = Some 1%Q /\
    get4 out 0 1 0 0 = Some 1%Q /\
    pitch_class_sum example_constants one_note_frames 0 1 0 = Some 0%Q.
Proof.
  eexists. split; [vm_compute; reflexivity|].
  repeat split; vm_compute; reflexivity.
Qed.

(** ** The compiled objective *)

Lemma map2_map_out {A B C D} (g : C -> D) (f : A -> B -> C) (l1 : list A) (l2 : list B) :
  map2 (fun a b => g (f a b)) l1 l2 = map g (map2 f l1 l2).
Proof.
  revert l2. induction l1 as [|a l1 IH]; intros [|b l2]; simpl; try reflexivity.
  now rewrite IH.
Qed.

Lemma map2_ext {A B C} (f g : A -> B -> C) (l1 : list A) (l2 : list B) :
  (forall a b, f a b = g a b) -> map2 f l1 l2 = map2 g l1 l2.
Proof.
  intros H. revert l2. induction l1 as [|a l1 IH]; intros [|b l2]; simpl; try reflexivity.
  now rewrite H, IH.
Qed.

Section ObjectiveFacts.
Context {CE : Crossentropy R}.

Lemma primary_loss_pointwise (y_true y_pred : tensor4 R) :
  primary_loss y_true y_pred = map3 mean (elementwise_bce y_true y_pred).
Proof.
  unfold primary_loss, binary_crossentropy, elementwise_bce, map3.
  rewrite <- map2_map_out. apply map2_ext. intros a b.
  rewrite <- map2_map_out. apply map2_ext. intros a' b'.
  rewrite <- map2_map_out. reflexivity.
Qed.

Lemma sum_nil : sum (@nil R) = 0%R.
Proof. reflexivity. Qed.

Lemma sum_cons (a : R) (l : list R) : sum (a :: l) = (a + sum l)%R.
Proof. reflexivity. Qed.

Lemma sum_app (l1 l2 : list R) : sum (l1 ++ l2) = (sum l1 + sum l2)%R.
Proof.
  induction l1 as [|a l1 IH]; cbn [app].
  - rewrite sum_nil. lra.
  - rewrite !sum_cons, IH. lra.
Qed.

Lemma sum_map_mean (k : nat) (rows : list (list R)) :
  Forall (fun r => length r = k) rows ->
  sum (map mean rows) = (sum (concat rows) / INR k)%R.
Proof.
  induction 1 as [|r rows Hr _ IH]; cbn [map concat].
  - rewrite sum_nil. lra.
  - rewrite sum_cons, IH, sum_app.
    unfold mean. rewrite Hr. cbn [div of_nat R_scalar]. lra.
Qed.

(** The average of the averages of equally long rows is the average of
    all their entries. *)
Lemma mean_of_means (n k : nat) (rows : list (list R)) :
  0 < n -> 0 < k -> length rows = n ->
  Forall (fun r => length r = k) rows ->
  mean (map mean rows) = mean (concat rows).
Proof.
  intros Hn Hk Hlen Hrows. unfold mean at 1 3.
  rewrite (sum_map_mean k) by assumption.
  rewrite length_map, (length_concat_uniform k) by assumption.
  rewrite Hlen. cbn [of_nat R_scalar div]. rewrite mult_INR.
  assert (INR n <> 0)%R by (apply not_0_INR; lia).
  assert (INR k <> 0)%R by (apply not_0_INR; lia).
  field. split; assumption.
Qed.

Lemma concat_map_map {A B} (f : A -> B) (x : list (list A)) :
  concat (map (map f) x) = map f (concat x).
Proof. symmetry. apply concat_map. Qed.

Lemma weighted_objective_mean (B T N : nat) (e : tensor4 R) :
  0 < B -> 0 < T -> 0 < N ->
  shape4 B T N 2 e = true ->
  weighted_objective (map3 mean e) = mean (flatten4 e).
Proof.
  intros HB HT HN He.
  apply shape4_iff in He. destruct He as [Hlen He]. rewrite Forall_forall in He.
  unfold weighted_objective, map3, flatten4.
  rewrite map_map.
  rewrite (map_ext_in _ (fun s => mean (flatten3 s))).
  - rewrite <- (map_map (@flatten3 R) mean).
    rewrite (mean_of_means B (T * N * 2)).
    + f_equal. unfold flatten3.
      rewrite (concat_concat_map e), (concat_concat_map (map _ e)), map_map.
      reflexivity.
    + exact HB.
    + nia.
    + rewrite length_map. exact Hlen.
    + apply Forall_map, Forall_forall. intros s Hs.
      apply length_flatten3. apply He. exact Hs.
  - intros s Hs. specialize (He _ Hs).
    unfold flatten2, flatten3. rewrite concat_map_map.
    apply shape3_iff in He. destruct He as [HlT Hrows].
    apply (mean_of_means (T * N) 2); [nia|lia| |].
    + rewrite (length_concat_uniform N), HlT; [reflexivity|].
      eapply Forall_impl; [|exact Hrows].
      intros y Hy. cbv beta in Hy. eapply shape2_length; eassumption.
    + apply Forall_concat. eapply Forall_impl; [|exact Hrows].
      intros y Hy. cbv beta in Hy. apply shape2_iff in Hy. tauto.
Qed.

Lemma elementwise_bce_shape (B T N C : nat) (y_true y_pred : tensor4 R) :
  shape4 B T N C y_true = true -> shape4 B T N C y_pred = true ->
  shape4 B T N C (elementwise_bce y_true y_pred) = true.
Proof.
  intros Ht Hp. unfold elementwise_bce.
  apply shape4_iff in Ht. destruct Ht as [Ht1 Ht2]. rewrite Forall_forall in Ht2.
  apply shape4_iff in Hp. destruct Hp as [Hp1 Hp2]. rewrite Forall_forall in Hp2.
  apply shape4_iff. split; [rewrite length_map2; lia|].
  apply Forall_map2. intros a b Ha Hb.
  specialize (Ht2 _ Ha). specialize (Hp2 _ Hb).
  apply shape3_iff. split.
  - rewrite length_map2, (shape3_length _ _ _ _ Ht2), (shape3_length _ _ _ _ Hp2). lia.
  - apply Forall_map2. intros a' b' Ha' Hb'.
    apply shape2_map2.
    + eapply shape3_In; [exact Ht2|exact Ha'].
    + eapply shape3_In; [exact Hp2|exact Hb'].
Qed.

Lemma half_of_Q : of_Q (1 # 2) = (1 / 2)%R.
Proof. cbn [of_Q R_scalar]. unfold Q2R. cbn. lra. Qed.

End ObjectiveFacts.

(** *** The losses, entry by entry *)

Lemma nth_map2 {A B C} (f : A -> B -> C) (l1 : list A) (l2 : list B)
      (i : nat) (d : C) (d1 : A) (d2 : B) :
  i < length l1 -> i < length l2 ->
  nth i (map2 f l1 l2) d = f (nth i l1 d1) (nth i l2 d2).
Proof.
  revert l2 i. induction l1 as [|a l1 IH]; intros [|b l2] i H1 H2;
    try (simpl in *; lia).
  destruct i as [|i]; [reflexivity|]. cbn [map2 nth].
  apply IH; simpl in *; lia.
Qed.

Lemma shape4_nth {A} (B T N C b : nat) (x : list (list (list (list A)))) :
  shape4 B T N C x = true -> b < B -> shape3 T N C (nth b x []) = true.
Proof.
  intros H Hb. apply shape4_iff in H. destruct H as [Hl H].
  rewrite Forall_forall in H. apply H, nth_In. lia.
Qed.

Lemma shape3_nth {A} (T N C t : nat) (x : list (list (list A))) :
  shape3 T N C x = true -> t < T -> shape2 N C (nth t x []) = true.
Proof.
  intros H Ht. apply shape3_iff in H. destruct H as [Hl H].
  rewrite Forall_forall in H. apply H, nth_In. lia.
Qed.

Lemma shape2_nth {A} (N C n : nat) (x : list (list A)) :
  shape2 N C x = true -> n < N -> length (nth n x []) = C.
Proof.
  intros H Hn. apply shape2_iff in H. destruct H as [Hl H].
  rewrite Forall_forall in H. apply H, nth_In. lia.
Qed.

Lemma sum_upto_ext (n : nat) (f g : nat -> R) :
  (forall i, i < n -> f i = g i) -> sum_upto n f = sum_upto n g.
Proof.
  intros H. unfold sum_upto. f_equal. apply map_ext_in.
  intros i Hi. apply in_seq in Hi. apply H. lia.
Qed.

Lemma sum_map_upto {A} (g : A -> R) (d : A) (l : list A) :
  sum (map g l) = sum_upto (length l) (fun i => g (nth i l d)).
Proof.
  unfold sum_upto, sum. cbn [add zero R_scalar]. f_equal.
  induction l as [|a l IH]; [reflexivity|].
  cbn [map length seq nth]. f_equal.
  rewrite IH, <- seq_shift, map_map. reflexivity.
Qed.

Lemma sum_as_sum_upto (l : list R) :
  sum l = sum_upto (length l) (fun i => nth i l 0%R).
Proof.
  rewrite <- (map_id l) at 1. apply (sum_map_upto (fun v => v)).
Qed.

Lemma sum_map_concat {A} (g : A -> R) (rows : list (list A)) :
  sum (map g (concat rows)) = sum (map (fun r => sum (map g r)) rows).
Proof.
  induction rows as [|r rows IH]; [reflexivity|].
  cbn [concat map]. rewrite map_app, sum_app, sum_cons, IH. reflexivity.
Qed.

(** The sum of all entries of a tensor, axis by axis. *)
Lemma sum_flatten4_entries (B T N C : nat) (e : tensor4 R) :
  shape4 B T N C e = true ->
  sum (flatten4 e) =
  sum_upto B (fun b => sum_upto T (fun t => sum_upto N (fun n => sum_upto C (fun c =>
    entry4 e b t n c)))).
Proof.
  intros He. unfold flatten4.
  rewrite <- (map_id (concat (concat (concat e)))).
  rewrite !sum_map_concat.
  rewrite (sum_map_upto _ []).
  replace (length e) with B by (apply shape4_iff in He; lia).
  apply sum_upto_ext. intros b Hb.
  pose proof (shape4_nth _ _ _ _ _ _ He Hb) as H3.
  rewrite (sum_map_upto _ []), (shape3_length _ _ _ _ H3).
  apply sum_upto_ext. intros t Ht.
  pose proof (shape3_nth _ _ _ _ _ H3 Ht) as H2.
  rewrite (sum_map_upto _ []), (shape2_length _ _ _ H2).
  apply sum_upto_ext. intros n Hn.
  rewrite map_id, sum_as_sum_upto, (shape2_nth _ _ _ _ H2 Hn).
  reflexivity.
Qed.

Lemma length_flatten4 (B T N C : nat) (e : tensor4 R) :
  shape4 B T N C e = true -> length (flatten4 e) = B * T * N * C.
Proof.
  intros He. apply shape4_iff in He. destruct He as [Hl He].
  unfold flatten4.
  rewrite (concat_concat_map e), (concat_concat_map (map _ e)), map_map.
  rewrite (length_concat_uniform (T * N * C)).
  - rewrite length_map, Hl. lia.
  - apply Forall_map. eapply Forall_impl; [|exact He].
    intros y Hy. cbv beta in Hy.
    apply (length_flatten3 T N C). exact Hy.
Qed.

Lemma entry4_elementwise_bce (B T N C b t n c : nat) (y_true y_pred : tensor4 R) :
  shape4 B T N C y_true = true -> shape4 B T N C y_pred = true ->
  b < B -> t < T -> n < N -> c < C ->
  entry4 (elementwise_bce y_true y_pred) b t n c =
  K_binary_crossentropy (entry4 y_true b t n c) (entry4 y_pred b t n c).
Proof.
  intros Ht Hp Hb Hlt Hn Hc. unfold entry4, elementwise_bce.
  pose proof (shape4_nth _ _ _ _ _ _ Ht Hb) as Ht3.
  pose proof (shape4_nth _ _ _ _ _ _ Hp Hb) as Hp3.
  pose proof (shape3_nth _ _ _ _ _ Ht3 Hlt) as Ht2.
  pose proof (shape3_nth _ _ _ _ _ Hp3 Hlt) as Hp2.
  pose proof (shape2_nth _ _ _ _ Ht2 Hn) as Ht1.
  pose proof (shape2_nth _ _ _ _ Hp2 Hn) as Hp1.
  apply shape4_iff in Ht, Hp.
  rewrite (nth_map2 _ _ _ _ _ [] []) by lia.
  rewrite (nth_map2 _ _ _ _ _ [] [])
    by (rewrite ?(shape3_length _ _ _ _ Ht3), ?(shape3_length _ _ _ _ Hp3); lia).
  rewrite (nth_map2 _ _ _ _ _ [] [])
    by (rewrite ?(shape2_length _ _ _ Ht2), ?(shape2_length _ _ _ Hp2); lia).
  apply nth_map2; lia.
Qed.

Lemma get3_primary_loss (B T N b t n : nat) (y_true y_pred : tensor4 R) :
  shape4 B T N 2 y_true = true -> shape4 B T N 2 y_pred = true ->
  b < B -> t < T -> n < N ->
  get3 (primary_loss y_true y_pred) b t n =
  Some ((K_binary_crossentropy (entry4 y_true b t n 0) (entry4 y_pred b t n 0) +
         K_binary_crossentropy (entry4 y_true b t n 1) (entry4 y_pred b t n 1)) / 2)%R.
Proof.
  intros Ht Hp Hb Hlt Hn.
  pose proof (shape4_nth _ _ _ _ _ _ Ht Hb) as Ht3.
  pose proof (shape4_nth _ _ _ _ _ _ Hp Hb) as Hp3.
  pose proof (shape3_nth _ _ _ _ _ Ht3 Hlt) as Ht2.
  pose proof (shape3_nth _ _ _ _ _ Hp3 Hlt) as Hp2.
  pose proof (shape2_nth _ _ _ _ Ht2 Hn) as Ht1.
  pose proof (shape2_nth _ _ _ _ Hp2 Hn) as Hp1.
  unfold entry4.
  apply shape4_iff in Ht, Hp.
  unfold get3, primary_loss, binary_crossentropy.
  rewrite (nth_error_nth' _ []) by (rewrite length_map2; lia).
  rewrite (nth_map2 _ _ _ _ _ [] []) by lia.
  rewrite (nth_error_nth' _ [])
    by (rewrite length_map2, (shape3_length _ _ _ _ Ht3), (shape3_length _ _ _ _ Hp3);
        lia).
  rewrite (nth_map2 _ _ _ _ _ [] [])
    by (rewrite ?(shape3_length _ _ _ _ Ht3), ?(shape3_length _ _ _ _ Hp3); lia).
  rewrite (nth_error_nth' _ 0%R)
    by (rewrite length_map2, (shape2_length _ _ _ Ht2), (shape2_length _ _ _ Hp2);
        lia).
  rewrite (nth_map2 _ _ _ _ _ [] [])
    by (rewrite ?(shape2_length _ _ _ Ht2), ?(shape2_length _ _ _ Hp2); lia).
  destruct (nth n (nth t (nth b y_true []) []) []) as [|t0 [|t1 [|? ?]]];
    try discriminate Ht1.
  destruct (nth n (nth t (nth b y_pred []) []) []) as [|p0 [|p1 [|? ?]]];
    try discriminate Hp1.
  cbn [map2 nth]. unfold mean. rewrite !sum_cons, sum_nil.
  cbn [length of_nat div R_scalar INR]. f_equal. lra.
Qed.

Lemma get2_style_loss (Bs Ts S b t : nat) (s_true s_pred : tensor3 R) :
  shape3 Bs Ts S s_true = true -> shape3 Bs Ts S s_pred = true ->
  b < Bs -> t < Ts ->
  get2 (style_loss s_true s_pred) b t =
  Some (1 / 2 * K_categorical_crossentropy (row3 s_true b t) (row3 s_pred b t))%R.
Proof.
  intros Ht Hp Hb Hlt.
  pose proof (shape3_nth _ _ _ _ _ Ht Hb) as Ht2.
  pose proof (shape3_nth _ _ _ _ _ Hp Hb) as Hp2.
  apply shape3_iff in Ht, Hp.
  unfold get2, style_loss, categorical_crossentropy, row3.
  rewrite nth_error_map, (nth_error_nth' _ []) by (rewrite length_map2; lia).
  cbn [option_map].
  rewrite (nth_map2 _ _ _ _ _ [] []) by lia.
  rewrite nth_error_map, (nth_error_nth' _ 0%R)
    by (rewrite length_map2, (shape2_length _ _ _ Ht2), (shape2_length _ _ _ Hp2);
        lia).
  cbn [option_map].
  rewrite (nth_map2 _ _ _ _ _ [] [])
    by (rewrite ?(shape2_length _ _ _ Ht2), ?(shape2_length _ _ _ Hp2); lia).
  cbn [mul R_scalar]. rewrite half_of_Q. reflexivity.
Qed.

Lemma categorical_crossentropy_row (S : nat) (y p : list R) :
  length y = S -> length p = S ->
  K_categorical_crossentropy y p = spec_categorical_crossentropy S y p.
Proof.
  intros Hy Hp. cbn [K_categorical_crossentropy R_crossentropy].
  unfold spec_categorical_crossentropy. f_equal.
  rewrite sum_as_sum_upto, length_map2, Hy, Hp, Nat.min_id.
  apply sum_upto_ext. intros i Hi.
  rewrite (nth_map2 _ _ _ _ _ 0%R 0%R) by lia.
  rewrite (sum_as_sum_upto p), Hp. reflexivity.
Qed.

(** C7: the model is compiled with exactly one loss, [primary_loss], on its
    one output, with the default arguments as with any others, and
    [style_loss] is not among the compiled losses. On a target and a
    prediction of shape (B, T, N, 2) the primary loss at a position is the
    average over the two channels of the binary cross-entropy
    -(y ln p + (1 - y) ln (1 - p)) of the entries, the probability kept
    within [1e-7, 1 - 1e-7], and the objective built from it is the sum of
    that cross-entropy over all B * T * N * 2 entries divided by their
    number. [style_loss] is, at every row, one half of the categorical
    cross-entropy -sum_i y_i ln p_i of the row. Scalars are real numbers. *)
Theorem compiled_objective
        (K : constants) (time_steps : nat) (input_dropout dropout : Q)
        (W : weights R) (B : nat) (y_true y_pred : tensor4 R) :
  0 < B -> 0 < time_steps -> 0 < NUM_NOTES K ->
  shape4 B time_steps (NUM_NOTES K) 2 y_true = true ->
  shape4 B time_steps (NUM_NOTES K) 2 y_pred = true ->
  map loss_function (loss (build_model K time_steps input_dropout dropout W)) =
    [NotesLoss primary_loss] /\
  outputs (build_model K time_steps input_dropout dropout W) = [NoteOut] /\
  loss (build_model_default K W) = [PrimaryLoss] /\
  ~ In StyleLoss (loss (build_model K time_steps input_dropout dropout W)) /\
  (forall b t n, b < B -> t < time_steps -> n < NUM_NOTES K ->
     get3 (primary_loss y_true y_pred) b t n =
     Some ((spec_binary_crossentropy (entry4 y_true b t n 0)
              (clip_probability (entry4 y_pred b t n 0)) +
            spec_binary_crossentropy (entry4 y_true b t n 1)
              (clip_probability (entry4 y_pred b t n 1))) / 2)%R) /\
  weighted_objective (primary_loss y_true y_pred) =
    spec_average_binary_crossentropy B time_steps (NUM_NOTES K) y_true y_pred /\
  (forall Bs Ts S (s_true s_pred : tensor3 R) b t,
     shape3 Bs Ts S s_true = true -> shape3 Bs Ts S s_pred = true ->
     b < Bs -> t < Ts ->
     get2 (style_loss s_true s_pred) b t =
     Some (1 / 2 * spec_categorical_crossentropy S (row3 s_true b t) (row3 s_pred b t))%R).
Proof.
  intros HB HT HN Ht Hp.
  split; [reflexivity|]. split; [reflexivity|]. split; [reflexivity|].
  split; [cbn [loss build_model]; intros [H|[]]; discriminate|].
  split; [|split].
  - intros b t n Hb Hlt Hn.
    rewrite (get3_primary_loss B time_steps (NUM_NOTES K)) by assumption.
    reflexivity.
  - rewrite primary_loss_pointwise.
    pose proof (elementwise_bce_shape _ _ _ _ _ _ Ht Hp) as He.
    rewrite (weighted_objective_mean B time_steps (NUM_NOTES K)) by assumption.
    unfold mean, spec_average_binary_crossentropy.
    rewrite (length_flatten4 _ _ _ _ _ He), (sum_flatten4_entries _ _ _ _ _ He).
    cbn [div of_nat R_scalar]. f_equal.
    apply sum_upto_ext. intros b Hb. apply sum_upto_ext. intros t Hlt.
    apply sum_upto_ext. intros n Hn. apply sum_upto_ext. intros c Hc.
    rewrite (entry4_elementwise_bce B time_steps (NUM_NOTES K) 2) by assumption.
    reflexivity.
  - intros Bs Ts S s_true s_pred b t Hs1 Hs2 Hb Hlt.
    rewrite (get2_style_loss Bs Ts S) by assumption.
    rewrite (categorical_crossentropy_row S); [reflexivity| |].
    + exact (shape2_nth _ _ _ _ (shape3_nth _ _ _ _ _ Hs1 Hb) Hlt).
    + exact (shape2_nth _ _ _ _ (shape3_nth _ _ _ _ _ Hs2 Hb) Hlt).
Qed.

(** ** Worked examples on four notes *)

Example pitch_pos_tiny :
  pitch_pos_in_f tiny_constants 2 tiny_notes =
  Ok [[ [[0 # 4]; [1 # 4]; [2 # 4]; [3 # 4]];
        [[0 # 4]; [1 # 4]; [2 # 4]; [3 # 4]] ]]%Q.
Proof. vm_compute. reflexivity. Qed.

Example pitch_class_tiny :
  pitch_class_in_f tiny_constants 2 tiny_notes =
  Ok [[ [[1; 0]; [0; 1]; [1; 0]; [0; 1]];
        [[1; 0]; [0; 1]; [1; 0]; [0; 1]] ]]%Q.
Proof. vm_compute. reflexivity. Qed.

(** One frame: the bins 1 + 3 and 2 + 4 sit at the notes of their classes. *)
Example pitch_bins_tiny_one_frame :
  pitch_bins_f tiny_constants 1 [[ [[1; 0]; [2; 0]; [3; 0]; [4; 0]] ]]%Q =
  Ok [[ [[4]; [6]; [4]; [6]] ]]%Q.
Proof. vm_compute. reflexivity. Qed.

(** Two frames: the four bins 4, 40, 6, 60 are laid along the notes of each
    step, where 4, 6, 4, 6 and 40, 60, 40, 60 belong. *)
Example pitch_bins_tiny_two_frames :
  pitch_bins_f tiny_constants 2 tiny_notes =
  Ok [[ [[4]; [40]; [6]; [60]]; [[4]; [40]; [6]; [60]] ]]%Q.
Proof. vm_compute. reflexivity. Qed.

Example shift_chosen_tiny :
  shift_chosen tiny_constants 2 tiny_notes =
  Ok [[ [[0; 0]; [1; 0]; [2; 0]; [3; 0]];
        [[0; 0]; [10; 0]; [20; 0]; [30; 0]] ]]%Q.
Proof. vm_compute. reflexivity. Qed.

(** ** The results on the example configuration *)

Lemma example_valid : valid_constants example_constants 16.
Proof. unfold valid_constants. cbn. lia. Defined.

Lemma pitch_class_value_witness :
  0 < OCTAVE example_constants /\
  exists out : tensor4 Q,
    pitch_class_in_f example_constants 16 (silence 2 16 48) = Ok out /\
    row4 out 1 3 14 = Some (pitch_class_row example_constants 14) /\
    row4 out 1 3 14 = row4 out 1 3 26.
Proof.
  assert (H : 0 < OCTAVE example_constants) by (cbn; lia).
  split; [exact H|].
  destruct (pitch_class_value example_constants 16 (@silence Q _ 2 16 48) H)
    as (out & E & _ & Hrow & Hinv).
  exists out. split; [exact E|]. split.
  - apply (Hrow 1 3 14); cbn; lia.
  - apply (Hinv 1 3 14); cbn; lia.
Defined.

Lemma shift_chosen_correct_witness :
  0 < 16 /\ 0 < NUM_NOTES example_constants /\
  shape4 2 16 (NUM_NOTES example_constants) 2 (@silence Q _ 2 16 48) = true /\
  exists shifted : tensor4 Q,
    shift_chosen example_constants 16
                 (dropout4 0 test_phase DChosen (silence 2 16 48)) = Ok shifted /\
    get4 shifted 1 5 0 1 = Some zero /\
    get4 shifted 1 5 7 1 = get4 (@silence Q _ 2 16 48) 1 5 6 1.
Proof.
  assert (H1 : 0 < 16) by lia.
  assert (H2 : 0 < NUM_NOTES example_constants) by (cbn; lia).
  assert (H3 : shape4 2 16 (NUM_NOTES example_constants) 2 (@silence Q _ 2 16 48) = true)
    by reflexivity.
  split; [exact H1|]. split; [exact H2|]. split; [exact H3|].
  destruct (shift_chosen_correct example_constants 2 16 test_phase _ H1 H2 H3)
    as (shifted & E & _ & Hzero & Hprev).
  exists shifted. split; [exact E|]. split.
  - apply Hzero; lia.
  - apply (Hprev 1 5 7 1); cbn; lia.
Defined.

Lemma notes_out_shape_and_range_witness :
  valid_constants example_constants 16 /\
  shape4 2 16 (NUM_NOTES example_constants) 2 (@silence R _ 2 16 48) = true /\
  shape3 2 16 2 (@quiet R _ 2 16 2) = true /\
  shape3 2 16 (NUM_STYLES example_constants) (@quiet R _ 2 16 4) = true /\
  exists notes_out : tensor4 R,
    call (build_model example_constants 16 (1 # 5) (1 # 2) unit_weights) test_phase
         [Rank4 (silence 2 16 48); Rank4 (silence 2 16 48);
          Rank3 (quiet 2 16 2); Rank3 (quiet 2 16 4)] = Ok notes_out /\
    shape4 2 16 48 2 notes_out = true.
Proof.
  assert (Hn : shape4 2 16 (NUM_NOTES example_constants) 2 (@silence R _ 2 16 48) = true)
    by reflexivity.
  assert (Hb : shape3 2 16 2 (@quiet R _ 2 16 2) = true) by reflexivity.
  assert (Hs : shape3 2 16 (NUM_STYLES example_constants) (@quiet R _ 2 16 4) = true)
    by reflexivity.
  split; [exact example_valid|]. split; [exact Hn|]. split; [exact Hb|].
  split; [exact Hs|].
  destruct (notes_out_shape_and_range example_constants 16 (1 # 5) (1 # 2)
              unit_weights test_phase 2 _ _ _ _ example_valid Hn Hn Hb Hs)
    as (out & E & Hshape & _).
  exists out. split; [exact E|exact Hshape].
Defined.

Lemma compiled_objective_witness :
  0 < 1 /\ 0 < 2 /\ 0 < NUM_NOTES tiny_constants /\
  shape4 1 2 (NUM_NOTES tiny_constants) 2 tiny_target = true /\
  shape4 1 2 (NUM_NOTES tiny_constants) 2 tiny_prediction = true /\
  map loss_function
      (loss (build_model tiny_constants 2 (1 # 5) (1 # 2) unit_weights)) =
    [NotesLoss primary_loss] /\
  get3 (primary_loss tiny_target tiny_prediction) 0 1 2 =
    Some ((spec_binary_crossentropy 0 (clip_probability 0.1) +
           spec_binary_crossentropy 0 (clip_probability 0)) / 2)%R /\
  weighted_objective (primary_loss tiny_target tiny_prediction) =
    spec_average_binary_crossentropy 1 2 4 tiny_target tiny_prediction.
Proof.
  assert (H1 : 0 < 1) by lia.
  assert (H2 : 0 < 2) by lia.
  assert (H3 : 0 < NUM_NOTES tiny_constants) by (cbn; lia).
  assert (Ht : shape4 1 2 (NUM_NOTES tiny_constants) 2 tiny_target = true)
    by reflexivity.
  assert (Hp : shape4 1 2 (NUM_NOTES tiny_constants) 2 tiny_prediction = true)
    by reflexivity.
  split; [exact H1|]. split; [exact H2|]. split; [exact H3|].
  split; [exact Ht|]. split; [exact Hp|].
  destruct (compiled_objective tiny_constants 2 (1 # 5) (1 # 2) unit_weights
              1 _ _ H1 H2 H3 Ht Hp) as (Hl & _ & _ & _ & Hpos & Hobj & _).
  split; [exact Hl|]. split; [|exact Hobj].
  apply (Hpos 0 1 2); cbn; lia.
Defined.

Lemma indivisible_notes_witness :
  0 < OCTAVE ragged_constants /\
  NUM_NOTES ragged_constants mod OCTAVE ragged_constants <> 0 /\
  pitch_bins_f ragged_constants 16 (@silence R _ 2 16 50) = Err ShapeMismatch /\
  pitch_bins_f ragged_constants 16 (@nil (tensor3 R)) = Err ShapeMismatch /\
  call (build_model ragged_constants 16 (1 # 5) (1 # 2) unit_weights) test_phase
       [Rank4 (silence 2 16 50); Rank4 (silence 2 16 50);
        Rank3 (quiet 2 16 2); Rank3 (quiet 2 16 4)] = Err ShapeMismatch /\
  call (build_model ragged_constants 16 (1 # 5) (1 # 2) unit_weights) test_phase
       [Rank4 []; Rank4 []; Rank3 []; Rank3 []] = Err ShapeMismatch.
Proof.
  assert (H1 : 0 < OCTAVE ragged_constants) by (cbn; lia).
  assert (H2 : NUM_NOTES ragged_constants mod OCTAVE ragged_constants <> 0)
    by (cbn; lia).
  assert (Hn : shape4 2 16 (NUM_NOTES ragged_constants) 2 (@silence R _ 2 16 50) = true)
    by reflexivity.
  assert (He : shape4 0 16 (NUM_NOTES ragged_constants) 2 (@nil (tensor3 R)) = true)
    by reflexivity.
  split; [exact H1|]. split; [exact H2|].
  destruct (indivisible_notes ragged_constants 16 (1 # 5) (1 # 2) unit_weights
              test_phase (silence 2 16 50) H1 H2) as (_ & Hbins & Hcall).
  split; [exact (Hbins 2 _ Hn)|]. split; [exact (Hbins 0 _ He)|].
  split; apply Hcall.
Defined.

Lemma inputs_positional_order_witness :
  shape4 2 16 (NUM_NOTES example_constants) 2 (@silence R _ 2 16 48) = true /\
  shape3 2 16 2 (@quiet R _ 2 16 2) = true /\
  shape3 2 16 (NUM_STYLES example_constants) (@quiet R _ 2 16 4) = true /\
  call (build_model example_constants 16 (1 # 5) (1 # 2) unit_weights) test_phase
       [Rank4 (silence 2 16 48); Rank4 (silence 2 16 48);
        Rank3 (quiet 2 16 2); Rank3 (quiet 2 16 4)]
    = forward example_constants 16 (1 # 5) (1 # 2) unit_weights test_phase
              (silence 2 16 48) (silence 2 16 48) (quiet 2 16 2) (quiet 2 16 4) /\
  call (build_model example_constants 16 (1 # 5) (1 # 2) unit_weights) test_phase
       [Rank4 (silence 2 16 48); Rank3 (quiet 2 16 2);
        Rank3 (quiet 2 16 4); Rank4 (silence 2 16 48)]
    = Err ShapeMismatch.
Proof.
  assert (Hn : shape4 2 16 (NUM_NOTES example_constants) 2 (@silence R _ 2 16 48) = true)
    by reflexivity.
  assert (Hb : shape3 2 16 2 (@quiet R _ 2 16 2) = true) by reflexivity.
  assert (Hs : shape3 2 16 (NUM_STYLES example_constants) (@quiet R _ 2 16 4) = true)
    by reflexivity.
  split; [exact Hn|]. split; [exact Hb|]. split; [exact Hs|].
  destruct (inputs_positional_order example_constants 16 unit_weights (1 # 5) (1 # 2)
              test_phase 2 _ _ _ _ Hn Hn Hb Hs) as (_ & Hcall & Hbad).
  split; [exact Hcall|exact Hbad].
Defined.

(** * Further properties of the code *)

(** ** Dropout outside the learning phase *)

Section Inference.
Context {F : Type} {SF : Scalar F} {AF : Activations F}.
Variable K : constants.
Variable time_steps : nat.
Variables input_dropout dropout : Q.
Variable W : weights F.

Lemma dropout_inactive_test (rate : Q) (ph : phase) :
  training ph = false -> dropout_active rate ph = false.
Proof. intros H. unfold dropout_active. rewrite H. apply andb_false_r. Qed.

Lemma dropout3_test (rate : Q) (ph : phase) (s : site) (x : tensor3 F) :
  training ph = false -> dropout3 rate ph s x = x.
Proof. intros H. unfold dropout3. rewrite dropout_inactive_test by exact H. reflexivity. Qed.

Lemma dropout4_test (rate : Q) (ph : phase) (s : site) (x : tensor4 F) :
  training ph = false -> dropout4 rate ph s x = x.
Proof. intros H. unfold dropout4. rewrite dropout_inactive_test by exact H. reflexivity. Qed.

Lemma time_layer_test (ph ph0 : phase) (style : tensor3 F) (st : tensor4 F * nat) (l : nat) :
  training ph = false ->
  time_layer K dropout W ph style st l = time_layer K 0 W ph0 style st l.
Proof.
  intros H. unfold time_layer, style_proj.
  rewrite !dropout4_zero, !dropout3_zero, !dropout4_test, !dropout3_test by exact H.
  reflexivity.
Qed.

Lemma note_layer_test (ph ph0 : phase) (style : tensor3 F) (st : tensor4 F * nat) (l : nat) :
  training ph = false ->
  note_layer K dropout W ph style st l = note_layer K 0 W ph0 style st l.
Proof.
  intros H. unfold note_layer, style_proj.
  rewrite !dropout4_zero, !dropout3_zero, !dropout4_test, !dropout3_test by exact H.
  reflexivity.
Qed.

Lemma forward_test (ph ph0 : phase)
      (notes_in chosen_in : tensor4 F) (beat_in style_in : tensor3 F) :
  training ph = false ->
  forward K time_steps input_dropout dropout W ph notes_in chosen_in beat_in style_in =
  forward K time_steps 0 0 W ph0 notes_in chosen_in beat_in style_in.
Proof.
  intros H.
  unfold forward, note_features, note_octave, style_embedding, beat_embedding.
  rewrite !dropout4_zero, !dropout3_zero, !dropout4_test, !dropout3_test by exact H.
  destruct (pitch_pos_in_f K time_steps notes_in) as [pos|e]; [|reflexivity].
  destruct (pitch_class_in_f K time_steps notes_in) as [cls|e]; [|reflexivity].
  destruct (pitch_bins_f K time_steps notes_in) as [bins|e]; [|reflexivity].
  cbn [bind].
  rewrite (fold_left_ext _ _ _ _ (fun a b => time_layer_test ph ph0 _ a b H)).
  destruct (shift_chosen K time_steps chosen_in) as [shifted|e]; [|reflexivity].
  cbn [bind].
  rewrite (fold_left_ext _ _ _ _ (fun a b => note_layer_test ph ph0 _ a b H)).
  reflexivity.
Qed.

(** X6: outside the learning phase the two dropout rates have no effect: the
    model answers as the model built with both rates 0 does, whatever masks
    the two evaluations draw, on any list of arrays. *)
Theorem inference_ignores_dropout (ph ph0 : phase) (args : list (array F)) :
  training ph = false ->
  call (build_model K time_steps input_dropout dropout W) ph args =
  call (build_model K time_steps 0 0 W) ph0 args.
Proof.
  intros H. unfold call.
  cbn [inputs input_shape build_model].
  destruct (check_arrays _ args) as [batches|]; [|reflexivity].
  destruct (all_equal batches); [|reflexivity].
  unfold build_model. cbn [graph].
  destruct (feed _ args NotesIn) as [[a|n]|]; [reflexivity| |reflexivity].
  destruct (feed _ args ChosenIn) as [[a|c]|]; [reflexivity| |reflexivity].
  destruct (feed _ args BeatIn) as [[b|a]|]; [|reflexivity|reflexivity].
  destruct (feed _ args StyleIn) as [[s|a]|]; [|reflexivity|reflexivity].
  apply forward_test. exact H.
Qed.

End Inference.

(** ** Causality along the pitch axis *)

Lemma firstn_mapi_from {A B} (f : nat -> A -> B) (k : nat) (l : list A) (s : nat) :
  firstn k (mapi_from s f l) = mapi_from s f (firstn k l).
Proof.
  revert k s. induction l as [|a l IH]; intros [|k] s; simpl; try reflexivity.
  now rewrite IH.
Qed.

Lemma map_mapi_from {A B C} (g : B -> C) (f : nat -> A -> B) (l : list A) (s : nat) :
  map g (mapi_from s f l) = mapi_from s (fun i a => g (f i a)) l.
Proof. revert s. induction l; intros; simpl; [reflexivity|]. now rewrite IHl. Qed.

Lemma mapi_from_map {A B C} (f : nat -> B -> C) (g : A -> B) (l : list A) (s : nat) :
  mapi_from s f (map g l) = mapi_from s (fun i a => f i (g a)) l.
Proof. revert s. induction l; intros; simpl; [reflexivity|]. now rewrite IHl. Qed.

Lemma mapi_from_ext {A B} (f g : nat -> A -> B) (l : list A) (s : nat) :
  (forall i a, f i a = g i a) -> mapi_from s f l = mapi_from s g l.
Proof.
  intros H. revert s. induction l; intros; simpl; [reflexivity|].
  now rewrite H, IHl.
Qed.

Lemma map2_firstn_l {A B C} (f : A -> B -> C) (k : nat) (l1 : list A) (l2 : list B) :
  map2 f (firstn k l1) l2 = firstn k (map2 f l1 l2).
Proof.
  revert k l2. induction l1 as [|a l1 IH]; intros [|k] [|b l2]; simpl; try reflexivity.
  now rewrite IH.
Qed.

Lemma map2_firstn_r {A B C} (f : A -> B -> C) (k : nat) (l1 : list A) (l2 : list B) :
  map2 f l1 (firstn k l2) = firstn k (map2 f l1 l2).
Proof.
  revert k l2. induction l1 as [|a l1 IH]; intros [|k] [|b l2]; simpl; try reflexivity.
  now rewrite IH.
Qed.

Lemma map_map2 {A B C D} (g : C -> D) (f : A -> B -> C) (l1 : list A) (l2 : list B) :
  map g (map2 f l1 l2) = map2 (fun a b => g (f a b)) l1 l2.
Proof. symmetry. apply map2_map_out. Qed.

Lemma map2_map_l {A A' B C} (f : A' -> B -> C) (g : A -> A') (l1 : list A) (l2 : list B) :
  map2 f (map g l1) l2 = map2 (fun a b => f (g a) b) l1 l2.
Proof.
  revert l2. induction l1 as [|a l1 IH]; intros [|b l2]; simpl; try reflexivity.
  now rewrite IH.
Qed.

Lemma map2_map_r {A B B' C} (f : A -> B' -> C) (g : B -> B') (l1 : list A) (l2 : list B) :
  map2 f l1 (map g l2) = map2 (fun a b => f a (g b)) l1 l2.
Proof.
  revert l2. induction l1 as [|a l1 IH]; intros [|b l2]; simpl; try reflexivity.
  now rewrite IH.
Qed.

(** Cutting the notes of the first (second) operand of a note-wise zip cuts
    the result. *)
Lemma below_zip_l {A B C} (f : list A -> list B -> list C) (k : nat)
      (x : list (list (list (list A)))) (y : list (list (list (list B)))) :
  map2 (map2 (map2 f)) (below k x) y = below k (map2 (map2 (map2 f)) x y).
Proof.
  unfold below. rewrite map2_map_l, map_map2. apply map2_ext. intros a b.
  rewrite map2_map_l, map_map2. apply map2_ext. intros a' b'.
  apply map2_firstn_l.
Qed.

Lemma below_zip_r {A B C} (f : list A -> list B -> list C) (k : nat)
      (x : list (list (list (list A)))) (y : list (list (list (list B)))) :
  map2 (map2 (map2 f)) x (below k y) = below k (map2 (map2 (map2 f)) x y).
Proof.
  unfold below. rewrite map2_map_r, map_map2. apply map2_ext. intros a b.
  rewrite map2_map_r, map_map2. apply map2_ext. intros a' b'.
  apply map2_firstn_r.
Qed.

Lemma below_map {A B} (f : A -> B) (k : nat) (x : list (list (list A))) :
  below k (map (map (map f)) x) = map (map (map f)) (below k x).
Proof.
  unfold below. rewrite !map_map. apply map_ext. intros a.
  rewrite !map_map. apply map_ext. intros a'. apply firstn_map.
Qed.

Section Causality.
Context {F : Type} {SF : Scalar F} {AF : Activations F}.

Lemma below_dropout4 (rate : Q) (ph : phase) (s : site) (k : nat) (x : tensor4 F) :
  below k (dropout4 rate ph s x) = dropout4 rate ph s (below k x).
Proof.
  unfold dropout4. destruct (dropout_active rate ph); [|reflexivity].
  unfold below, mapi.
  rewrite map_mapi_from, mapi_from_map. apply mapi_from_ext. intros b y.
  rewrite map_mapi_from, mapi_from_map. apply mapi_from_ext. intros t notes.
  apply firstn_mapi_from.
Qed.

Lemma firstn_lstm_run (units : nat) (w : lstm_w F) (k : nat) (xs : tensor2 F) :
  forall hc,
    firstn k (lstm_run units w hc xs) = lstm_run units w hc (firstn k xs).
Proof.
  revert k. induction xs as [|x xs IH]; intros [|k] hc; simpl; try reflexivity.
  now rewrite IH.
Qed.

(** The recurrent layer is causal: its first [k] outputs are its outputs on
    the first [k] inputs. *)
Lemma firstn_lstm (units : nat) (w : lstm_w F) (k : nat) (xs : tensor2 F) :
  firstn k (lstm units w xs) = lstm units w (firstn k xs).
Proof. apply firstn_lstm_run. Qed.

Lemma below_lstm (units : nat) (w : lstm_w F) (k : nat) (x : tensor4 F) :
  below k (time_distributed (lstm units w) x) =
  time_distributed (lstm units w) (below k x).
Proof.
  unfold below, time_distributed. rewrite !map_map. apply map_ext. intros a.
  rewrite !map_map. apply map_ext. intros xs. apply firstn_lstm.
Qed.

Variable K : constants.
Variable time_steps : nat.
Variables input_dropout dropout : Q.
Variable W : weights F.
Variable ph : phase.

Lemma note_layer_below (k : nat) (style : tensor3 F) (st : tensor4 F * nat) (l : nat) :
  below k (fst (note_layer K dropout W ph style st l)) =
  fst (note_layer K dropout W ph style (below k (fst st), snd st) l).
Proof.
  unfold note_layer. cbn [fst snd].
  rewrite below_dropout4, below_lstm. unfold add4.
  rewrite below_zip_l. reflexivity.
Qed.

Lemma note_stack_below (k : nat) (style : tensor3 F) (ls : list nat) :
  forall st,
    below k (fst (fold_left (note_layer K dropout W ph style) ls st)) =
    fst (fold_left (note_layer K dropout W ph style) ls (below k (fst st), snd st)).
Proof.
  induction ls as [|l ls IH]; intros st; cbn [fold_left]; [reflexivity|].
  rewrite IH, note_layer_below. reflexivity.
Qed.

Lemma out_layer_below (k : nat) (x : tensor4 F) :
  below k (map4 sigmoid (dense4 2 (w_out W) x)) =
  map4 sigmoid (dense4 2 (w_out W) (below k x)).
Proof. unfold map4, dense4. rewrite !below_map. reflexivity. Qed.

Lemma below_shift_rows (i : nat) (x : tensor4 F) (B T N : nat) :
  i < N -> shape4 B T N 2 x = true ->
  below (S i) (map (map shift_rows) x) =
  map (map (cons (repeat zero 2))) (below i x).
Proof.
  intros Hi Hx. unfold below. rewrite !map_map.
  apply map_ext_in. intros xb Hxb. rewrite !map_map.
  apply map_ext_in. intros notes Hnotes.
  apply shape4_iff in Hx. destruct Hx as [_ Hx]. rewrite Forall_forall in Hx.
  pose proof (shape3_In _ _ _ _ _ (Hx _ Hxb) Hnotes) as Hn.
  apply shape2_length in Hn.
  unfold shift_rows. cbn [repeat app firstn]. rewrite app_nil_r.
  rewrite firstn_removelast by lia. reflexivity.
Qed.

(** On valid inputs [notes_out] is the output layer on the note stack run
    from the time-stack result [X] joined with the shifted target. *)
Lemma forward_in_chosen (B : nat) (notes_in : tensor4 F) (beat_in style_in : tensor3 F) :
  valid_constants K time_steps ->
  shape4 B time_steps (NUM_NOTES K) 2 notes_in = true ->
  shape3 B time_steps 2 beat_in = true ->
  shape3 B time_steps (NUM_STYLES K) style_in = true ->
  exists X w0 style,
    forall chosen_in,
      shape4 B time_steps (NUM_NOTES K) 2 chosen_in = true ->
      forward K time_steps input_dropout dropout W ph notes_in chosen_in beat_in style_in =
      Ok (map4 sigmoid (dense4 2 (w_out W)
            (fst (fold_left (note_layer K dropout W ph style) (seq 0 (NOTE_AXIS_LAYERS K))
                    (concat4 X (map (map shift_rows)
                                    (dropout4 input_dropout ph DChosen chosen_in)),
                     w0))))).
Proof.
  intros Hv Hnotes Hbeat Hstyle.
  pose proof (beat_embedding_shape K time_steps input_dropout dropout W ph
                B _ beat_in Hbeat) as Hb.
  destruct (note_features_ok K time_steps dropout W ph B _ _ Hv
              (dropout4_shape4 input_dropout ph DNotes _ _ _ _ _ Hnotes) Hb)
    as (features & Ef & _).
  destruct Hv as (HT & HO & HN & Hdiv).
  eexists. eexists. eexists. intros chosen_in Hchosen.
  unfold forward. rewrite Ef. cbn [bind].
  destruct (shift_chosen_closed K B time_steps _ HT HN
              (dropout4_shape4 input_dropout ph DChosen _ _ _ _ _ Hchosen))
    as [Eshift _].
  rewrite Eshift. cbn [bind]. reflexivity.
Qed.

(** Two targets that agree below pitch index [i] give outputs that agree up
    to and including pitch index [i]. *)
Lemma forward_below (B : nat) (notes_in chosen chosen' : tensor4 F)
      (beat_in style_in : tensor3 F) (i : nat) :
  valid_constants K time_steps ->
  shape4 B time_steps (NUM_NOTES K) 2 notes_in = true ->
  shape3 B time_steps 2 beat_in = true ->
  shape3 B time_steps (NUM_STYLES K) style_in = true ->
  shape4 B time_steps (NUM_NOTES K) 2 chosen = true ->
  shape4 B time_steps (NUM_NOTES K) 2 chosen' = true ->
  i < NUM_NOTES K ->
  below i chosen = below i chosen' ->
  exists out out',
    forward K time_steps input_dropout dropout W ph notes_in chosen beat_in style_in
      = Ok out /\
    forward K time_steps input_dropout dropout W ph notes_in chosen' beat_in style_in
      = Ok out' /\
    shape4 B time_steps (NUM_NOTES K) 2 out = true /\
    shape4 B time_steps (NUM_NOTES K) 2 out' = true /\
    below (S i) out = below (S i) out'.
Proof.
  intros Hv Hnotes Hbeat Hstyle Hc Hc' Hi Hagree.
  destruct (forward_in_chosen B notes_in beat_in style_in Hv Hnotes Hbeat Hstyle)
    as (X & w0 & style & Hf).
  destruct (forward_ok K time_steps input_dropout dropout W ph B
              notes_in chosen beat_in style_in Hv Hnotes Hc Hbeat Hstyle)
    as (x & Hx & E).
  destruct (forward_ok K time_steps input_dropout dropout W ph B
              notes_in chosen' beat_in style_in Hv Hnotes Hc' Hbeat Hstyle)
    as (x' & Hx' & E').
  eexists. eexists.
  split; [exact E|]. split; [exact E'|].
  split; [apply dense_out_shape; exact Hx|].
  split; [apply dense_out_shape; exact Hx'|].
  assert (Eo : Ok (map4 sigmoid (dense4 2 (w_out W) x)) = _)
    by (rewrite <- E; apply (Hf chosen Hc)).
  assert (Eo' : Ok (map4 sigmoid (dense4 2 (w_out W) x')) = _)
    by (rewrite <- E'; apply (Hf chosen' Hc')).
  injection Eo as ->. injection Eo' as ->.
  rewrite !out_layer_below, !note_stack_below. cbn [fst snd].
  unfold concat4. rewrite <- !below_zip_r.
  rewrite !(below_shift_rows i _ B time_steps (NUM_NOTES K))
    by (try exact Hi; apply dropout4_shape4; assumption).
  rewrite !below_dropout4, Hagree. reflexivity.
Qed.

End Causality.

Lemma below_all {A} (B T N : nat) (x : list (list (list A))) :
  shape3 B T N x = true -> below N x = x.
Proof.
  intros H. unfold below.
  rewrite <- (map_id x) at 2. apply map_ext_in. intros y Hy.
  rewrite <- (map_id y) at 2. apply map_ext_in. intros v Hv.
  apply firstn_all2.
  rewrite (shape2_In _ _ _ _ (shape3_In _ _ _ _ _ H Hy) Hv). lia.
Qed.

(** X7: the model is autoregressive along the pitch axis: on valid inputs, two
    targets that agree at every pitch index below [i] give outputs that agree
    at every pitch index up to and including [i], whatever the targets hold
    from [i] on. *)
Theorem pitch_causality {F} {SF : Scalar F} {AF : Activations F}
        (K : constants) (time_steps : nat) (input_dropout dropout : Q)
        (W : weights F) (ph : phase) (B : nat)
        (notes chosen chosen' : tensor4 F) (beat style : tensor3 F) (i : nat) :
  valid_constants K time_steps ->
  shape4 B time_steps (NUM_NOTES K) 2 notes = true ->
  shape3 B time_steps 2 beat = true ->
  shape3 B time_steps (NUM_STYLES K) style = true ->
  shape4 B time_steps (NUM_NOTES K) 2 chosen = true ->
  shape4 B time_steps (NUM_NOTES K) 2 chosen' = true ->
  i < NUM_NOTES K ->
  below i chosen = below i chosen' ->
  exists out out',
    call (build_model K time_steps input_dropout dropout W) ph
         [Rank4 notes; Rank4 chosen; Rank3 beat; Rank3 style] = Ok out /\
    call (build_model K time_steps input_dropout dropout W) ph
         [Rank4 notes; Rank4 chosen'; Rank3 beat; Rank3 style] = Ok out' /\
    below (S i) out = below (S i) out'.
Proof.
  intros Hv Hn Hb Hs Hc Hc' Hi Hagree.
  destruct (forward_below K time_steps input_dropout dropout W ph B
              notes chosen chosen' beat style i Hv Hn Hb Hs Hc Hc' Hi Hagree)
    as (out & out' & E & E' & _ & _ & Hout).
  exists out, out'.
  rewrite !(call_build_model K time_steps input_dropout dropout W ph B) by assumption.
  auto.
Qed.

(** X8: the target at the highest pitch is never read: on valid inputs, two
    targets that differ only at the highest pitch index give the same
    output. *)
Theorem top_note_never_read {F} {SF : Scalar F} {AF : Activations F}
        (K : constants) (time_steps : nat) (input_dropout dropout : Q)
        (W : weights F) (ph : phase) (B : nat)
        (notes chosen chosen' : tensor4 F) (beat style : tensor3 F) :
  valid_constants K time_steps ->
  shape4 B time_steps (NUM_NOTES K) 2 notes = true ->
  shape3 B time_steps 2 beat = true ->
  shape3 B time_steps (NUM_STYLES K) style = true ->
  shape4 B time_steps (NUM_NOTES K) 2 chosen = true ->
  shape4 B time_steps (NUM_NOTES K) 2 chosen' = true ->
  below (NUM_NOTES K - 1) chosen = below (NUM_NOTES K - 1) chosen' ->
  call (build_model K time_steps input_dropout dropout W) ph
       [Rank4 notes; Rank4 chosen; Rank3 beat; Rank3 style] =
  call (build_model K time_steps input_dropout dropout W) ph
       [Rank4 notes; Rank4 chosen'; Rank3 beat; Rank3 style].
Proof.
  intros Hv Hn Hb Hs Hc Hc' Hagree.
  assert (HN : 0 < NUM_NOTES K) by (destruct Hv as (_ & _ & H & _); exact H).
  destruct (forward_below K time_steps input_dropout dropout W ph B
              notes chosen chosen' beat style (NUM_NOTES K - 1)
              Hv Hn Hb Hs Hc Hc' ltac:(lia) Hagree)
    as (out & out' & E & E' & Ho & Ho' & Hout).
  rewrite !(call_build_model K time_steps input_dropout dropout W ph B) by assumption.
  rewrite E, E'. f_equal.
  replace (S (NUM_NOTES K - 1)) with (NUM_NOTES K) in Hout by lia.
  rewrite (below_all B time_steps (NUM_NOTES K) out) in Hout
    by (eapply shape4_prefix; exact Ho).
  rewrite (below_all B time_steps (NUM_NOTES K) out') in Hout
    by (eapply shape4_prefix; exact Ho').
  exact Hout.
Qed.

Lemma inference_ignores_dropout_witness :
  training test_phase = false /\
  call (build_model example_constants 16 (1 # 5) (1 # 2) unit_weights) test_phase
       [Rank4 (silence 2 16 48); Rank4 (silence 2 16 48);
        Rank3 (quiet 2 16 2); Rank3 (quiet 2 16 4)] =
  call (build_model example_constants 16 0 0 unit_weights) test_phase
       [Rank4 (silence 2 16 48); Rank4 (silence 2 16 48);
        Rank3 (quiet 2 16 2); Rank3 (quiet 2 16 4)].
Proof.
  assert (H : training test_phase = false) by reflexivity.
  split; [exact H|].
  apply (inference_ignores_dropout example_constants 16 (1 # 5) (1 # 2) unit_weights
           test_phase test_phase _ H).
Defined.

Lemma pitch_causality_witness :
  valid_constants example_constants 16 /\
  shape4 2 16 (NUM_NOTES example_constants) 2 (@top_note_on R _ 2 16 48) = true /\
  47 < NUM_NOTES example_constants /\
  below 47 (@silence R _ 2 16 48) = below 47 (top_note_on 2 16 48) /\
  exists out out',
    call (build_model example_constants 16 (1 # 5) (1 # 2) unit_weights) test_phase
         [Rank4 (silence 2 16 48); Rank4 (silence 2 16 48);
          Rank3 (quiet 2 16 2); Rank3 (quiet 2 16 4)] = Ok out /\
    call (build_model example_constants 16 (1 # 5) (1 # 2) unit_weights) test_phase
         [Rank4 (silence 2 16 48); Rank4 (top_note_on 2 16 48);
          Rank3 (quiet 2 16 2); Rank3 (quiet 2 16 4)] = Ok out' /\
    below 48 out = below 48 out'.
Proof.
  assert (Hn : shape4 2 16 (NUM_NOTES example_constants) 2 (@silence R _ 2 16 48) = true)
    by reflexivity.
  assert (Hc : shape4 2 16 (NUM_NOTES example_constants) 2 (@top_note_on R _ 2 16 48) = true)
    by reflexivity.
  assert (Hb : shape3 2 16 2 (@quiet R _ 2 16 2) = true) by reflexivity.
  assert (Hs : shape3 2 16 (NUM_STYLES example_constants) (@quiet R _ 2 16 4) = true)
    by reflexivity.
  assert (Hi : 47 < NUM_NOTES example_constants) by (cbn; lia).
  assert (Ha : below 47 (@silence R _ 2 16 48) = below 47 (top_note_on 2 16 48))
    by reflexivity.
  split; [exact example_valid|]. split; [exact Hc|]. split; [exact Hi|].
  split; [exact Ha|].
  exact (pitch_causality example_constants 16 (1 # 5) (1 # 2) unit_weights test_phase 2
           _ _ _ _ _ 47 example_valid Hn Hb Hs Hn Hc Hi Ha).
Defined.

Lemma top_note_never_read_witness :
  valid_constants example_constants 16 /\
  below (NUM_NOTES example_constants - 1) (@silence R _ 2 16 48) =
    below (NUM_NOTES example_constants - 1) (top_note_on 2 16 48) /\
  call (build_model example_constants 16 (1 # 5) (1 # 2) unit_weights) test_phase
       [Rank4 (silence 2 16 48); Rank4 (silence 2 16 48);
        Rank3 (quiet 2 16 2); Rank3 (quiet 2 16 4)] =
  call (build_model example_constants 16 (1 # 5) (1 # 2) unit_weights) test_phase
       [Rank4 (silence 2 16 48); Rank4 (top_note_on 2 16 48);
        Rank3 (quiet 2 16 2); Rank3 (quiet 2 16 4)].
Proof.
  assert (Hn : shape4 2 16 (NUM_NOTES example_constants) 2 (@silence R _ 2 16 48) = true)
    by reflexivity.
  assert (Hc : shape4 2 16 (NUM_NOTES example_constants) 2 (@top_note_on R _ 2 16 48) = true)
    by reflexivity.
  assert (Hb : shape3 2 16 2 (@quiet R _ 2 16 2) = true) by reflexivity.
  assert (Hs : shape3 2 16 (NUM_STYLES example_constants) (@quiet R _ 2 16 4) = true)
    by reflexivity.
  assert (Ha : below (NUM_NOTES example_constants - 1) (@silence R _ 2 16 48) =
               below (NUM_NOTES example_constants - 1) (top_note_on 2 16 48))
    by reflexivity.
  split; [exact example_valid|]. split; [exact Ha|].
  exact (top_note_never_read example_constants 16 (1 # 5) (1 # 2) unit_weights
           test_phase 2 _ _ _ _ _ example_valid Hn Hb Hs Hn Hc Ha).
Defined.

(** ** The two Permute layers *)

Lemma map2_nil_r {A B C} (f : A -> B -> C) (l : list A) : map2 f l [] = [].
Proof. destruct l; reflexivity. Qed.

Lemma transpose_zero {A} (m : list (list A)) : transpose 0 m = [].
Proof.
  induction m as [|r m IH]; [reflexivity|]. cbn [transpose].
  rewrite IH. apply map2_nil_r.
Qed.

(** Transposing after a column has been put in front of every row puts that
    column in front as a row. *)
Lemma transpose_cons_column {A} (r : nat) (col : list A) (M : list (list A)) :
  length col = length M ->
  transpose (S r) (map2 cons col M) = col :: transpose r M.
Proof.
  revert M. induction col as [|a col IH]; intros [|row M] Hlen;
    simpl in Hlen; try discriminate.
  - reflexivity.
  - cbn [map2 transpose]. rewrite IH by lia. reflexivity.
Qed.

Lemma transpose_involutive {A} (r c : nat) (m : list (list A)) :
  shape2 r c m = true -> transpose r (transpose c m) = m.
Proof.
  revert r. induction m as [|row m IH]; intros r H.
  - apply shape2_length in H. simpl in H. subst r. apply transpose_zero.
  - pose proof (shape2_length _ _ _ H) as Hlen. simpl in Hlen.
    destruct r as [|r]; [discriminate|].
    assert (Hrow : length row = c) by (eapply shape2_In; [exact H|left; reflexivity]).
    assert (Hm : shape2 r c m = true).
    { apply shape2_intro; [lia|]. intros v Hv.
      eapply shape2_In; [exact H|right; exact Hv]. }
    cbn [transpose]. rewrite transpose_cons_column.
    + rewrite (IH r Hm). reflexivity.
    + rewrite Hrow. symmetry. eapply shape2_length. apply transpose_shape. exact Hm.
Qed.

Lemma nth_error_map2 {A B C} (f : A -> B -> C) (l1 : list A) (l2 : list B) (j : nat) :
  nth_error (map2 f l1 l2) j =
  match nth_error l1 j, nth_error l2 j with
  | Some a, Some b => Some (f a b)
  | _, _ => None
  end.
Proof.
  revert l2 j. induction l1 as [|a l1 IH]; intros [|b l2] [|j]; simpl; try reflexivity.
  - destruct (nth_error l1 j); reflexivity.
  - apply IH.
Qed.

(** Entry (j, i) of the transposed matrix is entry (i, j) of the matrix. *)
Lemma nth_error_transpose {A} (r c : nat) (m : list (list A)) (i j : nat) :
  shape2 r c m = true -> i < r -> j < c ->
  match nth_error (transpose c m) j with
  | Some col => nth_error col i
  | None => None
  end =
  match nth_error m i with
  | Some row => nth_error row j
  | None => None
  end.
Proof.
  revert r i. induction m as [|row m IH]; intros r i H Hi Hj.
  - apply shape2_length in H. simpl in H. lia.
  - pose proof (shape2_length _ _ _ H) as Hlen. simpl in Hlen.
    destruct r as [|r]; [discriminate|].
    assert (Hrow : length row = c) by (eapply shape2_In; [exact H|left; reflexivity]).
    assert (Hm : shape2 r c m = true).
    { apply shape2_intro; [lia|]. intros v Hv.
      eapply shape2_In; [exact H|right; exact Hv]. }
    pose proof (transpose_shape r c m Hm) as Ht.
    cbn [transpose]. rewrite nth_error_map2.
    destruct (nth_error row j) as [a|] eqn:Ea;
      [|apply nth_error_None in Ea; lia].
    destruct (nth_error (transpose c m) j) as [col|] eqn:Ec;
      [|apply nth_error_None in Ec; rewrite (shape2_length _ _ _ Ht) in Ec; lia].
    destruct i as [|i]; cbn [nth_error]; [exact (eq_sym Ea)|].
    exact (IH r i Hm ltac:(lia) Hj).
Qed.

(** X9: [Permute((2, 1, 3))] exchanges the time and the note axis, and applied
    twice gives the tensor back: what leaves the time-axis stack is laid out
    as (batch, time, notes, features) again. *)
Theorem permute_round_trip {A} (B T N : nat) (x : list (list (list A))) :
  shape3 B T N x = true ->
  permute213 T (permute213 N x) = x /\
  forall b t n, b < B -> t < T -> n < N ->
    get3 (permute213 N x) b n t = get3 x b t n.
Proof.
  intros H. split.
  - unfold permute213. rewrite map_map.
    rewrite <- (map_id x) at 2. apply map_ext_in. intros y Hy.
    apply transpose_involutive. eapply shape3_In; eassumption.
  - intros b t n Hb Ht Hn. unfold get3, permute213. rewrite nth_error_map.
    destruct (nth_error x b) as [y|] eqn:Ey;
      [|apply nth_error_None in Ey; rewrite (shape3_length _ _ _ _ H) in Ey; lia].
    cbn [option_map].
    apply (nth_error_transpose T N y t n); try assumption.
    eapply shape3_In; [exact H|]. eapply nth_error_In; exact Ey.
Qed.

Lemma permute_round_trip_witness :
  shape3 1 2 4 tiny_notes = true /\
  permute213 2 (permute213 4 tiny_notes) = tiny_notes /\
  get3 (permute213 4 tiny_notes) 0 3 1 = get3 tiny_notes 0 1 3.
Proof.
  assert (H : shape3 1 2 4 tiny_notes = true) by reflexivity.
  split; [exact H|].
  destruct (permute_round_trip 1 2 4 tiny_notes H) as [H1 H2].
  split; [exact H1|]. apply H2; lia.
Defined.

(** ** Widths of the tensors inside the graph *)

Lemma shape4_intro {A} (n m k c : nat) (x : list (list (list (list A)))) :
  shape3 n m k x = true ->
  (forall y z r, In y x -> In z y -> In r z -> length r = c) ->
  shape4 n m k c x = true.
Proof.
  intros H Hr. apply shape4_iff. split; [eapply shape3_length; eassumption|].
  apply Forall_forall. intros y Hy.
  pose proof (shape3_In _ _ _ _ _ H Hy) as H2.
  apply shape3_iff. split; [eapply shape2_length; eassumption|].
  apply Forall_forall. intros z Hz.
  apply shape2_iff. split; [eapply shape2_In; eassumption|].
  apply Forall_forall. intros r Hin. eapply Hr; eassumption.
Qed.

Lemma shape4_rows {A} (n m k c : nat) (x : list (list (list (list A)))) y z r :
  shape4 n m k c x = true -> In y x -> In z y -> In r z -> length r = c.
Proof.
  intros H Hy Hz Hr. apply shape4_iff in H. destruct H as [_ H].
  rewrite Forall_forall in H.
  eapply shape2_In; [|exact Hr]. eapply shape3_In; [|exact Hz]. apply H. exact Hy.
Qed.

Lemma In_map2 {A B C} (f : A -> B -> C) (l1 : list A) (l2 : list B) (c : C) :
  In c (map2 f l1 l2) -> exists a b, In a l1 /\ In b l2 /\ c = f a b.
Proof.
  revert l2. induction l1 as [|a l1 IH]; intros [|b l2] H; simpl in H; try contradiction.
  destruct H as [H|H].
  - exists a, b. simpl. auto.
  - destruct (IH l2 H) as (a' & b' & Ha & Hb & E). exists a', b'. simpl. auto.
Qed.

Lemma shape4_zip {A B C} (f : list A -> list B -> list C) (n m k c1 c2 c : nat)
      (x : list (list (list (list A)))) (y : list (list (list (list B)))) :
  (forall r1 r2, length r1 = c1 -> length r2 = c2 -> length (f r1 r2) = c) ->
  shape4 n m k c1 x = true -> shape4 n m k c2 y = true ->
  shape4 n m k c (map2 (map2 (map2 f)) x y) = true.
Proof.
  intros Hf Hx Hy. apply shape4_intro.
  - apply shape3_map2; eapply shape4_prefix; eassumption.
  - intros a b r Ha Hb Hr.
    apply In_map2 in Ha. destruct Ha as (a1 & a2 & Ha1 & Ha2 & ->).
    apply In_map2 in Hb. destruct Hb as (b1 & b2 & Hb1 & Hb2 & ->).
    apply In_map2 in Hr. destruct Hr as (r1 & r2 & Hr1 & Hr2 & ->).
    apply Hf.
    + eapply (shape4_rows _ _ _ _ x); eassumption.
    + eapply (shape4_rows _ _ _ _ y); eassumption.
Qed.

Lemma shape4_map_rows {A B} (f : list A -> list B) (n m k c : nat)
      (x : list (list (list (list A)))) :
  (forall r, length (f r) = c) ->
  shape3 n m k x = true ->
  shape4 n m k c (map (map (map f)) x) = true.
Proof.
  intros Hf H. apply shape4_intro; [apply shape3_map; exact H|].
  intros y z r Hy Hz Hr.
  apply in_map_iff in Hy. destruct Hy as (y0 & <- & _).
  apply in_map_iff in Hz. destruct Hz as (z0 & <- & _).
  apply in_map_iff in Hr. destruct Hr as (r0 & <- & _).
  apply Hf.
Qed.

Lemma In_transpose {A} (c : nat) (m : list (list A)) (col : list A) (a : A) :
  In col (transpose c m) -> In a col -> exists row, In row m /\ In a row.
Proof.
  revert col. induction m as [|row m IH]; intros col Hcol Ha.
  - cbn [transpose] in Hcol. apply repeat_spec in Hcol. subst col. contradiction.
  - cbn [transpose] in Hcol. apply In_map2 in Hcol.
    destruct Hcol as (x & col' & Hx & Hcol' & ->).
    destruct Ha as [<-|Ha].
    + exists row. split; [left; reflexivity|exact Hx].
    + destruct (IH col' Hcol' Ha) as (row' & Hr & Hin).
      exists row'. split; [right; exact Hr|exact Hin].
Qed.

Lemma permute213_shape4 {A} (n r c w : nat) (x : list (list (list (list A)))) :
  shape4 n r c w x = true -> shape4 n c r w (permute213 c x) = true.
Proof.
  intros H. apply shape4_intro.
  - apply permute213_shape. eapply shape4_prefix; exact H.
  - intros y z v Hy Hz Hv. unfold permute213 in Hy.
    apply in_map_iff in Hy. destruct Hy as (y0 & <- & Hy0).
    destruct (In_transpose _ _ _ _ Hz Hv) as (row & Hrow & Hin).
    eapply (shape4_rows _ _ _ _ x); eassumption.
Qed.

Section Widths.
Context {F : Type} {SF : Scalar F} {AF : Activations F}.

Lemma length_lstm_step (units : nat) (w : lstm_w F) (hc : list F * list F) (x : list F) :
  length (snd hc) = units ->
  length (fst (lstm_step units w hc x)) = units /\
  length (snd (lstm_step units w hc x)) = units.
Proof.
  intros H. unfold lstm_step. cbn [fst snd]. rewrite !length_mapi. auto.
Qed.

Lemma lstm_run_rows (units : nat) (w : lstm_w F) (xs : tensor2 F) :
  forall hc, length (snd hc) = units ->
    Forall (fun h => length h = units) (lstm_run units w hc xs).
Proof.
  induction xs as [|x xs IH]; intros hc H; cbn [lstm_run]; constructor.
  - apply length_lstm_step. exact H.
  - apply IH. apply length_lstm_step. exact H.
Qed.

(** Every output of [LSTM(units)] has [units] entries. *)
Lemma lstm_rows (units : nat) (w : lstm_w F) (xs : tensor2 F) :
  Forall (fun h => length h = units) (lstm units w xs).
Proof. apply lstm_run_rows. cbn [snd]. apply repeat_length. Qed.

Lemma lstm_shape4 (units : nat) (w : lstm_w F) (n m k : nat) (x : tensor4 F) :
  shape3 n m k x = true ->
  shape4 n m k units (time_distributed (lstm units w) x) = true.
Proof.
  intros H. apply shape4_intro.
  - unfold time_distributed. apply shape3_map_rows; [intros; apply length_lstm|exact H].
  - intros y z r Hy Hz Hr. unfold time_distributed in Hy.
    apply in_map_iff in Hy. destruct Hy as (y0 & <- & _).
    apply in_map_iff in Hz. destruct Hz as (z0 & <- & _).
    pose proof (lstm_rows units w z0) as Hrows. rewrite Forall_forall in Hrows.
    apply Hrows. exact Hr.
Qed.

Lemma dense3_shape3 (units : nat) (w : dense_w F) (n m : nat) (x : tensor3 F) :
  shape2 n m x = true -> shape3 n m units (dense3 units w x) = true.
Proof.
  intros H. unfold dense3. apply shape3_intro.
  - rewrite length_map. eapply shape2_length; eassumption.
  - intros y Hy. apply in_map_iff in Hy. destruct Hy as (y0 & <- & Hy0).
    apply shape2_intro.
    + rewrite length_map. eapply shape2_In; eassumption.
    + intros v Hv. apply in_map_iff in Hv. destruct Hv as (r & <- & _).
      apply length_dense.
Qed.

Lemma map3_shape3 (f : F -> F) (n m k : nat) (x : tensor3 F) :
  shape3 n m k x = true -> shape3 n m k (map3 f x) = true.
Proof. apply shape3_map. Qed.

Lemma dropout3_shape3 (rate : Q) (ph : phase) (s : site) (n m k : nat) (x : tensor3 F) :
  shape3 n m k x = true -> shape3 n m k (dropout3 rate ph s x) = true.
Proof.
  intros H. unfold dropout3. destruct (dropout_active rate ph); [|exact H].
  apply (shape3_mapi (fun b t i => drop rate (keep ph s [b; t; i]))). exact H.
Qed.

Lemma repeat_vector_shape4 (n m k c : nat) (x : tensor3 F) :
  shape3 n m c x = true -> shape4 n m k c (repeat_vector k x) = true.
Proof.
  intros H. apply shape4_intro.
  - apply repeat_vector_shape. eapply shape3_prefix; exact H.
  - intros y z r Hy Hz Hr. unfold repeat_vector, time_distributed in Hy.
    apply in_map_iff in Hy. destruct Hy as (y0 & <- & Hy0).
    apply in_map_iff in Hz. destruct Hz as (v & <- & Hv).
    apply repeat_spec in Hr. subst r.
    eapply shape2_In; [|exact Hv]. eapply shape3_In; eassumption.
Qed.

Lemma conv1d_rows (filters ksize channels : nat) (w : conv_w F) (x : tensor2 F) :
  Forall (fun r => length r = filters) (conv1d_same filters ksize channels w x).
Proof.
  unfold conv1d_same. apply Forall_map, Forall_forall. intros n _.
  rewrite length_map, length_seq. reflexivity.
Qed.

Variable K : constants.
Variable time_steps : nat.
Variables input_dropout dropout : Q.
Variable W : weights F.
Variable ph : phase.

Lemma note_octave_shape4 (B N : nat) (notes : tensor4 F) :
  shape3 B time_steps N notes = true ->
  shape4 B time_steps N (OCTAVE_UNITS K) (note_octave K dropout W ph notes) = true.
Proof.
  intros H. unfold note_octave. apply dropout4_shape4.
  apply shape4_intro.
  - unfold map4. apply (shape3_map (map tanh)).
    unfold time_distributed. apply shape3_map_rows; [|exact H].
    intros l. apply length_conv1d_same.
  - intros y z r Hy Hz Hr. unfold map4, time_distributed in Hy.
    rewrite map_map in Hy.
    apply in_map_iff in Hy. destruct Hy as (y0 & <- & _).
    rewrite map_map in Hz.
    apply in_map_iff in Hz. destruct Hz as (z0 & <- & _).
    apply in_map_iff in Hr. destruct Hr as (r0 & <- & Hr0).
    rewrite length_map.
    pose proof (conv1d_rows (OCTAVE_UNITS K) (2 * OCTAVE K) 2 (w_conv W) z0) as Hc.
    rewrite Forall_forall in Hc. apply Hc. exact Hr0.
Qed.

Lemma beat_embedding_shape3 (B C : nat) (beat_in : tensor3 F) :
  shape3 B time_steps C beat_in = true ->
  shape3 B time_steps (BEAT_UNITS K)
         (beat_embedding K input_dropout dropout W ph beat_in) = true.
Proof.
  intros H. unfold beat_embedding.
  apply dropout3_shape3, map3_shape3, dense3_shape3, dropout3_shape.
  eapply shape3_prefix; exact H.
Qed.

Lemma style_embedding_shape3 (B S : nat) (style_in : tensor3 F) :
  shape3 B time_steps S style_in = true ->
  shape3 B time_steps (STYLE_UNITS K)
         (style_embedding K input_dropout dropout W ph style_in) = true.
Proof.
  intros H. unfold style_embedding.
  apply dropout3_shape3, dense3_shape3, dropout3_shape.
  eapply shape3_prefix; exact H.
Qed.

Lemma style_proj_shape4 (B width : nat) (w : dense_w F) (s : site) (style : tensor3 F) :
  shape2 B time_steps style = true ->
  shape4 B time_steps (NUM_NOTES K) width (style_proj K dropout ph width w s style) = true.
Proof.
  intros H. unfold style_proj.
  apply repeat_vector_shape4, dropout3_shape3, map3_shape3, dense3_shape3. exact H.
Qed.

End Widths.

Section WidthResults.
Context {F : Type} {SF : Scalar F} {AF : Activations F}.
Variable K : constants.
Variable time_steps : nat.
Variables input_dropout dropout : Q.
Variable W : weights F.
Variable ph : phase.

Lemma concat4_shape4 (n m k c1 c2 : nat) (x y : tensor4 F) :
  shape4 n m k c1 x = true -> shape4 n m k c2 y = true ->
  shape4 n m k (c1 + c2) (concat4 x y) = true.
Proof.
  apply shape4_zip. intros r1 r2 H1 H2. rewrite length_app. lia.
Qed.

Lemma add4_shape4 (n m k c : nat) (x y : tensor4 F) :
  shape4 n m k c x = true -> shape4 n m k c y = true ->
  shape4 n m k c (add4 x y) = true.
Proof.
  apply shape4_zip. intros r1 r2 H1 H2. rewrite length_map2. lia.
Qed.

(** X10: the Concatenate of the five per-note features has
    1 + OCTAVE + 1 + OCTAVE_UNITS + BEAT_UNITS entries at every batch element,
    time step and note. *)
Theorem note_features_width (B : nat) (notes_in : tensor4 F) (beat_in : tensor3 F) :
  valid_constants K time_steps ->
  shape4 B time_steps (NUM_NOTES K) 2 notes_in = true ->
  shape3 B time_steps 2 beat_in = true ->
  exists features,
    note_features K time_steps dropout W ph
                  (dropout4 input_dropout ph DNotes notes_in)
                  (beat_embedding K input_dropout dropout W ph beat_in) = Ok features /\
    shape4 B time_steps (NUM_NOTES K)
           (1 + OCTAVE K + 1 + OCTAVE_UNITS K + BEAT_UNITS K) features = true.
Proof.
  intros (HT & HO & HN & Hdiv) Hnotes Hbeat.
  pose proof (dropout4_shape4 input_dropout ph DNotes _ _ _ _ _ Hnotes) as Hd.
  unfold note_features.
  destruct (pitch_bins_ok K B time_steps 2 _ HO Hdiv ltac:(lia) Hd)
    as (bins & Ebins & Hbins).
  rewrite pitch_pos_closed, (pitch_class_closed K _ _ HO), Ebins.
  cbn [bind]. eexists. split; [reflexivity|].
  assert (HB : length (dropout4 input_dropout ph DNotes notes_in) = B)
    by (apply shape4_iff in Hd; tauto).
  rewrite HB.
  repeat apply concat4_shape4.
  - apply pitch_pos_shape.
  - apply pitch_class_shape.
  - exact Hbins.
  - apply note_octave_shape4. eapply shape4_prefix; exact Hd.
  - apply repeat_vector_shape4.
    eapply beat_embedding_shape3; exact Hbeat.
Qed.

(** X11: "Integrate style" keeps the shapes in step: when the width tracked as
    [x.get_shape()[3]] is the width of [x], the projected style added to [x]
    has exactly the shape of [x], in the time-axis stack as in the note-axis
    stack, and the layer hands on a tensor whose width is again the tracked
    one. *)
Theorem style_injection_keeps_width (B : nat) (style : tensor3 F)
        (st : tensor4 F * nat) (l : nat) :
  shape2 B time_steps style = true ->
  (shape4 B (NUM_NOTES K) time_steps (snd st) (fst st) = true ->
   shape4 B (NUM_NOTES K) time_steps (snd st)
          (permute213 (NUM_NOTES K)
             (style_proj K dropout ph (snd st) (w_time_style W l) (DTimeStyle l) style))
     = true /\
   shape4 B (NUM_NOTES K) time_steps
          (snd (time_layer K dropout W ph style st l))
          (fst (time_layer K dropout W ph style st l)) = true) /\
  (shape4 B time_steps (NUM_NOTES K) (snd st) (fst st) = true ->
   shape4 B time_steps (NUM_NOTES K) (snd st)
          (style_proj K dropout ph (snd st) (w_note_style W l) (DNoteStyle l) style)
     = true /\
   shape4 B time_steps (NUM_NOTES K)
          (snd (note_layer K dropout W ph style st l))
          (fst (note_layer K dropout W ph style st l)) = true).
Proof.
  intros Hs. split; intros Hx.
  - assert (Hp : shape4 B (NUM_NOTES K) time_steps (snd st)
                   (permute213 (NUM_NOTES K)
                      (style_proj K dropout ph (snd st) (w_time_style W l)
                                  (DTimeStyle l) style)) = true)
      by (apply permute213_shape4, style_proj_shape4; exact Hs).
    split; [exact Hp|].
    unfold time_layer. cbn [fst snd].
    apply dropout4_shape4, lstm_shape4.
    eapply shape4_prefix. apply add4_shape4; [exact Hx|exact Hp].
  - assert (Hp : shape4 B time_steps (NUM_NOTES K) (snd st)
                   (style_proj K dropout ph (snd st) (w_note_style W l)
                               (DNoteStyle l) style) = true)
      by (apply style_proj_shape4; exact Hs).
    split; [exact Hp|].
    unfold note_layer. cbn [fst snd].
    apply dropout4_shape4, lstm_shape4.
    eapply shape4_prefix. apply add4_shape4; [exact Hx|exact Hp].
Qed.

End WidthResults.

Lemma note_features_width_witness :
  valid_constants example_constants 16 /\
  shape4 2 16 (NUM_NOTES example_constants) 2 (@silence R _ 2 16 48) = true /\
  shape3 2 16 2 (@quiet R _ 2 16 2) = true /\
  exists features,
    note_features example_constants 16 (1 # 2) unit_weights test_phase
                  (dropout4 (1 # 5) test_phase DNotes (silence 2 16 48))
                  (beat_embedding example_constants (1 # 5) (1 # 2) unit_weights
                                  test_phase (quiet 2 16 2)) = Ok features /\
    shape4 2 16 48 142 features = true.
Proof.
  assert (Hn : shape4 2 16 (NUM_NOTES example_constants) 2 (@silence R _ 2 16 48) = true)
    by reflexivity.
  assert (Hb : shape3 2 16 2 (@quiet R _ 2 16 2) = true) by reflexivity.
  split; [exact example_valid|]. split; [exact Hn|]. split; [exact Hb|].
  exact (note_features_width example_constants 16 (1 # 5) (1 # 2) unit_weights
           test_phase 2 _ _ example_valid Hn Hb).
Defined.

Lemma style_injection_keeps_width_witness :
  shape2 2 16 (@quiet R _ 2 16 64) = true /\
  shape4 2 16 (NUM_NOTES example_constants) (snd (@silence R _ 2 16 48, 2))
         (fst (@silence R _ 2 16 48, 2)) = true /\
  shape4 2 16 (NUM_NOTES example_constants)
         (snd (note_layer example_constants (1 # 2) unit_weights test_phase
                          (quiet 2 16 64) (silence 2 16 48, 2) 0))
         (fst (note_layer example_constants (1 # 2) unit_weights test_phase
                          (quiet 2 16 64) (silence 2 16 48, 2) 0)) = true.
Proof.
  assert (Hs : shape2 2 16 (@quiet R _ 2 16 64) = true) by reflexivity.
  assert (Hx : shape4 2 16 (NUM_NOTES example_constants) (snd (@silence R _ 2 16 48, 2))
                 (fst (@silence R _ 2 16 48, 2)) = true) by reflexivity.
  split; [exact Hs|]. split; [exact Hx|].
  destruct (style_injection_keeps_width example_constants 16 (1 # 2) unit_weights
              test_phase 2 (quiet 2 16 64) (silence 2 16 48, 2) 0 Hs) as [_ Hnote].
  destruct (Hnote Hx) as [_ H]. exact H.
Defined.

(** ** What the pitch-bins feature holds at every index *)

Lemma nth_error_slice {A} (k off j : nat) (l : list A) :
  j < k -> nth_error (firstn k (skipn off l)) j = nth_error l (off + j).
Proof.
  intros H. rewrite nth_error_firstn.
  apply Nat.ltb_lt in H. rewrite H. apply nth_error_skipn.
Qed.

Lemma nth_error_chunks {A} (n k : nat) (l : list A) (i : nat) :
  i < n -> nth_error (chunks n k l) i = Some (firstn k (skipn (i * k) l)).
Proof.
  revert l i. induction n as [|n IH]; intros l i Hi; [lia|].
  destruct i as [|i]; cbn [chunks nth_error].
  - reflexivity.
  - rewrite IH by lia. rewrite skipn_skipn. do 3 f_equal. cbn [Nat.mul]. lia.
Qed.

Lemma index_bound (a b n d : nat) : a < n -> b < d -> a * d + b < n * d.
Proof.
  intros Ha Hb. apply Nat.lt_le_trans with (S a * d); [cbn [Nat.mul]; lia|].
  apply Nat.mul_le_mono_r. lia.
Qed.

(** Row-major addressing of a reshaped tensor. *)
Lemma reshape4_get {F} (d0 d1 d2 d3 : nat) (flat : list F) (out : tensor4 F)
      (b t n c : nat) :
  reshape4 d0 d1 d2 d3 flat = Ok out ->
  b < d0 -> t < d1 -> n < d2 -> c < d3 ->
  get4 out b t n c = nth_error flat (((b * d1 + t) * d2 + n) * d3 + c).
Proof.
  unfold reshape4. destruct (length flat =? d0 * d1 * d2 * d3); [|discriminate].
  intros H Hb Ht Hn Hc. injection H as <-.
  unfold get4, get3.
  rewrite nth_error_map, nth_error_chunks by assumption. cbn [option_map].
  rewrite nth_error_map, nth_error_chunks by assumption. cbn [option_map].
  rewrite nth_error_chunks by assumption.
  pose proof (index_bound n c d2 d3 Hn Hc) as H1.
  pose proof (index_bound t (n * d3 + c) d1 (d2 * d3) Ht H1) as H2.
  rewrite nth_error_slice by assumption.
  rewrite nth_error_slice by assumption.
  rewrite nth_error_slice by lia.
  f_equal. lia.
Qed.

Lemma nth_error_concat_uniform {A} (k : nat) (rows : list (list A)) (i : nat) :
  0 < k -> Forall (fun r => length r = k) rows ->
  nth_error (concat rows) i =
  match nth_error rows (i / k) with
  | Some r => nth_error r (i mod k)
  | None => None
  end.
Proof.
  intros Hk H. revert i. induction H as [|r rows Hr _ IH]; intros i.
  - cbn [concat]. destruct (i / k), i; reflexivity.
  - cbn [concat]. destruct (Nat.lt_ge_cases i k) as [Hlt|Hge].
    + rewrite nth_error_app1 by lia.
      rewrite Nat.div_small, Nat.mod_small by assumption. reflexivity.
    + rewrite nth_error_app2 by lia. rewrite Hr, IH.
      replace (i / k) with (S ((i - k) / k)).
      * cbn [nth_error].
        replace (i mod k) with ((i - k) mod k); [reflexivity|].
        rewrite <- (Nat.Div0.mod_add (i - k) 1 k). f_equal. lia.
      * replace i with ((i - k) + 1 * k) at 2 by lia.
        rewrite Nat.div_add by lia. lia.
Qed.

Lemma mod_mod_mul (f m k : nat) : (f mod (m * k)) mod k = f mod k.
Proof.
  rewrite (Nat.mul_comm m k), Nat.Div0.mod_mul_r.
  rewrite (Nat.mul_comm k), Nat.Div0.mod_add. apply Nat.Div0.mod_mod.
Qed.

(** Row-major addressing of a flattened rank-3 tensor. *)
Lemma nth_error_flatten3 {F} (n m k : nat) (x : tensor3 F) (f : nat) :
  0 < m -> 0 < k -> shape3 n m k x = true ->
  nth_error (flatten3 x) f = get3 x (f / (m * k)) ((f mod (m * k)) / k) (f mod k).
Proof.
  intros Hm Hk H. apply shape3_iff in H. destruct H as [_ H].
  unfold flatten3, get3. rewrite concat_concat_map.
  rewrite (nth_error_concat_uniform (m * k)).
  - rewrite nth_error_map.
    destruct (nth_error x (f / (m * k))) as [y|] eqn:Ey; [|reflexivity].
    cbn [option_map].
    rewrite Forall_forall in H. specialize (H y (nth_error_In _ _ Ey)).
    apply shape2_iff in H. destruct H as [_ H].
    rewrite (nth_error_concat_uniform k _ _ Hk H), mod_mod_mul. reflexivity.
  - nia.
  - apply Forall_map. eapply Forall_impl; [|exact H].
    intros y Hy. cbv beta in Hy. apply shape2_iff in Hy. destruct Hy as [H1 H2].
    rewrite (length_concat_uniform _ _ H2), H1. reflexivity.
Qed.

Section BinsValue.
Context {F : Type} {SF : Scalar F}.
Variable K : constants.

(** The bin of pitch class [i] at batch element [b] and time step [t]. *)
Lemma get3_bins (B T N C : nat) (x : tensor4 F) (i b t : nat) :
  shape4 B T N C x = true -> i < OCTAVE K -> b < B -> t < T ->
  get3 (reduce_sum3 (map (fun i => played_slice K i x) (seq 0 (OCTAVE K)))) i b t =
  pitch_class_sum K x b t i.
Proof.
  intros Hx Hi Hb Ht.
  apply shape4_iff in Hx. destruct Hx as [HB Hx].
  destruct (nth_error_shape _ _ _ _ HB Hx Hb) as (xb & Exb & Hxb).
  apply shape3_iff in Hxb. destruct Hxb as [HT Hxb].
  destruct (nth_error_shape _ _ _ _ HT Hxb Ht) as (notes & Ent & _).
  unfold get3, reduce_sum3, pitch_class_sum, played_slice.
  rewrite !nth_error_map, nth_error_seq.
  pose proof Hi as Hi'. apply Nat.ltb_lt in Hi'. rewrite Hi'. cbn [option_map Nat.add].
  rewrite !nth_error_map, Exb. cbn [option_map].
  rewrite !nth_error_map, Ent. cbn [option_map].
  rewrite Nat.mod_small by exact Hi. reflexivity.
Qed.

(** X1: what [pitch_bins_f] returns, for any batch size and any number of
    time steps: a (B, T, NUM_NOTES, 1) tensor whose entry at (b, t, n) is found by
    reading the row-major position f = (b * T + t) * NUM_NOTES + n in a
    (NUM_NOTES, B, T) layout: it is the bin of the pitch class of note
    f / (B * T), at batch element (f mod (B * T)) / T and time step f mod T. *)
Theorem pitch_bins_value (B T C : nat) (x : tensor4 F) :
  0 < OCTAVE K -> NUM_NOTES K = NUM_OCTAVES K * OCTAVE K -> 0 < C ->
  shape4 B T (NUM_NOTES K) C x = true ->
  exists out,
    pitch_bins_f K T x = Ok out /\
    shape4 B T (NUM_NOTES K) 1 out = true /\
    forall b t n, b < B -> t < T -> n < NUM_NOTES K ->
      get4 out b t n 0 =
      pitch_class_sum K x
        ((((b * T + t) * NUM_NOTES K + n) mod (B * T)) / T)
        (((b * T + t) * NUM_NOTES K + n) mod T)
        (((b * T + t) * NUM_NOTES K + n) / (B * T)).
Proof.
  intros HO HN HC Hx.
  destruct (pitch_bins_ok K B T C x HO HN HC Hx) as (out & E & Hout).
  exists out. split; [exact E|]. split; [exact Hout|].
  intros b t n Hb Ht Hn.
  set (f := (b * T + t) * NUM_NOTES K + n).
  pose proof (index_bound b t B T Hb Ht) as Hbt.
  assert (Hf : f < B * T * NUM_NOTES K)
    by (unfold f; apply index_bound; assumption).
  assert (HBT : 0 < B * T) by lia.
  (* the steps of [pitch_bins_f], as in [pitch_bins_ok] *)
  unfold pitch_bins_f in E.
  rewrite (slices_ok K B T _ C x HC Hx) in E. cbn [bind] in E.
  rewrite (pack_slices_whole K (NUM_OCTAVES K)) in E by exact HN.
  assert (Hsl : forall i, i < OCTAVE K ->
            shape3 B T (NUM_OCTAVES K) (played_slice K i x) = true).
  { intros i Hi. eapply played_slice_shape; eassumption. }
  assert (Hst : stack (map (fun i => played_slice K i x) (seq 0 (OCTAVE K))) =
                Ok (map (fun i => played_slice K i x) (seq 0 (OCTAVE K)))).
  { destruct (OCTAVE K) as [|o] eqn:EO; [lia|].
    cbn [seq map stack].
    replace (forallb _ _) with true; [reflexivity|].
    symmetry. apply forallb_forall. intros s Hs.
    apply in_map_iff in Hs. destruct Hs as (i & <- & Hi). apply in_seq in Hi.
    apply (same_shape3_of_shape B T (NUM_OCTAVES K)); apply Hsl; lia. }
  rewrite Hst in E. cbn [bind] in E. rewrite tile3_axis0 in E.
  set (bins := reduce_sum3 (map (fun i => played_slice K i x) (seq 0 (OCTAVE K)))) in *.
  assert (Hb3 : shape3 (OCTAVE K) B T bins = true).
  { unfold bins. apply reduce_sum3_shape, shape3_iff.
    split; [now rewrite length_map, length_seq|].
    apply Forall_map, Forall_forall. intros i Hi. apply in_seq in Hi.
    specialize (Hsl i ltac:(lia)).
    apply shape3_iff in Hsl. destruct Hsl as [Hl Hrows].
    apply shape2_iff. split; [exact Hl|].
    eapply Forall_impl; [|exact Hrows].
    intros y Hy. apply shape2_iff in Hy. tauto. }
  assert (Htiled : shape3 (NUM_NOTES K) B T (tile1 (NUM_OCTAVES K) bins) = true).
  { apply shape3_iff in Hb3. destruct Hb3 as [Hb1 Hb2].
    apply shape3_iff. split.
    - rewrite length_tile1, Hb1. lia.
    - apply Forall_tile1. exact Hb2. }
  assert (HlB : length x = B) by (apply shape4_iff in Hx; tauto).
  rewrite HlB in E.
  rewrite (reshape4_get _ _ _ _ _ _ b t n 0 E) by lia.
  replace (((b * T + t) * NUM_NOTES K + n) * 1 + 0) with f by (unfold f; lia).
  rewrite (nth_error_flatten3 (NUM_NOTES K) B T) by (try exact Htiled; lia).
  assert (Hq : f / (B * T) < NUM_NOTES K)
    by (apply Nat.Div0.div_lt_upper_bound; lia).
  assert (Hb' : (f mod (B * T)) / T < B).
  { apply Nat.Div0.div_lt_upper_bound.
    pose proof (Nat.mod_upper_bound f (B * T) ltac:(lia)). lia. }
  assert (Ht' : f mod T < T) by (apply Nat.mod_upper_bound; lia).
  unfold get3 at 1.
  rewrite nth_error_tile1
    by (rewrite (shape3_length _ _ _ _ Hb3); lia).
  rewrite (shape3_length _ _ _ _ Hb3).
  pose proof (Nat.mod_upper_bound (f / (B * T)) (OCTAVE K) ltac:(lia)) as Hcls.
  fold (get3 bins ((f / (B * T)) mod OCTAVE K) ((f mod (B * T)) / T) (f mod T)).
  unfold bins. rewrite (get3_bins B T (NUM_NOTES K) C) by assumption.
  unfold pitch_class_sum. rewrite Nat.Div0.mod_mod. reflexivity.
Qed.

End BinsValue.

Lemma pitch_bins_value_witness :
  0 < OCTAVE tiny_constants /\
  NUM_NOTES tiny_constants = NUM_OCTAVES tiny_constants * OCTAVE tiny_constants /\
  shape4 1 2 (NUM_NOTES tiny_constants) 2 tiny_notes = true /\
  exists out,
    pitch_bins_f tiny_constants 2 tiny_notes = Ok out /\
    get4 out 0 0 1 0 = pitch_class_sum tiny_constants tiny_notes 0 1 0.
Proof.
  assert (H1 : 0 < OCTAVE tiny_constants) by (cbn; lia).
  assert (H2 : NUM_NOTES tiny_constants
               = NUM_OCTAVES tiny_constants * OCTAVE tiny_constants) by reflexivity.
  assert (H3 : 0 < 2) by lia.
  assert (H4 : shape4 1 2 (NUM_NOTES tiny_constants) 2 tiny_notes = true) by reflexivity.
  split; [exact H1|]. split; [exact H2|]. split; [exact H4|].
  destruct (pitch_bins_value tiny_constants 1 2 2 tiny_notes H1 H2 H3 H4)
    as (out & E & _ & Hval).
  exists out. split; [exact E|].
  apply (Hval 0 0 1); cbn; lia.
Defined.

(** X2: with one batch element and one time step the pitch-bins feature at
    note [i] is the sum of the played channel over the notes of the pitch
    class of [i]. *)
Theorem pitch_bins_one_frame {F} {SF : Scalar F} (K : constants) (C : nat)
        (notes : tensor2 F) :
  0 < OCTAVE K -> NUM_NOTES K = NUM_OCTAVES K * OCTAVE K -> 0 < C ->
  shape2 (NUM_NOTES K) C notes = true ->
  exists out,
    pitch_bins_f K 1 [[notes]] = Ok out /\
    forall i, i < NUM_NOTES K ->
      get4 out 0 0 i 0 = pitch_class_sum K [[notes]] 0 0 i.
Proof. apply pitch_bins_single_frame. Qed.

Lemma pitch_bins_one_frame_witness :
  0 < OCTAVE example_constants /\
  shape2 (NUM_NOTES example_constants) 2 (repeat [1%Q; 0%Q] 48) = true /\
  exists out,
    pitch_bins_f example_constants 1 [[repeat [1%Q; 0%Q] 48]] = Ok out /\
    get4 out 0 0 30 0 =
    pitch_class_sum example_constants [[repeat [1%Q; 0%Q] 48]] 0 0 30.
Proof.
  assert (H1 : 0 < OCTAVE example_constants) by (cbn; lia).
  assert (H2 : NUM_NOTES example_constants
               = NUM_OCTAVES example_constants * OCTAVE example_constants) by reflexivity.
  assert (H3 : 0 < 2) by lia.
  assert (H4 : shape2 (NUM_NOTES example_constants) 2 (repeat [1%Q; 0%Q] 48) = true)
    by reflexivity.
  split; [exact H1|]. split; [exact H4|].
  destruct (pitch_bins_one_frame example_constants 2 _ H1 H2 H3 H4)
    as (out & E & Hval).
  exists out. split; [exact E|]. apply Hval. cbn. lia.
Defined.

(** ** Constants that do not fit together *)

Section Misfits.
Context {F : Type} {SF : Scalar F}.
Variable K : constants.

(** X3: when NUM_NOTES is a whole number of octaves but not NUM_OCTAVES of them,
    the pitch-bins feature fails in its final reshape: the tiled bins hold
    NUM_OCTAVES * OCTAVE * B * T entries, the target shape B * T * NUM_NOTES. *)
Theorem pitch_bins_octave_count (q B T C : nat) (x : tensor4 F) :
  0 < OCTAVE K -> NUM_NOTES K = q * OCTAVE K -> q <> NUM_OCTAVES K ->
  0 < B -> 0 < T -> 0 < C ->
  shape4 B T (NUM_NOTES K) C x = true ->
  pitch_bins_f K T x = Err ShapeMismatch.
Proof.
  intros HO HN Hq HB HT HC Hx. unfold pitch_bins_f.
  rewrite (slices_ok K B T _ C x HC Hx). cbn [bind].
  rewrite (pack_slices_whole K q) by exact HN.
  assert (Hsl : forall i, i < OCTAVE K ->
            shape3 B T q (played_slice K i x) = true).
  { intros i Hi. eapply played_slice_shape; eassumption. }
  assert (Hst : stack (map (fun i => played_slice K i x) (seq 0 (OCTAVE K))) =
                Ok (map (fun i => played_slice K i x) (seq 0 (OCTAVE K)))).
  { destruct (OCTAVE K) as [|o] eqn:EO; [lia|].
    cbn [seq map stack].
    replace (forallb _ _) with true; [reflexivity|].
    symmetry. apply forallb_forall. intros s Hs.
    apply in_map_iff in Hs. destruct Hs as (i & <- & Hi). apply in_seq in Hi.
    apply (same_shape3_of_shape B T q); apply Hsl; lia. }
  rewrite Hst. cbn [bind]. rewrite tile3_axis0.
  assert (Hb : shape3 (OCTAVE K) B T
                 (reduce_sum3 (map (fun i => played_slice K i x) (seq 0 (OCTAVE K))))
               = true).
  { apply reduce_sum3_shape, shape3_iff.
    split; [now rewrite length_map, length_seq|].
    apply Forall_map, Forall_forall. intros i Hi. apply in_seq in Hi.
    specialize (Hsl i ltac:(lia)).
    apply shape3_iff in Hsl. destruct Hsl as [Hl Hrows].
    apply shape2_iff. split; [exact Hl|].
    eapply Forall_impl; [|exact Hrows].
    intros y Hy. apply shape2_iff in Hy. tauto. }
  assert (Hlen : length (flatten3 (tile1 (NUM_OCTAVES K)
                   (reduce_sum3 (map (fun i => played_slice K i x) (seq 0 (OCTAVE K))))))
                 = NUM_OCTAVES K * OCTAVE K * B * T).
  { apply length_flatten3.
    apply shape3_iff in Hb. destruct Hb as [Hb1 Hb2].
    apply shape3_iff. split.
    - rewrite length_tile1, Hb1. reflexivity.
    - apply Forall_tile1. exact Hb2. }
  assert (HlB : length x = B) by (apply shape4_iff in Hx; tauto).
  unfold reshape4. rewrite Hlen, HlB, HN.
  destruct (NUM_OCTAVES K * OCTAVE K * B * T =? B * T * (q * OCTAVE K) * 1) eqn:E;
    [|reflexivity].
  apply Nat.eqb_eq in E. exfalso. apply Hq.
  assert (Hpos : 0 < OCTAVE K * B * T) by (repeat apply Nat.mul_pos_pos; assumption).
  apply (Nat.mul_cancel_r _ _ (OCTAVE K * B * T)); lia.
Qed.

(** X4: with OCTAVE = 0 and at least one note, the pitch-class feature is not
    built: computing [n % OCTAVE] for the first note divides by zero. *)
Theorem pitch_class_zero_octave (time_steps : nat) (x : tensor4 F) :
  OCTAVE K = 0 -> 0 < NUM_NOTES K ->
  pitch_class_in_f K time_steps x = Err ZeroDivision.
Proof.
  intros HO HN. unfold pitch_class_in_f.
  destruct (NUM_NOTES K) as [|n]; [lia|].
  cbn [seq mapM]. unfold py_mod. rewrite HO. reflexivity.
Qed.

End Misfits.

Lemma pitch_bins_octave_count_witness :
  0 < OCTAVE miscounted_constants /\
  NUM_NOTES miscounted_constants = 3 * OCTAVE miscounted_constants /\
  3 <> NUM_OCTAVES miscounted_constants /\
  shape4 2 16 (NUM_NOTES miscounted_constants) 2 (@silence Q _ 2 16 36) = true /\
  pitch_bins_f miscounted_constants 16 (@silence Q _ 2 16 36) = Err ShapeMismatch.
Proof.
  assert (H1 : 0 < OCTAVE miscounted_constants) by (cbn; lia).
  assert (H2 : NUM_NOTES miscounted_constants = 3 * OCTAVE miscounted_constants)
    by reflexivity.
  assert (H3 : 3 <> NUM_OCTAVES miscounted_constants) by (cbn; lia).
  assert (H4 : shape4 2 16 (NUM_NOTES miscounted_constants) 2 (@silence Q _ 2 16 36) = true)
    by reflexivity.
  split; [exact H1|]. split; [exact H2|]. split; [exact H3|]. split; [exact H4|].
  apply (pitch_bins_octave_count miscounted_constants 3 2 16 2 _ H1 H2 H3);
    try lia; exact H4.
Defined.

Lemma pitch_class_zero_octave_witness :
  OCTAVE empty_octave_constants = 0 /\ 0 < NUM_NOTES empty_octave_constants /\
  pitch_class_in_f empty_octave_constants 16 (@silence Q _ 2 16 48) = Err ZeroDivision.
Proof.
  assert (H1 : OCTAVE empty_octave_constants = 0) by reflexivity.
  assert (H2 : 0 < NUM_NOTES empty_octave_constants) by (cbn; lia).
  split; [exact H1|]. split; [exact H2|].
  exact (pitch_class_zero_octave empty_octave_constants 16 _ H1 H2).
Defined.

(** ** The range of the pitch position *)

(** X5: over the reals the pitch position lies in [0, 1) and grows strictly with
    the note index, at every batch element and time step. *)
Theorem pitch_pos_unit_interval (K : constants) (time_steps : nat) (x : tensor4 R) :
  exists out,
    pitch_pos_in_f K time_steps x = Ok out /\
    forall b t i, b < length x -> t < time_steps -> i < NUM_NOTES K ->
      exists v,
        row4 out b t i = Some [v] /\ (0 <= v < 1)%R /\
        forall j w, i < j -> j < NUM_NOTES K ->
          row4 out b t j = Some [w] -> (v < w)%R.
Proof.
  eexists. split; [apply pitch_pos_closed|].
  intros b t i Hb Ht Hi.
  assert (Hrow : forall j, j < NUM_NOTES K ->
            row4 (repeat (repeat (map (fun i0 => [div (of_nat i0) (of_nat (NUM_NOTES K))])
                                      (seq 0 (NUM_NOTES K))) time_steps) (length x)) b t j
            = Some [(INR j / INR (NUM_NOTES K))%R]).
  { intros j Hj. rewrite row4_repeat by assumption.
    rewrite nth_error_map, nth_error_seq.
    apply Nat.ltb_lt in Hj. rewrite Hj. reflexivity. }
  assert (HN : (0 < INR (NUM_NOTES K))%R) by (apply lt_0_INR; lia).
  exists (INR i / INR (NUM_NOTES K))%R. split; [apply Hrow; exact Hi|]. split.
  - split.
    + apply Rmult_le_pos; [apply pos_INR|]. apply Rlt_le, Rinv_0_lt_compat. exact HN.
    + apply (Rmult_lt_reg_r (INR (NUM_NOTES K))); [exact HN|].
      unfold Rdiv. rewrite Rmult_assoc, Rinv_l, Rmult_1_r, Rmult_1_l by lra.
      apply lt_INR. exact Hi.
  - intros j w Hij Hj Hw. rewrite (Hrow j Hj) in Hw. injection Hw as <-.
    unfold Rdiv. apply Rmult_lt_compat_r; [apply Rinv_0_lt_compat; exact HN|].
    apply lt_INR. exact Hij.
Qed.

(** ** The sign of the primary loss *)

Lemma clip_probability_bounds (p : R) :
  (1e-7 <= clip_probability p <= 1 - 1e-7)%R.
Proof.
  unfold clip_probability. split.
  - apply Rmax_l.
  - apply Rmax_lub; [lra|apply Rmin_l].
Qed.

Lemma ln_nonpos (c : R) : (0 < c <= 1)%R -> (ln c <= 0)%R.
Proof.
  intros [H0 H1]. rewrite <- ln_1.
  destruct H1 as [H1|H1]; [left; apply ln_increasing; assumption|].
  rewrite H1. lra.
Qed.

Lemma binary_crossentropy_nonneg (t p : R) :
  (0 <= t <= 1)%R -> (0 <= K_binary_crossentropy t p)%R.
Proof.
  intros Ht. cbn [K_binary_crossentropy R_crossentropy].
  pose proof (clip_probability_bounds p) as Hc.
  assert (H1 : (ln (clip_probability p) <= 0)%R) by (apply ln_nonpos; lra).
  assert (H2 : (ln (1 - clip_probability p) <= 0)%R) by (apply ln_nonpos; lra).
  assert (H3 : (t * ln (clip_probability p) <= 0)%R).
  { rewrite <- (Rmult_0_r t). apply Rmult_le_compat_l; lra. }
  assert (H4 : ((1 - t) * ln (1 - clip_probability p) <= 0)%R).
  { rewrite <- (Rmult_0_r (1 - t)). apply Rmult_le_compat_l; lra. }
  lra.
Qed.

Lemma sum_nonneg (l : list R) : Forall (fun v => (0 <= v)%R) l -> (0 <= sum l)%R.
Proof.
  induction 1 as [|a l Ha _ IH].
  - rewrite sum_nil. lra.
  - rewrite sum_cons. lra.
Qed.

Lemma mean_nonneg (l : list R) : Forall (fun v => (0 <= v)%R) l -> (0 <= mean l)%R.
Proof.
  intros H. unfold mean. cbn [div of_nat R_scalar].
  destruct l as [|a l].
  - rewrite sum_nil. unfold Rdiv. rewrite Rmult_0_l. lra.
  - apply Rmult_le_pos; [apply sum_nonneg; exact H|].
    apply Rlt_le, Rinv_0_lt_compat, lt_0_INR. simpl. lia.
Qed.

(** X12: for labels in [0, 1] the primary loss is nowhere negative, whatever the
    prediction, and neither is the objective built from it. *)
Theorem primary_loss_nonneg (y_true y_pred : tensor4 R) :
  all_entries4 (fun v => (0 <= v <= 1)%R) y_true ->
  all_entries3 (fun v => (0 <= v)%R) (primary_loss y_true y_pred) /\
  (0 <= weighted_objective (primary_loss y_true y_pred))%R.
Proof.
  intros Hy.
  assert (Hl : all_entries3 (fun v => (0 <= v)%R) (primary_loss y_true y_pred)).
  { unfold all_entries3, all_entries4, primary_loss, binary_crossentropy in *.
    rewrite Forall_forall in Hy.
    apply Forall_map2. intros a b Ha _. specialize (Hy a Ha).
    rewrite Forall_forall in Hy.
    apply Forall_map2. intros a' b' Ha' _. specialize (Hy a' Ha').
    rewrite Forall_forall in Hy.
    apply Forall_map2. intros r r' Hr _. specialize (Hy r Hr).
    rewrite Forall_forall in Hy.
    apply mean_nonneg, Forall_map2. intros t p Ht _.
    apply binary_crossentropy_nonneg. apply Hy. exact Ht. }
  split; [exact Hl|].
  unfold weighted_objective. apply mean_nonneg.
  apply Forall_map. unfold all_entries3 in Hl.
  eapply Forall_impl; [|exact Hl].
  intros s Hs. cbv beta. apply mean_nonneg.
  unfold flatten2. apply Forall_concat. exact Hs.
Qed.

Lemma primary_loss_nonneg_witness :
  all_entries4 (fun v => (0 <= v <= 1)%R) [[[[1%R; 0%R]; [0%R; 0%R]]]] /\
  (0 <= weighted_objective
          (primary_loss [[[[1%R; 0%R]; [0%R; 0%R]]]]
                        [[[[0.5%R; 0.5%R]; [0.25%R; 2%R]]]]))%R.
Proof.
  assert (H : all_entries4 (fun v => (0 <= v <= 1)%R) [[[[1%R; 0%R]; [0%R; 0%R]]]])
    by (unfold all_entries4; repeat constructor; lra).
  split; [exact H|].
  destruct (primary_loss_nonneg [[[[1%R; 0%R]; [0%R; 0%R]]]]
                                [[[[0.5%R; 0.5%R]; [0.25%R; 2%R]]]] H) as [_ Hobj].
  exact Hobj.
Defined.
